(** * electron-builder-notarize-pkg: a shallow embedding of the notarization hooks

    The repository has two hook modules with the same skeleton:
    - the signed-package hook ([src/index.js]), module [Pkg] below, which
      product-signs the installer before it is notarized;
    - the plain notarization hook ([src/unnamed/part_000]), module [Notarize].

    Both are written in JavaScript against three ambient services: the
    process environment, external command-line tools run through [execa],
    and the file system.  The embedding keeps the JavaScript data as it
    is (strings as sequences of UTF-16 code units, [undefined], [NaN])
    and threads the ambient services explicitly. *)

From Stdlib Require Import ZArith NArith List Ascii String.
From Stdlib Require Import DecimalString DecimalPos DecimalN.
From stdpp Require Import base tactics option list gmap strings.

Local Open Scope N_scope.
Local Open Scope list_scope.

(** ** JavaScript strings *)

(** A JavaScript string is a sequence of 16-bit code units.  Code units
    are kept as [N]; no function below depends on the bound [< 65536]. *)
Abbreviation jsstr := (list N).

(** The code units of a source-code literal (all literals of the two
    modules are ASCII). *)
Fixpoint js (s : string) : jsstr :=
  match s with
  | EmptyString => []
  | String a s' => N_of_ascii a :: js s'
  end.

Definition LF : N := 10.
Definition SPACE : N := 32.
Definition DQUOTE : N := 34.

(** ECMAScript LineTerminator: LF, CR, U+2028, U+2029. *)
Definition is_line_terminator (c : N) : bool :=
  (c =? 10) || (c =? 13) || (c =? 8232) || (c =? 8233).

(** ECMAScript WhiteSpace: TAB, VT, FF, SP, NBSP, ZWNBSP and the
    space separators (category Zs). *)
Definition is_white_space (c : N) : bool :=
  (c =? 9) || (c =? 11) || (c =? 12) || (c =? 32) || (c =? 160) ||
  (c =? 5760) || ((8192 <=? c) && (c <=? 8202)) || (c =? 8239) ||
  (c =? 8287) || (c =? 12288) || (c =? 65279).

(** What [String.prototype.trim] and [parseInt] strip. *)
Definition is_trimmable (c : N) : bool :=
  is_white_space c || is_line_terminator c.

Fixpoint trim_start (s : jsstr) : jsstr :=
  match s with
  | c :: s' => if is_trimmable c then trim_start s' else s
  | [] => []
  end.

Definition trim_end (s : jsstr) : jsstr := rev (trim_start (rev s)).

(** [String.prototype.trim] *)
Definition trim (s : jsstr) : jsstr := trim_end (trim_start s).

(** ** JavaScript numbers and values *)

(** The Number values this program can produce: [NaN], the doubles
    whose value is an integer, and the two infinities.  A Number is an
    IEEE 754 double: every integer up to [2^53] in absolute value is
    one, and beyond that only the integers with 53 significant bits
    are.  [Int z] is the double whose value is [z]; reading a numeral
    ([double_of_Z] below) rounds to such a [z].  Negative zero is
    identified with zero (the two are [===], both falsy, both print as
    [0]). *)
Inductive JsNumber :=
  | NaN
  | Int (z : Z)
  | Infinity (negative : bool).

#[local] Set Warnings "-register-all".

(** [JDate d] is the object [new Date(d)], kept as the text it was
    constructed from; [JObj] is a plain object. *)
Inductive JsVal :=
  | JUndefined
  | JNull
  | JStr (s : jsstr)
  | JNum (n : JsNumber)
  | JDate (src : jsstr)
  | JObj (props : list (string * JsVal)).

(** ToBoolean *)
Definition truthy (v : JsVal) : bool :=
  match v with
  | JUndefined | JNull => false
  | JStr [] => false
  | JStr _ => true
  | JNum NaN => false
  | JNum (Int z) => negb (z =? 0)%Z
  | JNum (Infinity _) => true
  | JDate _ | JObj _ => true
  end.

(** [a || b] *)
Definition js_or (a b : JsVal) : JsVal := if truthy a then a else b.

(** [v === 'literal'] *)
Definition is_str (v : JsVal) (lit : jsstr) : bool :=
  match v with
  | JStr s => bool_decide (s = lit)
  | _ => false
  end.

(** A possibly-[undefined] string, as read from [process.env] or from an
    object that may lack the property. *)
Definition of_opt (o : option jsstr) : JsVal :=
  match o with
  | Some s => JStr s
  | None => JUndefined
  end.

(** Property read [v.k] (also what the object pattern [{k}] binds).  A
    string has no own or inherited property under the names this
    program destructures, so the read gives [undefined]. *)
Fixpoint assoc (k : string) (props : list (string * JsVal)) : JsVal :=
  match props with
  | [] => JUndefined
  | (k', v) :: rest => if String.eqb k k' then v else assoc k rest
  end.

Definition get_prop (v : JsVal) (k : string) : JsVal :=
  match v with
  | JObj props => assoc k props
  | _ => JUndefined
  end.

(** Property read on an object kept as a finite map. *)
Definition prop (o : gmap string JsVal) (k : string) : JsVal :=
  default JUndefined (o !! k).

(** Decimal numerals. *)
Definition decimal_of_N (n : N) : jsstr := js (NilZero.string_of_uint (N.to_uint n)).

Definition decimal_of_Z (z : Z) : jsstr :=
  match z with
  | Z0 => js "0"
  | Zpos p => decimal_of_N (Npos p)
  | Zneg p => js "-" ++ decimal_of_N (Npos p)
  end.

(** The Number nearest to a mathematical integer (ties go to the even
    significand), as IEEE 754 rounding prescribes: [m] itself when it
    has at most 53 bits, otherwise its 53 leading bits, rounded, times
    the power of two that was cut off; an infinity from [2^1024 - 2^970]
    on. *)
Definition round_to_double (m : Z) : JsNumber :=
  let e := (Z.log2 m + 1 - 53)%Z in
  if (e <=? 0)%Z then Int m
  else
    let q := Z.shiftr m e in
    let r := Z.land m (Z.ones e) in
    let half := Z.shiftl 1 (e - 1) in
    let q' := if (half <? r)%Z || ((r =? half)%Z && Z.odd q) then (q + 1)%Z else q in
    let v := Z.shiftl q' e in
    if (Z.shiftl 1 1024 <=? v)%Z then Infinity false else Int v.

Definition double_of_Z (z : Z) : JsNumber :=
  match z with
  | Z0 => Int 0
  | Zpos _ => round_to_double z
  | Zneg p =>
      match round_to_double (Zpos p) with
      | Int v => Int (- v)
      | _ => Infinity true
      end
  end.

(** Number::toString for a double [v] above [2^53]: the fewest digits [s]
    (there are [k] of them) such that [s * 10^(n-k)] is read back as
    [v]; of two such [s] the one nearest to [v], and the even one when
    they are as near.  [d] is the number of digits of [v].  The result
    is [(s, k)]. *)
Fixpoint shortest_digits (fuel : nat) (k : Z) (v d : Z) : Z * Z :=
  match fuel with
  | O => (v, d)
  | S fuel' =>
      let scale := (10 ^ (d - k))%Z in
      let lo := (v / scale)%Z in
      let hi := (lo + 1)%Z in
      let reads s := match round_to_double (s * scale) with
                     | Int v' => (v' =? v)%Z
                     | _ => false
                     end in
      let below := (v - lo * scale)%Z in
      let above := (hi * scale - v)%Z in
      match reads lo, reads hi with
      | true, true =>
          if (below <? above)%Z then (lo, k)
          else if (above <? below)%Z then (hi, k)
          else if Z.even lo then (lo, k) else (hi, k)
      | true, false => (lo, k)
      | false, true => (hi, k)
      | false, false => shortest_digits fuel' (k + 1)%Z v d
      end
  end.

(** The digits [s] and the exponent [n], laid out: plain digits followed
    by zeros up to 21 digits, exponent notation beyond. *)
Definition layout_digits (s k n : Z) : jsstr :=
  let digits := decimal_of_Z s in
  if (n <=? 21)%Z then digits ++ repeat 48 (Z.to_nat (n - k))
  else
    match digits with
    | c :: (_ :: _) as more => c :: js "." ++ more
    | _ => digits
    end ++ js "e+" ++ decimal_of_Z (n - 1).

(** Number::toString of a positive integer double.  Up to [2^53] every
    integer is a double and prints as its numeral. *)
Definition positive_to_string (m : Z) : jsstr :=
  if (m <=? 2 ^ 53)%Z then decimal_of_Z m
  else
    match round_to_double m with
    | Int v =>
        let d := Z.of_nat (length (decimal_of_Z v)) in
        match round_to_double (10 ^ d) with
        | Int v' =>
            if (v' =? v)%Z then layout_digits 1 1 (d + 1)
            else let '(s, k) := shortest_digits (Z.to_nat d) 1 v d in
                 layout_digits s k d
        | _ => let '(s, k) := shortest_digits (Z.to_nat d) 1 v d in
               layout_digits s k d
        end
    | _ => js "Infinity"
    end.

Definition number_to_string (n : JsNumber) : jsstr :=
  match n with
  | NaN => js "NaN"
  | Int Z0 => js "0"
  | Int (Zpos p) => positive_to_string (Zpos p)
  | Int (Zneg p) => js "-" ++ positive_to_string (Zpos p)
  | Infinity false => js "Infinity"
  | Infinity true => js "-Infinity"
  end.

(** ToString, as a template literal applies it.  How a Date prints
    depends on the time zone of the host; the hooks never print one, and
    the model gives the text it was constructed from. *)
Definition to_string (v : JsVal) : jsstr :=
  match v with
  | JUndefined => js "undefined"
  | JNull => js "null"
  | JStr s => s
  | JNum n => number_to_string n
  | JDate src => src
  | JObj _ => js "[object Object]"
  end.

(** ** [Number.parseInt(s, 10)] *)

Definition is_digit (c : N) : bool := (48 <=? c) && (c <=? 57).

Fixpoint take_digits (s : jsstr) : jsstr :=
  match s with
  | c :: s' => if is_digit c then c :: take_digits s' else []
  | [] => []
  end.

(** Value of a run of digits, most significant first. *)
Definition digits_value (ds : jsstr) : Z :=
  fold_left (fun acc c => (10 * acc + (Z.of_N c - 48))%Z) ds 0%Z.

(** Leading white space is skipped, one sign is read, then the longest
    run of digits; anything after the run is ignored.  No digit at all
    gives [NaN]; otherwise the result is the Number nearest to the
    integer the digits denote. *)
Definition parseInt10 (s : jsstr) : JsNumber :=
  let s1 := trim_start s in
  let '(sign, s2) :=
    match s1 with
    | c :: t =>
        if c =? 45 then ((-1)%Z, t)
        else if c =? 43 then (1%Z, t)
        else (1%Z, s1)
    | [] => (1%Z, s1)
    end in
  match take_digits s2 with
  | [] => NaN
  | ds => double_of_Z (sign * digits_value ds)
  end.

(** ** Regular expressions

    The fragment the two modules use: literal characters, a greedy star
    over one character, and the capturing lazy group [(.+?)].  Matching
    backtracks as ECMAScript prescribes. *)

Inductive Re :=
  | RChar (c : N)
  | RStar (c : N)
  | RLazyDots.

(** A literal run of characters. *)
Definition RLit (s : string) : list Re := map RChar (js s).

(** [c*] followed by the rest of the pattern [k]: as many [c] as
    possible first, then fewer. *)
Fixpoint star (c : N) (k : jsstr -> option (option jsstr)) (s : jsstr)
  : option (option jsstr) :=
  match s with
  | x :: s' =>
      if x =? c then
        match star c k s' with
        | Some m => Some m
        | None => k s
        end
      else k s
  | [] => k s
  end.

(** [(.+?)] followed by the rest of the pattern [k]: one character that
    is not a line terminator, then as few more as possible.  [acc] is
    the text captured so far. *)
Fixpoint dots (k : jsstr -> option jsstr -> option (option jsstr))
    (acc : jsstr) (s : jsstr) : option (option jsstr) :=
  match s with
  | x :: s' =>
      if is_line_terminator x then None
      else
        match k s' (Some (acc ++ [x])) with
        | Some m => Some m
        | None => dots k (acc ++ [x]) s'
        end
  | [] => None
  end.

(** [re_match r s cap]: match [r] against a prefix of [s]; the result is
    the text captured by group 1 ([cap] when [r] has no group). *)
Fixpoint re_match (r : list Re) (s : jsstr) (cap : option jsstr)
  : option (option jsstr) :=
  match r with
  | [] => Some cap
  | RChar c :: r' =>
      match s with
      | x :: s' => if x =? c then re_match r' s' cap else None
      | [] => None
      end
  | RStar c :: r' => star c (fun s' => re_match r' s' cap) s
  | RLazyDots :: r' => dots (fun s' cap' => re_match r' s' cap') [] s
  end.

(** [r.exec(text)] on a fresh regular expression: the leftmost match.
    The result is group 1 of the match array. *)
Fixpoint exec (r : list Re) (text : jsstr) : option (option jsstr) :=
  match re_match r text None with
  | Some m => Some m
  | None =>
      match text with
      | [] => None
      | _ :: text' => exec r text'
      end
  end.

(** ** The ambient services

    External tools ([execa]), timers ([delay]), the console and the file
    system are outside the program.  A run is described by the events it
    emits, in order, and by the replies the outside world gives to its
    calls, in order. *)

Record JsError := { message : jsstr; code : JsVal }.

(** [new Error(m)] *)
Definition Error (m : jsstr) : JsError := {| message := m; code := JUndefined |}.

Inductive Event :=
  | Exec (cmd : jsstr) (args : list JsVal) (cwd : option jsstr)
  | Delay (ms : Z)
  | Log (line : jsstr)
  | Rename (oldPath newPath : jsstr).

(** The reply to an external call: it completed (a tool exited with
    status zero and printed [stdout]), or it failed. *)
Inductive Reply :=
  | Done (stdout : jsstr)
  | Failed (e : JsError).

(** How a call ends: it returns, it throws (an [async] function rejects),
    or it is still waiting for a reply when the script of replies ends. *)
Inductive Res (A : Type) :=
  | Ret (a : A)
  | Throw (e : JsError)
  | Pending.
Arguments Ret {A} a.
Arguments Throw {A} e.
Arguments Pending {A}.

(** An effectful computation: from the replies still to come, to the
    events emitted, the replies left, and the outcome. *)
Definition IO (A : Type) : Type := list Reply -> list Event * list Reply * Res A.

Definition ret {A} (a : A) : IO A := fun script => ([], script, Ret a).
Definition throw {A} (e : JsError) : IO A := fun script => ([], script, Throw e).

Definition bind {A B} (m : IO A) (f : A -> IO B) : IO B :=
  fun script =>
    match m script with
    | (ev, script', Ret a) =>
        let '(ev', script'', r) := f a script' in (ev ++ ev', script'', r)
    | (ev, script', Throw e) => (ev, script', Throw e)
    | (ev, script', Pending) => (ev, script', Pending)
    end.

(** [try { m } catch (error) { h error }] *)
Definition try_catch {A} (m : IO A) (h : JsError -> IO A) : IO A :=
  fun script =>
    match m script with
    | (ev, script', Throw e) =>
        let '(ev', script'', r) := h e script' in (ev ++ ev', script'', r)
    | other => other
    end.

Declare Scope io_scope.
Delimit Scope io_scope with io.
Notation "x <- m ;; k" := (bind m (fun x => k))
  (at level 100, m at next level, right associativity) : io_scope.
Notation "m ;; k" := (bind m (fun _ => k))
  (at level 100, right associativity) : io_scope.

Definition emit (e : Event) : IO unit := fun script => ([e], script, Ret tt).

(** An external call: emit the event, then take the next reply. *)
Definition call (e : Event) : IO jsstr :=
  fun script =>
    match script with
    | [] => ([e], [], Pending)
    | Done out :: rest => ([e], rest, Ret out)
    | Failed err :: rest => ([e], rest, Throw err)
    end.

(** [await execa(cmd, args, {cwd})], giving [stdout]. *)
Definition execa (cmd : jsstr) (args : list JsVal) (cwd : option jsstr) : IO jsstr :=
  call (Exec cmd args cwd).

(** [await delay(ms)] *)
Definition delay (ms : Z) : IO unit := emit (Delay ms).

(** [console.log(line)] *)
Definition console_log (line : jsstr) : IO unit := emit (Log line).

(** [fs.renameSync(oldPath, newPath)] *)
Definition renameSync (oldPath newPath : jsstr) : IO unit :=
  (_ <- call (Rename oldPath newPath) ;; ret tt)%io.

(** The functions of Node's [path] module that the hooks call. *)
Record PathApi := {
  extname : jsstr -> jsstr;
  basename : jsstr -> jsstr;
  dirname : jsstr -> jsstr;
  parse_dir : jsstr -> jsstr;
  parse_name : jsstr -> jsstr;
  resolve : jsstr -> jsstr -> jsstr
}.

(** ** Code shared verbatim by the two hook modules *)

(** A value read from [process.env]: a string, or [undefined]. *)
Definition env_truthy (o : option jsstr) : bool := truthy (of_opt o).

(** [isEnvTrue]  (index.js 63-70, part_000 57-64) *)
Definition isEnvTrue (value : option jsstr) : bool :=
  let value := match value with Some v => Some (trim v) | None => None end in
  is_str (of_opt value) (js "true") || is_str (of_opt value) (js "")
  || is_str (of_opt value) (js "1").

(** The six patterns [/\n *Name: (.+?)\n/] of [parseNotarizationInfo]. *)
Definition field_re (name : string) : list Re :=
  RChar LF :: RStar SPACE :: RLit name ++ RLit ": " ++ [RLazyDots; RChar LF].

(** [matchToProperty]: on a match, [out[key] = modifier(exec[1])] (each
    pattern has the group, so [exec[1]] is a string on every match). *)
Definition matchToProperty (text : jsstr) (key : string) (r : list Re)
    (modifier : jsstr -> JsVal) (out : gmap string JsVal) : gmap string JsVal :=
  match exec r text with
  | Some (Some cap) => <[key := modifier cap]> out
  | _ => out
  end.

(** [parseNotarizationInfo]  (index.js 132-153, part_000 114-135) *)
Definition parseNotarizationInfo (text : jsstr) : gmap string JsVal :=
  let out : gmap string JsVal := ∅ in
  let out := matchToProperty text "uuid" (field_re "RequestUUID") JStr out in
  let out := matchToProperty text "date" (field_re "Date") JDate out in
  let out := matchToProperty text "status" (field_re "Status") JStr out in
  let out := matchToProperty text "logFileUrl" (field_re "LogFileURL") JStr out in
  let out := matchToProperty text "statusCode" (field_re "Status Code")
                             (fun n => JNum (parseInt10 n)) out in
  let out := matchToProperty text "statusMessage" (field_re "Status Message") JStr out in
  if is_str (prop out "logFileUrl") (js "(null)") then
    <["logFileUrl" := JNull]> out
  else out.

(** The pattern [/\nRequestUUID = (.+?)\n/g] of [startNotarizingPackage]. *)
Definition uuid_re : list Re :=
  RChar LF :: RLit "RequestUUID = " ++ [RLazyDots; RChar LF].

(** The message of the error thrown when the pattern has no match. *)
Definition missing_uuid_message (stdout : jsstr) : jsstr :=
  js "Failed to find request UUID in output:" ++ [LF; LF] ++ stdout.

Definition upload_failed_message (inner : jsstr) : jsstr :=
  js "Failed to upload app to Apple's notarization servers" ++ [LF; LF] ++ inner.

(** The two errors of the status check (index.js 177-187, part_000 159-169). *)
Definition rejected_message (info : gmap string JsVal) : jsstr :=
  js "Apple failed to notarize your application, check the logs for more info"
  ++ [LF; LF]
  ++ js "Status Code: " ++ to_string (js_or (prop info "statusCode") (JStr (js "No Code")))
  ++ [LF]
  ++ js "Message: " ++ to_string (js_or (prop info "statusMessage") (JStr (js "No Message")))
  ++ [LF]
  ++ js "Logs: " ++ to_string (prop info "logFileUrl").

Definition unrecognized_message (info : gmap string JsVal) : jsstr :=
  js "Unrecognized notarization status: " ++ [DQUOTE]
  ++ to_string (prop info "status") ++ [DQUOTE].

(** The tail of [waitForNotarize]: the two [if]s after the poll. *)
Definition check_status (info : gmap string JsVal) : IO unit :=
  if is_str (prop info "status") (js "invalid") then
    throw (Error (rejected_message info))
  else if negb (is_str (prop info "status") (js "success")) then
    throw (Error (unrecognized_message info))
  else ret tt.

(** Events emitted before a computation continues. *)
Definition after {A} (ev : list Event) (r : list Event * list Reply * Res A)
  : list Event * list Reply * Res A :=
  let '(ev', script, res) := r in (ev ++ ev', script, res).

(** [stapleApp]  (index.js 190-205, part_000 172-187) *)
Definition stapleApp (path : PathApi) (pkgPath : jsstr) : IO unit :=
  try_catch
    (_ <- execa (js "xcrun")
            [JStr (js "stapler"); JStr (js "staple"); JStr (js "-v");
             JStr (basename path pkgPath)]
            (Some (dirname path pkgPath)) ;;
     ret tt)%io
    (fun error =>
       throw (Error (js "Failed to staple your application with code: "
                     ++ to_string (code error) ++ [LF; LF] ++ message error))).

(** ** The signed-package hook: [src/index.js] *)

Module Pkg.

(** What [getAuthInfo] returns. *)
Record AuthInfo := {
  appleId : option jsstr;
  appleIdPassword : option jsstr;
  appleApiKey : option jsstr;
  appleApiIssuer : option jsstr;
  teamShortName : option jsstr;
  productSignCertificateName : option jsstr
}.

(** [getAuthInfo]  (index.js 12-61) *)
Definition getAuthInfo (env : gmap string jsstr) : Res AuthInfo :=
  let appleId := env !! "APPLE_ID"%string in
  let appleIdPassword := env !! "APPLE_ID_PASSWORD"%string in
  let appleApiKey := env !! "API_KEY_ID"%string in
  let appleApiIssuer := env !! "API_KEY_ISSUER_ID"%string in
  let teamShortName := env !! "TEAM_SHORT_NAME"%string in
  let productSignCertificateName := env !! "PSC_NAME"%string in
  if negb (env_truthy productSignCertificateName) then
    Throw (Error (js "PSC_NAME is required for product signing."))
  else if negb (env_truthy appleId) && negb (env_truthy appleIdPassword)
          && negb (env_truthy appleApiKey) && negb (env_truthy appleApiIssuer) then
    Throw (Error (js "Authentication environment variables for notarization are missing. Either APPLE_ID and APPLE_ID_PASSWORD, or API_KEY_ID and API_KEY_ISSUER_ID must be defined."))
  else if (env_truthy appleId || env_truthy appleIdPassword)
          && (env_truthy appleApiKey || env_truthy appleApiIssuer) then
    Throw (Error (js "Should only provide either Apple ID or API key environment variables."))
  else if (env_truthy appleId && negb (env_truthy appleIdPassword))
          || (negb (env_truthy appleId) && env_truthy appleIdPassword) then
    Throw (Error (js "One of APPLE_ID and APPLE_ID_PASSWORD environment variables is missing for notarization."))
  else if (env_truthy appleApiKey && negb (env_truthy appleApiIssuer))
          || (negb (env_truthy appleApiKey) && env_truthy appleApiIssuer) then
    Throw (Error (js "One of API_KEY_ID and API_KEY_ISSUER_ID environment variables is missing for notarization."))
  else
    Ret {| appleId := appleId; appleIdPassword := appleIdPassword;
           appleApiKey := appleApiKey; appleApiIssuer := appleApiIssuer;
           teamShortName := teamShortName;
           productSignCertificateName := productSignCertificateName |}.

(** [signPackage]  (index.js 72-83).  Its one parameter is an object
    pattern; binding the pattern against [undefined] or [null] throws
    (the texts are those of Node's [TypeError]). *)
Definition signPackage (arg : JsVal) : IO unit :=
  match arg with
  | JUndefined =>
      throw (Error (js "Cannot destructure property 'productSignCertificateName' of 'undefined' as it is undefined."))
  | JNull =>
      throw (Error (js "Cannot destructure property 'productSignCertificateName' of 'object null' as it is null."))
  | _ =>
      let productSignCertificateName := get_prop arg "productSignCertificateName" in
      let pkgPath := get_prop arg "pkgPath" in
      let signedPath := get_prop arg "signedPath" in
      try_catch
        (_ <- execa (js "productsign")
                [JStr (js "--sign"); productSignCertificateName; pkgPath; signedPath]
                None ;;
         ret tt)%io
        (fun error =>
           throw (Error (js "Failed to sign " ++ to_string pkgPath ++ [LF; LF]
                         ++ message error)))
  end.

(** [getAuthorizingArgs]  (index.js 85-98) *)
Definition getAuthorizingArgs (notarizeOptions : AuthInfo) : list JsVal :=
  if env_truthy (appleId notarizeOptions) then
    [JStr (js "--username"); of_opt (appleId notarizeOptions);
     JStr (js "--password"); of_opt (appleIdPassword notarizeOptions)]
  else
    [JStr (js "--apiKey"); of_opt (appleApiKey notarizeOptions);
     JStr (js "--apiIssuer"); of_opt (appleApiIssuer notarizeOptions)].

(** The argument array of the upload call (index.js 106-119). *)
Definition upload_args (pkgPath : jsstr) (appId : JsVal) (notarizeOpts : AuthInfo)
  : list JsVal :=
  [JStr (js "altool"); JStr (js "--notarize-app"); JStr (js "--primary-bundle-id");
   appId; JStr (js "--file"); JStr pkgPath]
  ++ getAuthorizingArgs notarizeOpts
  ++ (if env_truthy (teamShortName notarizeOpts) then
        [JStr (js "-itc_provider"); of_opt (teamShortName notarizeOpts)]
      else []).

(** [startNotarizingPackage]  (index.js 100-130) *)
Definition startNotarizingPackage (pkgPath : jsstr) (appId : JsVal)
    (notarizeOpts : AuthInfo) : IO JsVal :=
  try_catch
    (stdout <- execa (js "xcrun") (upload_args pkgPath appId notarizeOpts) None ;;
     match exec uuid_re stdout with
     | None => throw (Error (missing_uuid_message stdout))
     | Some uuidMatch => ret (of_opt uuidMatch)
     end)%io
    (fun error => throw (Error (upload_failed_message (message error)))).

(** The status query of [waitForNotarize] (index.js 158-163). *)
Definition query (uuid : JsVal) (notarizeOpts : AuthInfo) : Event :=
  Exec (js "xcrun")
       ([JStr (js "altool"); JStr (js "--notarization-info"); uuid]
        ++ getAuthorizingArgs notarizeOpts)
       None.

(** [waitForNotarize]  (index.js 155-188).  Each call takes the reply to
    its own query from the script.  On ["in progress"] the inner call is
    awaited but its result is not returned: when the inner call
    returns, control falls through to the two status checks, still
    holding this call's own [notarizationInfo]. *)
Fixpoint waitForNotarize (uuid : JsVal) (notarizeOpts : AuthInfo)
    (script : list Reply) : list Event * list Reply * Res unit :=
  match script with
  | [] => ([query uuid notarizeOpts], [], Pending)
  | Failed _ :: rest =>
      after [query uuid notarizeOpts; Delay 30000]
            (waitForNotarize uuid notarizeOpts rest)
  | Done output :: rest =>
      let notarizationInfo := parseNotarizationInfo output in
      if is_str (prop notarizationInfo "status") (js "in progress") then
        match waitForNotarize uuid notarizeOpts rest with
        | (ev, rest', Ret _) =>
            after (query uuid notarizeOpts :: Delay 30000 :: ev)
                  (check_status notarizationInfo rest')
        | (ev, rest', Throw e) =>
            (query uuid notarizeOpts :: Delay 30000 :: ev, rest', Throw e)
        | (ev, rest', Pending) =>
            (query uuid notarizeOpts :: Delay 30000 :: ev, rest', Pending)
        end
      else
        after [query uuid notarizeOpts] (check_status notarizationInfo rest)
  end.

(** The argument of the hook. *)
Record Parameters := {
  electronPlatformName : JsVal;
  artifactPaths : list jsstr;
  appId : JsVal
}.

Section Hook.

(** Node's [path] module and the answer of [util.isPullRequest()]. *)
Variable path : PathApi.
Variable isPullRequest : bool.

(** [const {productSignCertificateName, ...notarizeOptions} = authInfo] *)
Definition rest_options (authInfo : AuthInfo) : AuthInfo :=
  {| appleId := appleId authInfo; appleIdPassword := appleIdPassword authInfo;
     appleApiKey := appleApiKey authInfo; appleApiIssuer := appleApiIssuer authInfo;
     teamShortName := teamShortName authInfo;
     productSignCertificateName := None |}.

(** The stages after the guards (index.js 249-267).  [signPackage] is
    called with three positional arguments; it has one parameter,
    which receives the first of them, the certificate name. *)
Definition sign_and_notarize (authInfo : AuthInfo) (pkgPath : jsstr)
    (appId : JsVal) : IO unit :=
  let notarizeOptions := rest_options authInfo in
  let dir := parse_dir path pkgPath in
  let name := parse_name path pkgPath in
  let signedPath := resolve path dir (name ++ js "-signed.pkg") in
  (console_log (js "Signing " ++ pkgPath ++ js "...") ;;
   signPackage (of_opt (productSignCertificateName authInfo)) ;;
   renameSync pkgPath (resolve path dir (name ++ js "-unsigned.pkg")) ;;
   renameSync signedPath pkgPath ;;
   console_log (js "Notarizing " ++ pkgPath ++ js "...") ;;
   uuid <- startNotarizingPackage pkgPath appId notarizeOptions ;;
   delay 10000 ;;
   waitForNotarize uuid notarizeOptions ;;
   stapleApp path pkgPath ;;
   console_log (js "Notarized " ++ pkgPath ++ js " successfully."))%io.

(** [module.exports]  (index.js 207-268) *)
Definition main (parameters : Parameters) (env : gmap string jsstr) : IO unit :=
  if negb (is_str (electronPlatformName parameters) (js "darwin")) then ret tt
  else
    match getAuthInfo env with
    | Throw error => console_log (js "Skipping notarization: " ++ message error)
    | Pending => ret tt
    | Ret authInfo =>
        let csc := env !! "CSC_FOR_PULL_REQUEST"%string in
        let circle := env !! "CIRCLE_BRANCH"%string in
        let travis := env !! "TRAVIS_BRANCH"%string in
        if isPullRequest && negb (isEnvTrue csc) then
          console_log (js "Skipping notarizing, since app was not signed.")
        else if negb (isEnvTrue csc)
                && ((env_truthy circle && negb (is_str (of_opt circle) (js "master")))
                    || (env_truthy travis && negb (is_str (of_opt travis) (js "master"))))
        then ret tt
        else
          match List.find (fun filePath =>
                             bool_decide (extname path filePath = js ".pkg"))
                          (artifactPaths parameters) with
          | Some pkgPath =>
              if truthy (JStr pkgPath) then
                sign_and_notarize authInfo pkgPath (appId parameters)
              else
                console_log (js "Skipping notarizing, since no pkg artifact was found")
          | None =>
              console_log (js "Skipping notarizing, since no pkg artifact was found")
          end
    end.

End Hook.

End Pkg.

(** ** The plain notarization hook: [src/unnamed/part_000] *)

Module Notarize.

Record AuthInfo := {
  appleId : option jsstr;
  appleIdPassword : option jsstr;
  appleTeamId : option jsstr;
  appleApiKey : option jsstr;
  appleApiIssuer : option jsstr;
  teamShortName : option jsstr
}.

(** [getAuthInfo]  (part_000 12-55) *)
Definition getAuthInfo (env : gmap string jsstr) : Res AuthInfo :=
  let appleId := env !! "APPLE_ID"%string in
  let appleIdPassword := env !! "APPLE_ID_PASSWORD"%string in
  let appleTeamId := env !! "APPLE_TEAM_ID"%string in
  let appleApiKey := env !! "API_KEY_ID"%string in
  let appleApiIssuer := env !! "API_KEY_ISSUER_ID"%string in
  let teamShortName := env !! "TEAM_SHORT_NAME"%string in
  if negb (env_truthy appleId) && negb (env_truthy appleIdPassword)
     && negb (env_truthy appleApiKey) && negb (env_truthy appleApiIssuer) then
    Throw (Error (js "Authentication environment variables for notarization are missing. Either APPLE_ID and APPLE_ID_PASSWORD, or API_KEY_ID and API_KEY_ISSUER_ID must be defined."))
  else if (env_truthy appleId || env_truthy appleIdPassword || env_truthy appleTeamId)
          && (env_truthy appleApiKey || env_truthy appleApiIssuer) then
    Throw (Error (js "Should only provide either Apple ID or API key environment variables."))
  else if negb (env_truthy appleId) || negb (env_truthy appleIdPassword)
          || negb (env_truthy appleTeamId) then
    Throw (Error (js "One of APPLE_ID, APPLE_ID_PASSWORD, and APPLE_TEAM_ID environment variables is missing for notarization."))
  else if (env_truthy appleApiKey && negb (env_truthy appleApiIssuer))
          || (negb (env_truthy appleApiKey) && env_truthy appleApiIssuer) then
    Throw (Error (js "One of API_KEY_ID and API_KEY_ISSUER_ID environment variables is missing for notarization."))
  else
    Ret {| appleId := appleId; appleIdPassword := appleIdPassword;
           appleTeamId := appleTeamId;
           appleApiKey := appleApiKey; appleApiIssuer := appleApiIssuer;
           teamShortName := teamShortName |}.

(** [getAuthorizingArgs]  (part_000 66-80) *)
Definition getAuthorizingArgs (notarizeOptions : AuthInfo) : list JsVal :=
  if env_truthy (appleId notarizeOptions) then
    [JStr (js "--username"); of_opt (appleId notarizeOptions);
     JStr (js "--password"); of_opt (appleIdPassword notarizeOptions);
     JStr (js "--asc-provider"); of_opt (appleTeamId notarizeOptions)]
  else
    [JStr (js "--apiKey"); of_opt (appleApiKey notarizeOptions);
     JStr (js "--apiIssuer"); of_opt (appleApiIssuer notarizeOptions)].

(** The argument array of the upload call (part_000 88-101). *)
Definition upload_args (pkgPath : jsstr) (appId : JsVal) (notarizeOpts : AuthInfo)
  : list JsVal :=
  [JStr (js "altool"); JStr (js "--notarize-app"); JStr (js "--primary-bundle-id");
   appId; JStr (js "--file"); JStr pkgPath]
  ++ getAuthorizingArgs notarizeOpts
  ++ (if env_truthy (teamShortName notarizeOpts) then
        [JStr (js "-itc_provider"); of_opt (teamShortName notarizeOpts)]
      else []).

(** [startNotarizingPackage]  (part_000 82-112) *)
Definition startNotarizingPackage (pkgPath : jsstr) (appId : JsVal)
    (notarizeOpts : AuthInfo) : IO JsVal :=
  try_catch
    (stdout <- execa (js "xcrun") (upload_args pkgPath appId notarizeOpts) None ;;
     match exec uuid_re stdout with
     | None => throw (Error (missing_uuid_message stdout))
     | Some uuidMatch => ret (of_opt uuidMatch)
     end)%io
    (fun error => throw (Error (upload_failed_message (message error)))).

(** The status query of [waitForNotarize] (part_000 140-145). *)
Definition query (uuid : JsVal) (notarizeOpts : AuthInfo) : Event :=
  Exec (js "xcrun")
       ([JStr (js "altool"); JStr (js "--notarization-info"); uuid]
        ++ getAuthorizingArgs notarizeOpts)
       None.

(** [waitForNotarize]  (part_000 137-170).  On ["in progress"] the result
    of the inner call is returned. *)
Fixpoint waitForNotarize (uuid : JsVal) (notarizeOpts : AuthInfo)
    (script : list Reply) : list Event * list Reply * Res unit :=
  match script with
  | [] => ([query uuid notarizeOpts], [], Pending)
  | Failed _ :: rest =>
      after [query uuid notarizeOpts; Delay 30000]
            (waitForNotarize uuid notarizeOpts rest)
  | Done output :: rest =>
      let notarizationInfo := parseNotarizationInfo output in
      if is_str (prop notarizationInfo "status") (js "in progress") then
        after [query uuid notarizeOpts; Delay 30000]
              (waitForNotarize uuid notarizeOpts rest)
      else
        after [query uuid notarizeOpts] (check_status notarizationInfo rest)
  end.

(** The argument of the hook. *)
Record Parameters := {
  artifactPaths : list jsstr;
  appId : JsVal
}.

Section Hook.

(** Node's [path] module and the answer of [util.isPullRequest()]. *)
Variable path : PathApi.
Variable isPullRequest : bool.

(** The stages after the guards (part_000 226-235). *)
Definition notarize (authInfo : AuthInfo) (pkgPath : jsstr) (appId : JsVal) : IO unit :=
  (console_log (js "Notarizing " ++ pkgPath ++ js "...") ;;
   uuid <- startNotarizingPackage pkgPath appId authInfo ;;
   delay 10000 ;;
   waitForNotarize uuid authInfo ;;
   stapleApp path pkgPath ;;
   console_log (js "Notarized " ++ pkgPath ++ js " successfully."))%io.

(** [module.exports]  (part_000 189-236) *)
Definition main (parameters : Parameters) (env : gmap string jsstr) : IO unit :=
  match getAuthInfo env with
  | Throw error => console_log (js "Skipping notarization: " ++ message error)
  | Pending => ret tt
  | Ret authInfo =>
      let csc := env !! "CSC_FOR_PULL_REQUEST"%string in
      let circle := env !! "CIRCLE_BRANCH"%string in
      let travis := env !! "TRAVIS_BRANCH"%string in
      if isPullRequest && negb (isEnvTrue csc) then
        console_log (js "Skipping notarizing, since app was not signed.")
      else if negb (isEnvTrue csc)
              && ((env_truthy circle && negb (is_str (of_opt circle) (js "master")))
                  || (env_truthy travis && negb (is_str (of_opt travis) (js "master"))))
      then ret tt
      else
        match List.find (fun filePath =>
                           bool_decide (extname path filePath = js ".pkg"))
                        (artifactPaths parameters) with
        | Some pkgPath =>
            if truthy (JStr pkgPath) then
              notarize authInfo pkgPath (appId parameters)
            else
              console_log (js "Skipping notarizing, since no pkg artifact was found")
        | None =>
            console_log (js "Skipping notarizing, since no pkg artifact was found")
        end
  end.

End Hook.

End Notarize.

(** ** Texts as lines

    The vocabulary in which the properties of the parsers are stated: a
    text is the list of its lines, the lines being separated by LF. *)

(** [text.split('\n')] *)
Fixpoint split_lines (s : jsstr) : list jsstr :=
  match s with
  | [] => [[]]
  | c :: s' =>
      if c =? LF then [] :: split_lines s'
      else
        match split_lines s' with
        | l :: ls => (c :: l) :: ls
        | [] => [[c]]
        end
  end.

(** [lines.join('\n')] *)
Fixpoint join_lines (ls : list jsstr) : jsstr :=
  match ls with
  | [] => []
  | l :: ls' =>
      match ls' with
      | [] => l
      | _ :: _ => l ++ LF :: join_lines ls'
      end
  end.

Definition no_LF (l : jsstr) : Prop := Forall (fun c => c <> LF) l.

(** The lines that have a line before them and a line after them. *)
Definition interior (ls : list jsstr) : list jsstr := removelast (tl ls).

Fixpoint strip_prefix (p s : jsstr) : option jsstr :=
  match p with
  | [] => Some s
  | c :: p' =>
      match s with
      | x :: s' => if x =? c then strip_prefix p' s' else None
      | [] => None
      end
  end.

Fixpoint drop_spaces (s : jsstr) : jsstr :=
  match s with
  | x :: s' => if x =? SPACE then drop_spaces s' else s
  | [] => []
  end.

(** The value a line carries after the marker [lits] (and after leading
    blanks when [indent] is set): it must be non-empty and free of line
    terminators. *)
Definition line_capture (indent : bool) (lits : jsstr) (line : jsstr) : option jsstr :=
  match strip_prefix lits (if indent then drop_spaces line else line) with
  | Some [] => None
  | Some v => if forallb (fun c => negb (is_line_terminator c)) v then Some v else None
  | None => None
  end.

(** The first line of a list that carries a value. *)
Fixpoint first_capture (f : jsstr -> option jsstr) (ls : list jsstr) : option jsstr :=
  match ls with
  | [] => None
  | l :: ls' =>
      match f l with
      | Some v => Some v
      | None => first_capture f ls'
      end
  end.

(** The patterns of the two parsers have one shape:
    [\n], optional [ *], a literal marker, [(.+?)], [\n]. *)
Definition line_re (indent : bool) (lits : jsstr) : list Re :=
  RChar LF :: (if indent then [RStar SPACE] else [])
  ++ map RChar lits ++ [RLazyDots; RChar LF].

(** The six fields of a status report, and a report line. *)
Inductive Field :=
  | FRequestUUID | FDate | FStatus | FLogFileURL | FStatusCode | FStatusMessage.

Definition field_name (f : Field) : string :=
  match f with
  | FRequestUUID => "RequestUUID"
  | FDate => "Date"
  | FStatus => "Status"
  | FLogFileURL => "LogFileURL"
  | FStatusCode => "Status Code"
  | FStatusMessage => "Status Message"
  end.

Definition field_eqb (f g : Field) : bool :=
  match f, g with
  | FRequestUUID, FRequestUUID | FDate, FDate | FStatus, FStatus
  | FLogFileURL, FLogFileURL | FStatusCode, FStatusCode
  | FStatusMessage, FStatusMessage => true
  | _, _ => false
  end.

(** What introduces the value on the line of field [f]. *)
Definition marker (f : Field) : jsstr := js (field_name f) ++ js ": ".

(** A value a field line can carry: not empty, no line terminator. *)
Definition good_value (v : jsstr) : Prop :=
  v <> [] /\ Forall (fun c => is_line_terminator c = false) v.

(** A line that no field pattern reads. *)
Definition plain_line (l : jsstr) : Prop :=
  forall f, line_capture true (marker f) l = None.

(** A line of a status report: the line of a field, indented by some
    blanks, or any other line. *)
Inductive ReportLine :=
  | FieldLine (indent : nat) (f : Field) (v : jsstr)
  | Other (l : jsstr).

Definition render_line (l : ReportLine) : jsstr :=
  match l with
  | FieldLine indent f v => repeat SPACE indent ++ marker f ++ v
  | Other l => l
  end.

Definition good_line (l : ReportLine) : Prop :=
  match l with
  | FieldLine _ _ v => good_value v
  | Other l => no_LF l /\ plain_line l
  end.

(** The value of the first line for field [f]. *)
Fixpoint lookup_field (f : Field) (ls : list ReportLine) : option jsstr :=
  match ls with
  | [] => None
  | FieldLine _ g v :: ls' => if field_eqb f g then Some v else lookup_field f ls'
  | Other _ :: ls' => lookup_field f ls'
  end.

(** A status report: a first line, the lines that the parser can read,
    a last line (the empty last line stands for a text that ends with
    LF). *)
Definition report (first : jsstr) (ls : list ReportLine) (last : jsstr) : jsstr :=
  join_lines (first :: map render_line ls ++ [last]).

Definition well_formed_report (first : jsstr) (ls : list ReportLine)
    (last : jsstr) : Prop :=
  no_LF first /\ Forall good_line ls /\ no_LF last.

(** How each field is stored, by key. *)
Definition field_key (f : Field) : string :=
  match f with
  | FRequestUUID => "uuid"
  | FDate => "date"
  | FStatus => "status"
  | FLogFileURL => "logFileUrl"
  | FStatusCode => "statusCode"
  | FStatusMessage => "statusMessage"
  end.

Definition stored (f : Field) (v : jsstr) : JsVal :=
  match f with
  | FDate => JDate v
  | FStatusCode => JNum (parseInt10 v)
  | FLogFileURL => if bool_decide (v = js "(null)") then JNull else JStr v
  | _ => JStr v
  end.

(** A marker the patterns may use: no LF in it, and not starting with a
    blank when blanks are skipped before it. *)
Definition marker_ok (indent : bool) (lits : jsstr) : Prop :=
  no_LF lits /\
  (indent = true -> exists c lits', lits = c :: lits' /\ c <> SPACE).

(** Group 1 of a match, if there is a match. *)
Definition capture_of (m : option (option jsstr)) : option jsstr :=
  match m with
  | Some (Some cap) => Some cap
  | _ => None
  end.

(** What may follow a numeral: nothing, or something that is not a digit. *)
Definition no_digit_ahead (rest : jsstr) : Prop :=
  match rest with
  | [] => True
  | c :: _ => is_digit c = false
  end.

(** ** Vocabulary of the poller's properties *)

(** The events of [n] rounds that end in a wait: query, 30 s, query, ... *)
Fixpoint retries (q : Event) (n : nat) : list Event :=
  match n with
  | O => []
  | S n' => q :: Delay 30000 :: retries q n'
  end.

(** The text of the rejection error, laid out around the three values
    it reports. *)
Definition rejected_text (code msg logs : jsstr) : jsstr :=
  js "Apple failed to notarize your application, check the logs for more info"
  ++ [LF; LF] ++ js "Status Code: " ++ code
  ++ [LF] ++ js "Message: " ++ msg
  ++ [LF] ++ js "Logs: " ++ logs.

(** How the three values of a report appear in that text.  [v] is what
    the line of the field carries, [None] when the report has no such
    line. *)
Definition code_text (v : option jsstr) : jsstr :=
  match v with
  | Some v =>
      if truthy (JNum (parseInt10 v)) then to_string (JNum (parseInt10 v))
      else js "No Code"
  | None => js "No Code"
  end.

Definition message_text (v : option jsstr) : jsstr :=
  match v with
  | Some m => m
  | None => js "No Message"
  end.

Definition logs_text (v : option jsstr) : jsstr :=
  match v with
  | Some u => if bool_decide (u = js "(null)") then js "null" else u
  | None => js "undefined"
  end.

Definition unrecognized_text (st : jsstr) : jsstr :=
  js "Unrecognized notarization status: " ++ [DQUOTE] ++ st ++ [DQUOTE].

(** What introduces the request identifier in the upload tool's output. *)
Definition uuid_marker : jsstr := js "RequestUUID = ".

(** A text has no line that starts with the marker. *)
Definition no_uuid_line (text : jsstr) : Prop :=
  forall l v, In l (split_lines text) -> l <> uuid_marker ++ v.

(** None of these lines starts with the marker. *)
Definition no_uuid_among (ls : list jsstr) : Prop :=
  forall l v, In l ls -> l <> uuid_marker ++ v.


(** ** Vocabulary of the credential properties *)

(** The flag pair a team short name adds to the upload. *)
Definition team_flags (teamShortName : option jsstr) : list JsVal :=
  if env_truthy teamShortName then [JStr (js "-itc_provider"); of_opt teamShortName]
  else [].

(** The arguments of the upload that do not depend on the credentials. *)
Definition upload_prefix (pkgPath : jsstr) (appId : JsVal) : list JsVal :=
  [JStr (js "altool"); JStr (js "--notarize-app"); JStr (js "--primary-bundle-id");
   appId; JStr (js "--file"); JStr pkgPath].

(** An environment with the two service-account variables and nothing else. *)
Definition key_env : gmap string jsstr :=
  {[ "API_KEY_ID"%string := js "KEY123"; "API_KEY_ISSUER_ID"%string := js "ISSUER-1" ]}.

(** The same, for the signed-package hook, with the certificate name. *)
Definition key_env_signed : gmap string jsstr :=
  <[ "PSC_NAME"%string := js "Developer ID Installer: NAME (1234ABCDEFG)" ]> key_env.

Definition pkg_id_options_no_team : Pkg.AuthInfo :=
  {| Pkg.appleId := Some (js "dev@example.com"); Pkg.appleIdPassword := Some (js "pw");
     Pkg.appleApiKey := None; Pkg.appleApiIssuer := None;
     Pkg.teamShortName := None; Pkg.productSignCertificateName := None |}.

(** ** Vocabulary of the orchestrator's properties *)

(** The two build-context guards of [module.exports] (index.js 222-237):
    whether the run stops there. *)
Definition skipped_as_pull_request (isPullRequest : bool) (env : gmap string jsstr)
  : bool :=
  isPullRequest && negb (isEnvTrue (env !! "CSC_FOR_PULL_REQUEST"%string)).

Definition skipped_as_side_branch (env : gmap string jsstr) : bool :=
  negb (isEnvTrue (env !! "CSC_FOR_PULL_REQUEST"%string))
  && ((env_truthy (env !! "CIRCLE_BRANCH"%string)
       && negb (is_str (of_opt (env !! "CIRCLE_BRANCH"%string)) (js "master")))
      || (env_truthy (env !! "TRAVIS_BRANCH"%string)
          && negb (is_str (of_opt (env !! "TRAVIS_BRANCH"%string)) (js "master")))).

(** The guards of [module.exports] in [index.js] all let the run through:
    the platform is macOS, the credentials are valid, the build is not
    skipped as a pull request or as a side branch, and [pkgPath] is the
    first [.pkg] artifact. *)
Definition reaches_signing (path : PathApi) (isPullRequest : bool)
    (parameters : Pkg.Parameters) (env : gmap string jsstr)
    (authInfo : Pkg.AuthInfo) (pkgPath : jsstr) : Prop :=
  Pkg.electronPlatformName parameters = JStr (js "darwin")
  /\ Pkg.getAuthInfo env = Ret authInfo
  /\ skipped_as_pull_request isPullRequest env = false
  /\ skipped_as_side_branch env = false
  /\ List.find (fun filePath => bool_decide (extname path filePath = js ".pkg"))
               (Pkg.artifactPaths parameters) = Some pkgPath
  /\ pkgPath <> [].

(** The call of the signing tool that the run makes. *)
Definition signing_call : Event :=
  Exec (js "productsign") [JStr (js "--sign"); JUndefined; JUndefined; JUndefined] None.

(** The call it would make if the tool were given the certificate name,
    the artifact and the destination. *)
Definition intended_signing_call (cert pkgPath signedPath : jsstr) : Event :=
  Exec (js "productsign") [JStr (js "--sign"); JStr cert; JStr pkgPath; JStr signedPath]
       None.

(** Node's [path] functions on absolute POSIX paths made of plain
    segments, [/dir/.../name.ext], for running the model. *)
Fixpoint split_last (c : N) (s : jsstr) : option (jsstr * jsstr) :=
  match s with
  | [] => None
  | x :: s' =>
      match split_last c s' with
      | Some (a, b) => Some (x :: a, b)
      | None => if x =? c then Some ([], s') else None
      end
  end.

Definition posix_basename (p : jsstr) : jsstr :=
  match split_last 47 p with
  | Some (_, b) => b
  | None => p
  end.

Definition posix_dirname (p : jsstr) : jsstr :=
  match split_last 47 p with
  | Some ([], _) => js "/"
  | Some (a, _) => a
  | None => js "."
  end.

Definition posix_extname (p : jsstr) : jsstr :=
  match split_last 46 (posix_basename p) with
  | Some ([], _) => []
  | Some (_, e) => 46 :: e
  | None => []
  end.

Definition posix_parse_dir (p : jsstr) : jsstr :=
  match split_last 47 p with
  | Some ([], _) => js "/"
  | Some (a, _) => a
  | None => []
  end.

Definition posix_parse_name (p : jsstr) : jsstr :=
  match split_last 46 (posix_basename p) with
  | Some ([], _) => posix_basename p
  | Some (n, _) => n
  | None => posix_basename p
  end.

Definition posix_resolve (dir file : jsstr) : jsstr :=
  if bool_decide (dir = js "/") then dir ++ file else dir ++ js "/" ++ file.

Definition posix : PathApi :=
  {| extname := posix_extname; basename := posix_basename; dirname := posix_dirname;
     parse_dir := posix_parse_dir; parse_name := posix_parse_name;
     resolve := posix_resolve |}.

(** A build with one installer among its artifacts. *)
Definition sample_parameters : Pkg.Parameters :=
  {| Pkg.electronPlatformName := JStr (js "darwin");
     Pkg.artifactPaths := [js "/dist/App.dmg"; js "/dist/App.pkg"];
     Pkg.appId := JStr (js "com.example.app") |}.

Definition sample_auth : Pkg.AuthInfo :=
  {| Pkg.appleId := None; Pkg.appleIdPassword := None;
     Pkg.appleApiKey := Some (js "KEY123");
     Pkg.appleApiIssuer := Some (js "ISSUER-1");
     Pkg.teamShortName := None;
     Pkg.productSignCertificateName :=
       Some (js "Developer ID Installer: NAME (1234ABCDEFG)") |}.

(** ** Vocabulary of the further properties *)

(** A reply after which the poller polls again: the query failed, or
    the report says ["in progress"]. *)
Definition says_in_progress (r : Reply) : bool :=
  match r with
  | Done t => is_str (prop (parseNotarizationInfo t) "status") (js "in progress")
  | Failed _ => false
  end.

Definition keeps_polling (r : Reply) : bool :=
  match r with
  | Done _ => says_in_progress r
  | Failed _ => true
  end.

(** A report that says ["success"]. *)
Definition says_success (t : jsstr) : bool :=
  is_str (prop (parseNotarizationInfo t) "status") (js "success").

(** Events that reach outside the process in a way that matters: a tool
    is run, a file is renamed. *)
Definition is_external (e : Event) : bool :=
  match e with
  | Exec _ _ _ | Rename _ _ => true
  | Delay _ | Log _ => false
  end.

(** The call of the stapling tool. *)
Definition staple_call (path : PathApi) (pkgPath : jsstr) : Event :=
  Exec (js "xcrun")
       [JStr (js "stapler"); JStr (js "staple"); JStr (js "-v");
        JStr (basename path pkgPath)]
       (Some (dirname path pkgPath)).

Definition staple_failed_message (e : JsError) : jsstr :=
  js "Failed to staple your application with code: " ++ to_string (code e)
  ++ [LF; LF] ++ message e.

(** The guards of [module.exports] in [part_000] all let the run
    through. *)
Definition reaches_notarizing (path : PathApi) (isPullRequest : bool)
    (parameters : Notarize.Parameters) (env : gmap string jsstr)
    (authInfo : Notarize.AuthInfo) (pkgPath : jsstr) : Prop :=
  Notarize.getAuthInfo env = Ret authInfo
  /\ skipped_as_pull_request isPullRequest env = false
  /\ skipped_as_side_branch env = false
  /\ List.find (fun filePath => bool_decide (extname path filePath = js ".pkg"))
               (Notarize.artifactPaths parameters) = Some pkgPath
  /\ pkgPath <> [].

(** The output of the upload tool with the identifier line among its
    interior lines: [before] has no line starting with the marker. *)
Definition upload_output (first : jsstr) (before : list jsstr) (u : jsstr)
    (after : list jsstr) (last : jsstr) : jsstr :=
  join_lines (first :: before ++ (uuid_marker ++ u) :: after ++ [last]).

(** The credentials as they stand in the environment. *)
Definition Pkg_credentials (env : gmap string jsstr) : Pkg.AuthInfo :=
  {| Pkg.appleId := env !! "APPLE_ID"%string;
     Pkg.appleIdPassword := env !! "APPLE_ID_PASSWORD"%string;
     Pkg.appleApiKey := env !! "API_KEY_ID"%string;
     Pkg.appleApiIssuer := env !! "API_KEY_ISSUER_ID"%string;
     Pkg.teamShortName := env !! "TEAM_SHORT_NAME"%string;
     Pkg.productSignCertificateName := env !! "PSC_NAME"%string |}.

Definition Notarize_credentials (env : gmap string jsstr) : Notarize.AuthInfo :=
  {| Notarize.appleId := env !! "APPLE_ID"%string;
     Notarize.appleIdPassword := env !! "APPLE_ID_PASSWORD"%string;
     Notarize.appleTeamId := env !! "APPLE_TEAM_ID"%string;
     Notarize.appleApiKey := env !! "API_KEY_ID"%string;
     Notarize.appleApiIssuer := env !! "API_KEY_ISSUER_ID"%string;
     Notarize.teamShortName := env !! "TEAM_SHORT_NAME"%string |}.

(** The two complete sets of credentials that [index.js] accepts. *)
Definition Pkg_complete (c : Pkg.AuthInfo) : bool :=
  env_truthy (Pkg.productSignCertificateName c)
  && ((env_truthy (Pkg.appleId c) && env_truthy (Pkg.appleIdPassword c)
       && negb (env_truthy (Pkg.appleApiKey c))
       && negb (env_truthy (Pkg.appleApiIssuer c)))
      || (negb (env_truthy (Pkg.appleId c)) && negb (env_truthy (Pkg.appleIdPassword c))
          && env_truthy (Pkg.appleApiKey c) && env_truthy (Pkg.appleApiIssuer c))).

(** The one set that [part_000] accepts. *)
Definition Notarize_complete (c : Notarize.AuthInfo) : bool :=
  env_truthy (Notarize.appleId c) && env_truthy (Notarize.appleIdPassword c)
  && env_truthy (Notarize.appleTeamId c)
  && negb (env_truthy (Notarize.appleApiKey c))
  && negb (env_truthy (Notarize.appleApiIssuer c)).

(** The fourth error of [getAuthInfo]. *)
Definition key_pair_error : JsError :=
  Error (js "One of API_KEY_ID and API_KEY_ISSUER_ID environment variables is missing for notarization.").

(** What a call of the poller of [index.js] makes of the outcome of the
    calls it awaited, given whether one of the replies before said
    ["in progress"]. *)
Definition fallen_through (seen_in_progress : bool) (res : Res unit) : Res unit :=
  match res with
  | Ret _ =>
      if seen_in_progress then Throw (Error (unrecognized_text (js "in progress")))
      else Ret tt
  | other => other
  end.

(** The two paths that [module.exports] of [index.js] derives from the
    artifact's path. *)
Definition unsigned_path (path : PathApi) (pkgPath : jsstr) : jsstr :=
  resolve path (parse_dir path pkgPath) (parse_name path pkgPath ++ js "-unsigned.pkg").

Definition signed_path (path : PathApi) (pkgPath : jsstr) : jsstr :=
  resolve path (parse_dir path pkgPath) (parse_name path pkgPath ++ js "-signed.pkg").

(** The upload calls of the two hooks. *)
Definition Pkg_upload_call (pkgPath : jsstr) (appId : JsVal) (opts : Pkg.AuthInfo)
  : Event :=
  Exec (js "xcrun") (Pkg.upload_args pkgPath appId opts) None.

Definition Notarize_upload_call (pkgPath : jsstr) (appId : JsVal)
    (opts : Notarize.AuthInfo) : Event :=
  Exec (js "xcrun") (Notarize.upload_args pkgPath appId opts) None.

(** The events of a run of [index.js] up to the upload, when nothing
    fails before it. *)
Definition Pkg_events_to_upload (path : PathApi) (pkgPath : jsstr) (appId : JsVal)
    (opts : Pkg.AuthInfo) : list Event :=
  [Log (js "Signing " ++ pkgPath ++ js "...");
   signing_call;
   Rename pkgPath (unsigned_path path pkgPath);
   Rename (signed_path path pkgPath) pkgPath;
   Log (js "Notarizing " ++ pkgPath ++ js "...");
   Pkg_upload_call pkgPath appId opts].

(** The same for [part_000]. *)
Definition Notarize_events_to_upload (pkgPath : jsstr) (appId : JsVal)
    (opts : Notarize.AuthInfo) : list Event :=
  [Log (js "Notarizing " ++ pkgPath ++ js "...");
   Notarize_upload_call pkgPath appId opts].

(** The events of the last stage of both hooks. *)
Definition events_of_stapling (path : PathApi) (pkgPath : jsstr) : list Event :=
  [staple_call path pkgPath; Log (js "Notarized " ++ pkgPath ++ js " successfully.")].

(** At most one line on the console, and nothing else. *)
Definition at_most_a_log (ev : list Event) : Prop :=
  ev = [] \/ exists line, ev = [Log line].

(** ** Sample data, for running the model *)

Definition sample_header : jsstr := js "No errors getting notarization info.".

(** The status tool's report of a finished request. *)
Definition sample_lines (st code msg url : string) : list ReportLine :=
  [ Other [];
    FieldLine 10 FDate (js "2019-07-08 20:11:24 +0000");
    Other (js "          Hash: 80fd2e6a2a7b2c9a");
    FieldLine 4 FLogFileURL (js url);
    FieldLine 3 FRequestUUID (js "2de4c6e4-8f6a-4b5c-9f5e-0123456789ab");
    FieldLine 8 FStatus (js st);
    FieldLine 3 FStatusCode (js code);
    FieldLine 0 FStatusMessage (js msg) ].

Definition sample_report (st code msg url : string) : jsstr :=
  report sample_header (sample_lines st code msg url) [].

(** Its report of a request still being processed. *)
Definition pending_lines : list ReportLine :=
  [ Other [];
    FieldLine 3 FRequestUUID (js "2de4c6e4-8f6a-4b5c-9f5e-0123456789ab");
    FieldLine 10 FDate (js "2019-07-08 20:11:24 +0000");
    FieldLine 8 FStatus (js "in progress");
    FieldLine 4 FLogFileURL (js "(null)") ].

Definition pending_report : jsstr := report sample_header pending_lines [].

Definition approved_report : jsstr :=
  sample_report "success" "0" "Package Approved" "https://osxapps.itunes.apple.com/log.json".

Definition sample_uuid : JsVal := JStr (js "2de4c6e4-8f6a-4b5c-9f5e-0123456789ab").

(** Service-account and interactive-account credentials. *)
Definition pkg_key_options : Pkg.AuthInfo :=
  {| Pkg.appleId := None; Pkg.appleIdPassword := None;
     Pkg.appleApiKey := Some (js "KEY123"); Pkg.appleApiIssuer := Some (js "ISSUER-1");
     Pkg.teamShortName := None; Pkg.productSignCertificateName := None |}.

Definition pkg_id_options : Pkg.AuthInfo :=
  {| Pkg.appleId := Some (js "dev@example.com"); Pkg.appleIdPassword := Some (js "pw");
     Pkg.appleApiKey := None; Pkg.appleApiIssuer := None;
     Pkg.teamShortName := Some (js "TeamX"); Pkg.productSignCertificateName := None |}.

Definition notarize_key_options : Notarize.AuthInfo :=
  {| Notarize.appleId := None; Notarize.appleIdPassword := None;
     Notarize.appleTeamId := None;
     Notarize.appleApiKey := Some (js "KEY123");
     Notarize.appleApiIssuer := Some (js "ISSUER-1");
     Notarize.teamShortName := None |}.

Definition notarize_id_options : Notarize.AuthInfo :=
  {| Notarize.appleId := Some (js "dev@example.com");
     Notarize.appleIdPassword := Some (js "pw");
     Notarize.appleTeamId := Some (js "TEAM42");
     Notarize.appleApiKey := None; Notarize.appleApiIssuer := None;
     Notarize.teamShortName := Some (js "TeamX") |}.

(** Output of the upload tool around the identifier line. *)
Definition upload_notes : list jsstr :=
  [js "No errors uploading '/dist/App.pkg'."; js "Upload took 12 seconds."].

Definition sample_pkg : jsstr := js "/dist/App.pkg".
Definition sample_app : JsVal := JStr (js "com.example.app").

(** A build for the plain notarization hook, and an environment with
    the interactive-account variables. *)
Definition sample_notarize_parameters : Notarize.Parameters :=
  {| Notarize.artifactPaths := [js "/dist/App.dmg"; js "/dist/App.pkg"];
     Notarize.appId := JStr (js "com.example.app") |}.

Definition id_env : gmap string jsstr :=
  {[ "APPLE_ID"%string := js "dev@example.com";
     "APPLE_ID_PASSWORD"%string := js "pw";
     "APPLE_TEAM_ID"%string := js "TEAM42";
     "TEAM_SHORT_NAME"%string := js "TeamX" ]}.

(** A rejection. *)
Definition rejected_report : jsstr :=
  sample_report "invalid" "2" "Package Invalid" "https://osxapps.itunes.apple.com/log.json".

(** A rejection whose status code is zero. *)
Definition rejected_code_zero : jsstr :=
  sample_report "invalid" "0" "Package Invalid" "https://osxapps.itunes.apple.com/log.json".

(** Reports whose status code is not a numeral. *)
Definition report_code_abc : jsstr :=
  sample_report "invalid" "abc" "Package Invalid" "(null)".

Definition report_code_2abc : jsstr :=
  sample_report "invalid" "2abc" "Package Invalid" "(null)".

(** * Properties *)

(** ** The patterns, line by line *)

Section LinePatterns.

Lemma field_re_line (name : string) :
  field_re name = line_re true (js name ++ js ": ").
Proof.
  unfold field_re, line_re, RLit. cbn [app].
  rewrite map_app, <- app_assoc. reflexivity.
Qed.

Lemma uuid_re_line : uuid_re = line_re false (js "RequestUUID = ").
Proof. reflexivity. Qed.

(** The group followed by [\n], on a line that ends. *)
Lemma dots_closed (v : jsstr) : forall acc rest,
  no_LF v ->
  dots (fun s' cap' => re_match [RChar LF] s' cap') acc (v ++ LF :: rest)
  = match v with
    | [] => None
    | _ :: _ =>
        if forallb (fun c => negb (is_line_terminator c)) v
        then Some (Some (acc ++ v)) else None
    end.
Proof.
  induction v as [|x v IH]; intros acc rest Hv.
  - reflexivity.
  - inversion Hv as [|? ? Hx Hv']; subst.
    cbn [app dots forallb].
    destruct (is_line_terminator x) eqn:Hlt; [reflexivity|].
    cbn [negb andb].
    destruct v as [|y v'].
    + reflexivity.
    + assert (Hy : (y =? LF) = false).
      { inversion Hv'; subst. by apply N.eqb_neq. }
      cbn [app re_match]. rewrite Hy.
      change (y :: v' ++ LF :: rest) with ((y :: v') ++ LF :: rest).
      rewrite IH by assumption.
      rewrite <- app_assoc. reflexivity.
Qed.

(** The group followed by [\n], on text without any LF. *)
Lemma dots_open (v : jsstr) : forall acc,
  no_LF v ->
  dots (fun s' cap' => re_match [RChar LF] s' cap') acc v = None.
Proof.
  induction v as [|x v IH]; intros acc Hv; [reflexivity|].
  inversion Hv as [|? ? Hx Hv']; subst. cbn [dots].
  destruct (is_line_terminator x); [reflexivity|].
  destruct v as [|y v'].
  - reflexivity.
  - assert (Hy : (y =? LF) = false).
    { inversion Hv'; subst. by apply N.eqb_neq. }
    cbn [re_match]. rewrite Hy. apply IH. assumption.
Qed.

(** A literal run. *)
Lemma re_match_lits (lits : jsstr) (r : list Re) : forall s cap,
  re_match (map RChar lits ++ r) s cap
  = match strip_prefix lits s with
    | Some s' => re_match r s' cap
    | None => None
    end.
Proof.
  induction lits as [|c lits IH]; intros s cap; [reflexivity|].
  cbn [map app re_match strip_prefix].
  destruct s as [|x s]; [reflexivity|].
  destruct (x =? c); [apply IH | reflexivity].
Qed.

(** Giving blanks back to [ *] never helps when the next thing to match
    is a character other than a blank. *)
Lemma star_spaces (c : N) (r : list Re) (cap : option jsstr) : forall s,
  c <> SPACE ->
  star SPACE (fun s' => re_match (RChar c :: r) s' cap) s
  = re_match (RChar c :: r) (drop_spaces s) cap.
Proof.
  intros s Hc. induction s as [|x s IH]; [reflexivity|].
  cbn [star drop_spaces].
  destruct (x =? SPACE) eqn:Hx; [|reflexivity].
  rewrite IH.
  destruct (re_match (RChar c :: r) (drop_spaces s) cap) eqn:Hm; [reflexivity|].
  apply N.eqb_eq in Hx. subst x.
  cbn [re_match].
  replace (SPACE =? c) with false; [reflexivity|].
  symmetry. apply N.eqb_neq. congruence.
Qed.

Lemma strip_prefix_app (lits : jsstr) : forall s t,
  no_LF lits ->
  strip_prefix lits (s ++ LF :: t)
  = match strip_prefix lits s with
    | Some s' => Some (s' ++ LF :: t)
    | None => None
    end.
Proof.
  induction lits as [|c lits IH]; intros s t Hl; [reflexivity|].
  inversion Hl as [|? ? Hc Hl']; subst.
  destruct s as [|x s]; cbn [app strip_prefix].
  - replace (LF =? c) with false; [reflexivity|].
    symmetry. apply N.eqb_neq. congruence.
  - destruct (x =? c); [apply IH; assumption | reflexivity].
Qed.

Lemma strip_prefix_no_LF (lits : jsstr) : forall s s',
  no_LF s -> strip_prefix lits s = Some s' -> no_LF s'.
Proof.
  induction lits as [|c lits IH]; intros s s' Hs H.
  - cbn in H. congruence.
  - destruct s as [|x s]; cbn in H; [discriminate|].
    destruct (x =? c); [|discriminate].
    inversion Hs; subst. eapply IH; eassumption.
Qed.

Lemma strip_prefix_some (p : jsstr) : forall s t,
  strip_prefix p s = Some t -> s = p ++ t.
Proof.
  induction p as [|c p IH]; intros s t H.
  - change (Some s = Some t) in H. by injection H as ->.
  - destruct s as [|x s]; cbn in H; [discriminate|].
    destruct (x =? c) eqn:Hx; [|discriminate].
    apply N.eqb_eq in Hx. subst x. cbn. f_equal. by apply IH.
Qed.

Lemma drop_spaces_app (s t : jsstr) :
  drop_spaces (s ++ LF :: t) = drop_spaces s ++ LF :: t.
Proof.
  induction s as [|x s IH]; [reflexivity|].
  cbn [app drop_spaces]. destruct (x =? SPACE); [apply IH | reflexivity].
Qed.

Lemma drop_spaces_no_LF (s : jsstr) : no_LF s -> no_LF (drop_spaces s).
Proof.
  induction s as [|x s IH]; intros H; [constructor|].
  cbn. destruct (x =? SPACE); [|assumption].
  inversion H; subst. apply IH. assumption.
Qed.

(** At an LF followed by a closed line, the pattern reads the line. *)
Lemma re_match_closed_line (indent : bool) (lits line rest : jsstr) :
  marker_ok indent lits -> no_LF line ->
  re_match (line_re indent lits) (LF :: line ++ LF :: rest) None
  = Some <$> line_capture indent lits line.
Proof.
  intros [Hl Hi] Hline. unfold line_capture.
  assert (Hgo : forall body, no_LF body ->
    re_match (map RChar lits ++ [RLazyDots; RChar LF]) (body ++ LF :: rest) None
    = Some <$> match strip_prefix lits body with
               | Some [] => None
               | Some v =>
                   if forallb (fun c => negb (is_line_terminator c)) v
                   then Some v else None
               | None => None
               end).
  { intros body Hb. rewrite re_match_lits, strip_prefix_app by assumption.
    destruct (strip_prefix lits body) as [v|] eqn:Hs; [|reflexivity].
    cbn [re_match]. rewrite dots_closed by (eapply strip_prefix_no_LF; eassumption).
    destruct v; [reflexivity|].
    destruct (forallb _ _); reflexivity. }
  destruct indent.
  - destruct (Hi eq_refl) as (c & lits' & -> & Hc).
    transitivity (re_match (RChar c :: map RChar lits' ++ [RLazyDots; RChar LF])
                           (drop_spaces (line ++ LF :: rest)) None).
    { exact (star_spaces c _ None (line ++ LF :: rest) Hc). }
    rewrite drop_spaces_app.
    apply (Hgo (drop_spaces line)). by apply drop_spaces_no_LF.
  - exact (Hgo line Hline).
Qed.

(** At an LF followed by a line that is not closed, it fails. *)
Lemma re_match_open_line (indent : bool) (lits line : jsstr) :
  marker_ok indent lits -> no_LF line ->
  re_match (line_re indent lits) (LF :: line) None = None.
Proof.
  intros [Hl Hi] Hline.
  assert (Hgo : forall body, no_LF body ->
    re_match (map RChar lits ++ [RLazyDots; RChar LF]) body None = None).
  { intros body Hb. rewrite re_match_lits.
    destruct (strip_prefix lits body) as [v|] eqn:Hs; [|reflexivity].
    cbn [re_match]. apply dots_open. eapply strip_prefix_no_LF; eassumption. }
  destruct indent.
  - destruct (Hi eq_refl) as (c & lits' & -> & Hc).
    transitivity (re_match (RChar c :: map RChar lits' ++ [RLazyDots; RChar LF])
                           (drop_spaces line) None).
    { exact (star_spaces c _ None line Hc). }
    apply (Hgo (drop_spaces line)). by apply drop_spaces_no_LF.
  - exact (Hgo line Hline).
Qed.

(** Nothing matches inside a line. *)
Lemma exec_skip_line (r : list Re) (line : jsstr) : forall rest,
  no_LF line ->
  exec (RChar LF :: r) (line ++ rest) = exec (RChar LF :: r) rest.
Proof.
  induction line as [|x line IH]; intros rest Hline; [reflexivity|].
  inversion Hline as [|? ? Hx Hl]; subst.
  cbn [app]. cbn [exec re_match].
  replace (x =? LF) with false by (symmetry; by apply N.eqb_neq).
  apply IH. assumption.
Qed.

Lemma exec_no_LF (r : list Re) (line : jsstr) :
  no_LF line -> exec (RChar LF :: r) line = None.
Proof.
  intros H. rewrite <- (app_nil_r line), exec_skip_line by assumption.
  reflexivity.
Qed.

(** The leftmost match of a line pattern is the first interior line
    that carries a value. *)
Lemma exec_after_LF (indent : bool) (lits : jsstr) (ls : list jsstr) :
  marker_ok indent lits -> Forall no_LF ls -> ls <> [] ->
  exec (line_re indent lits) (LF :: join_lines ls)
  = Some <$> first_capture (line_capture indent lits) (removelast ls).
Proof.
  intros Hm Hls. induction Hls as [|l ls Hl Hls IH]; intros Hne; [congruence|].
  destruct ls as [|l' ls].
  - cbn [join_lines removelast first_capture].
    cbn [exec]. rewrite re_match_open_line by assumption.
    unfold line_re at 1. cbn [app]. apply exec_no_LF. assumption.
  - change (join_lines (l :: l' :: ls)) with (l ++ LF :: join_lines (l' :: ls)).
    change (removelast (l :: l' :: ls)) with (l :: removelast (l' :: ls)).
    cbn [exec first_capture].
    rewrite re_match_closed_line by assumption.
    destruct (line_capture indent lits l) as [v|]; [reflexivity|].
    cbn [fmap option_fmap option_map].
    unfold line_re at 1. cbn [app]. rewrite exec_skip_line by assumption.
    apply IH. discriminate.
Qed.

Theorem exec_lines (indent : bool) (lits : jsstr) (ls : list jsstr) :
  marker_ok indent lits -> Forall no_LF ls ->
  exec (line_re indent lits) (join_lines ls)
  = Some <$> first_capture (line_capture indent lits) (interior ls).
Proof.
  intros Hm Hls. destruct ls as [|l0 ls]; [reflexivity|].
  inversion Hls as [|? ? Hl0 Hls']; subst.
  destruct ls as [|l1 ls].
  - cbn [join_lines interior tl removelast first_capture].
    unfold line_re. cbn [app]. apply exec_no_LF. assumption.
  - change (join_lines (l0 :: l1 :: ls)) with (l0 ++ LF :: join_lines (l1 :: ls)).
    unfold line_re at 1. cbn [app]. rewrite exec_skip_line by assumption.
    apply (exec_after_LF indent lits (l1 :: ls)); [assumption..|discriminate].
Qed.

End LinePatterns.

(** ** Texts and their lines *)

Section Lines.

Lemma split_lines_nonempty (s : jsstr) : split_lines s <> [].
Proof.
  destruct s as [|c s]; cbn; [discriminate|].
  destruct (c =? LF); [discriminate|].
  destruct (split_lines s); discriminate.
Qed.

Lemma join_split (s : jsstr) : join_lines (split_lines s) = s.
Proof.
  induction s as [|c s IH]; [reflexivity|].
  cbn [split_lines]. destruct (c =? LF) eqn:Hc.
  - apply N.eqb_eq in Hc. subst c.
    pose proof (split_lines_nonempty s) as Hne.
    destruct (split_lines s) as [|l ls]; [congruence|].
    cbn [join_lines app] in *. rewrite IH. reflexivity.
  - pose proof (split_lines_nonempty s) as Hne.
    destruct (split_lines s) as [|l ls]; [congruence|].
    destruct ls as [|l' ls]; cbn [join_lines app] in *; rewrite <- IH; reflexivity.
Qed.

Lemma split_lines_no_LF (s : jsstr) : Forall no_LF (split_lines s).
Proof.
  induction s as [|c s IH]; cbn [split_lines].
  - repeat constructor.
  - destruct (c =? LF) eqn:Hc.
    + constructor; [constructor | assumption].
    + destruct (split_lines s) as [|l ls]; [repeat constructor; by apply N.eqb_neq|].
      inversion IH; subst. constructor; [|assumption].
      constructor; [by apply N.eqb_neq | assumption].
Qed.

(** [exec] with a line pattern, on any text. *)
Lemma exec_text (indent : bool) (lits text : jsstr) :
  marker_ok indent lits ->
  exec (line_re indent lits) text
  = Some <$> first_capture (line_capture indent lits) (interior (split_lines text)).
Proof.
  intros Hm. rewrite <- (join_split text) at 1.
  apply exec_lines; [assumption | apply split_lines_no_LF].
Qed.

Lemma first_capture_app f (l1 l2 : list jsstr) :
  first_capture f (l1 ++ l2)
  = match first_capture f l1 with
    | Some v => Some v
    | None => first_capture f l2
    end.
Proof.
  induction l1 as [|l l1 IH]; [reflexivity|].
  cbn [app first_capture]. destruct (f l); [reflexivity | apply IH].
Qed.

Lemma first_capture_none f (ls : list jsstr) :
  Forall (fun l => f l = None) ls -> first_capture f ls = None.
Proof.
  induction 1 as [|l ls Hl _ IH]; [reflexivity|].
  cbn. rewrite Hl. exact IH.
Qed.

Lemma first_capture_in f (ls : list jsstr) v :
  first_capture f ls = Some v -> exists l, In l ls /\ f l = Some v.
Proof.
  induction ls as [|l ls IH]; [discriminate|].
  cbn. destruct (f l) eqn:Hl.
  - intros [= ->]. exists l. auto.
  - intros H. destruct (IH H) as (l' & ? & ?). exists l'. auto.
Qed.

Lemma interior_report first (ls : list ReportLine) last :
  interior (first :: map render_line ls ++ [last]) = map render_line ls.
Proof. unfold interior. cbn [tl]. apply removelast_last. Qed.

End Lines.

(** ** The response parser on status reports *)

Section Parser.

Lemma lookup_matchToProperty_eq text key r modifier out :
  matchToProperty text key r modifier out !! key
  = match capture_of (exec r text) with
    | Some cap => Some (modifier cap)
    | None => out !! key
    end.
Proof.
  unfold matchToProperty, capture_of.
  destruct (exec r text) as [[cap|]|]; try reflexivity.
  apply lookup_insert_eq.
Qed.

Lemma lookup_matchToProperty_ne text key r modifier out k :
  key <> k -> matchToProperty text key r modifier out !! k = out !! k.
Proof.
  intros Hk. unfold matchToProperty.
  destruct (exec r text) as [[cap|]|]; try reflexivity.
  by apply lookup_insert_ne.
Qed.

Ltac lookups :=
  repeat first
    [ rewrite lookup_matchToProperty_eq
    | rewrite lookup_matchToProperty_ne by discriminate
    | rewrite lookup_empty ].

(** Each property of the result is decided by its own pattern alone. *)
Lemma parse_lookup (text : jsstr) (f : Field) :
  parseNotarizationInfo text !! field_key f
  = stored f <$> capture_of (exec (field_re (field_name f)) text).
Proof.
  unfold parseNotarizationInfo.
  match goal with
  | |- (if is_str (prop ?o _) _ then _ else _) !! _ = _ => set (out := o)
  end.
  assert (Hurl : prop out "logFileUrl"
                 = default JUndefined
                     (JStr <$> capture_of (exec (field_re "LogFileURL") text))).
  { unfold prop, out. lookups.
    destruct (capture_of (exec (field_re "LogFileURL") text)); reflexivity. }
  rewrite Hurl.
  destruct f; cbn [field_key field_name stored].
  4: {
    destruct (capture_of (exec (field_re "LogFileURL") text)) as [c|] eqn:Hc.
    - change (is_str (default JUndefined (JStr <$> Some c)) (js "(null)"))
        with (bool_decide (c = js "(null)")).
      change (stored FLogFileURL <$> Some c)
        with (Some (if bool_decide (c = js "(null)") then JNull else JStr c)).
      destruct (bool_decide (c = js "(null)")).
      + apply lookup_insert_eq.
      + unfold out. lookups. rewrite Hc. reflexivity.
    - change (is_str (default JUndefined (JStr <$> None)) (js "(null)")) with false.
      cbv iota. unfold out. lookups. rewrite Hc. reflexivity. }
  all: destruct (is_str _ _);
    [rewrite lookup_insert_ne by discriminate|];
    unfold out; lookups;
    match goal with
    | |- context [capture_of ?e] => destruct (capture_of e); reflexivity
    end.
Qed.

Lemma marker_ok_field (f : Field) : marker_ok true (marker f).
Proof.
  split.
  - destruct f; unfold no_LF; repeat constructor; discriminate.
  - intros _. destruct f; eexists _, _; (split; [reflexivity | discriminate]).
Qed.

Lemma field_re_marker (f : Field) :
  field_re (field_name f) = line_re true (marker f).
Proof. apply field_re_line. Qed.

Lemma good_value_no_LF (v : jsstr) : good_value v -> no_LF v.
Proof.
  intros [_ H]. unfold no_LF. eapply Forall_impl; [exact H|].
  intros c Hc ->. discriminate.
Qed.

Lemma render_line_no_LF (l : ReportLine) :
  good_line l -> no_LF (render_line l).
Proof.
  destruct l as [n f v|l]; cbn [good_line render_line]; [|by intros [? _]].
  intros Hv. unfold marker, no_LF.
  repeat apply Forall_app_2.
  - apply Forall_forall. intros c Hc.
    apply list_elem_of_In, repeat_spec in Hc. subst c. discriminate.
  - destruct f; repeat constructor; discriminate.
  - repeat constructor; discriminate.
  - by apply good_value_no_LF.
Qed.

Lemma drop_spaces_repeat (n : nat) (s : jsstr) :
  drop_spaces (repeat SPACE n ++ s) = drop_spaces s.
Proof. induction n as [|n IH]; [reflexivity | exact IH]. Qed.

Lemma good_value_capture (v : jsstr) :
  good_value v ->
  match v with
  | [] => None
  | _ :: _ => if forallb (fun c => negb (is_line_terminator c)) v then Some v else None
  end = Some v.
Proof.
  intros [Hne Hall]. destruct v as [|c v]; [congruence|].
  replace (forallb _ (c :: v)) with true; [reflexivity|].
  symmetry. apply forallb_forall. intros x Hx.
  rewrite Forall_forall in Hall. rewrite (Hall x); [reflexivity|].
  by apply list_elem_of_In.
Qed.

(** The line of one field is read by the pattern of that field only. *)
Lemma line_capture_render (f : Field) (l : ReportLine) :
  good_line l ->
  line_capture true (marker f) (render_line l)
  = match l with
    | FieldLine _ g v => if field_eqb f g then Some v else None
    | Other _ => None
    end.
Proof.
  destruct l as [n g v|l]; cbn [good_line render_line]; [|by intros [_ H]].
  intros Hv. unfold line_capture.
  rewrite drop_spaces_repeat.
  pose proof (good_value_capture _ Hv) as Hcap.
  destruct f, g; cbn; try reflexivity; exact Hcap.
Qed.

Lemma first_capture_fields (f : Field) (ls : list ReportLine) :
  Forall good_line ls ->
  first_capture (line_capture true (marker f)) (map render_line ls)
  = lookup_field f ls.
Proof.
  induction 1 as [|l ls Hl _ IH]; [reflexivity|].
  cbn [map first_capture lookup_field].
  rewrite line_capture_render by assumption.
  destruct l as [n g v|l]; [|exact IH].
  destruct (field_eqb f g); [reflexivity | exact IH].
Qed.

Lemma report_lines_no_LF first ls last :
  well_formed_report first ls last ->
  Forall no_LF (first :: map render_line ls ++ [last]).
Proof.
  intros (H1 & H2 & H3).
  constructor; [assumption|].
  apply Forall_app_2; [|by repeat constructor].
  apply Forall_forall. intros x Hx.
  apply list_elem_of_In, in_map_iff in Hx. destruct Hx as (l & <- & Hl).
  apply render_line_no_LF.
  rewrite Forall_forall in H2. apply H2. by apply list_elem_of_In.
Qed.

(** On a report, the pattern of a field finds the first line of it. *)
Lemma exec_report (f : Field) first ls last :
  well_formed_report first ls last ->
  exec (field_re (field_name f)) (report first ls last)
  = Some <$> lookup_field f ls.
Proof.
  intros Hwf. unfold report.
  rewrite field_re_marker, exec_lines;
    [| apply marker_ok_field | by apply report_lines_no_LF].
  rewrite interior_report.
  destruct Hwf as (_ & Hgood & _).
  by rewrite first_capture_fields.
Qed.

(** What the parser stores for each field of a report. *)
Lemma parse_report (f : Field) first ls last :
  well_formed_report first ls last ->
  parseNotarizationInfo (report first ls last) !! field_key f
  = stored f <$> lookup_field f ls.
Proof.
  intros Hwf. rewrite parse_lookup, exec_report by assumption.
  destruct (lookup_field f ls); reflexivity.
Qed.

End Parser.

(** ** Every text with two lines or more is a report *)

Section Totality.

Lemma drop_spaces_split (l : jsstr) : exists n, l = repeat SPACE n ++ drop_spaces l.
Proof.
  induction l as [|x l [n IH]]; [by exists O|].
  cbn [drop_spaces]. destruct (x =? SPACE) eqn:Hx.
  - apply N.eqb_eq in Hx. subst x. exists (S n). cbn. by rewrite <- IH.
  - by exists O.
Qed.

Lemma line_capture_field (f : Field) (l v : jsstr) :
  line_capture true (marker f) l = Some v ->
  exists n, l = render_line (FieldLine n f v) /\ good_value v.
Proof.
  unfold line_capture. intros H.
  destruct (strip_prefix (marker f) (drop_spaces l)) as [w|] eqn:Hs; [|discriminate].
  apply strip_prefix_some in Hs.
  destruct w as [|c w]; [discriminate|].
  destruct (forallb _ (c :: w)) eqn:Hall; [|discriminate].
  injection H as <-.
  destruct (drop_spaces_split l) as [n Hn]. exists n. split.
  - cbn [render_line]. rewrite <- Hs. exact Hn.
  - split; [discriminate|]. apply Forall_forall. intros x Hx.
    rewrite forallb_forall in Hall. apply list_elem_of_In, Hall in Hx.
    by destruct (is_line_terminator x).
Qed.

Lemma classify_line (l : jsstr) :
  no_LF l -> exists rl, good_line rl /\ render_line rl = l.
Proof.
  intros Hl.
  destruct (line_capture true (marker FRequestUUID) l) as [v|] eqn:H1;
    [apply line_capture_field in H1 as (n & -> & Hv); eexists (FieldLine _ _ _); eauto|].
  destruct (line_capture true (marker FDate) l) as [v|] eqn:H2;
    [apply line_capture_field in H2 as (n & -> & Hv); eexists (FieldLine _ _ _); eauto|].
  destruct (line_capture true (marker FStatus) l) as [v|] eqn:H3;
    [apply line_capture_field in H3 as (n & -> & Hv); eexists (FieldLine _ _ _); eauto|].
  destruct (line_capture true (marker FLogFileURL) l) as [v|] eqn:H4;
    [apply line_capture_field in H4 as (n & -> & Hv); eexists (FieldLine _ _ _); eauto|].
  destruct (line_capture true (marker FStatusCode) l) as [v|] eqn:H5;
    [apply line_capture_field in H5 as (n & -> & Hv); eexists (FieldLine _ _ _); eauto|].
  destruct (line_capture true (marker FStatusMessage) l) as [v|] eqn:H6;
    [apply line_capture_field in H6 as (n & -> & Hv); eexists (FieldLine _ _ _); eauto|].
  exists (Other l). split; [|reflexivity].
  split; [assumption|]. intros f. destruct f; assumption.
Qed.

Lemma classify_lines (ls : list jsstr) :
  Forall no_LF ls -> exists rls, Forall good_line rls /\ map render_line rls = ls.
Proof.
  induction 1 as [|l ls Hl _ (rls & Hg & Hm)]; [by exists []|].
  destruct (classify_line l Hl) as (rl & Hrl & Hr).
  exists (rl :: rls). split; [by constructor|]. cbn. by rewrite Hr, Hm.
Qed.

Lemma split_lines_two (text : jsstr) :
  In LF text -> exists l0 l1 rest, split_lines text = l0 :: l1 :: rest.
Proof.
  induction text as [|c text IH]; [contradiction|].
  intros Hin. cbn [split_lines].
  destruct (c =? LF) eqn:Hc.
  - pose proof (split_lines_nonempty text).
    destruct (split_lines text) as [|l ls]; [congruence|]. eauto.
  - destruct Hin as [->|Hin]; [by rewrite N.eqb_refl in Hc|].
    destruct (IH Hin) as (l0 & l1 & rest & ->). eauto.
Qed.

(** A text in which an LF occurs has a first line, a last line, and
    between them lines that are field lines or plain lines. *)
Lemma every_text_is_a_report (text : jsstr) :
  In LF text ->
  exists first ls last,
    well_formed_report first ls last /\ text = report first ls last.
Proof.
  intros Hin.
  destruct (split_lines_two text Hin) as (l0 & l1 & rest & Hs).
  pose proof (split_lines_no_LF text) as Hno. rewrite Hs in Hno.
  inversion Hno as [|? ? H0 Hrest]; subst.
  destruct (exists_last (l := l1 :: rest)) as (mid & last & Hmid); [discriminate|].
  rewrite Hmid in Hrest. apply Forall_app in Hrest as [Hmid_ok Hlast].
  inversion Hlast as [|? ? Hl _]; subst.
  destruct (classify_lines mid Hmid_ok) as (rls & Hg & Hm).
  exists l0, rls, last. split; [by repeat split|].
  unfold report. rewrite Hm, <- Hmid, <- Hs. symmetry. apply join_split.
Qed.

(** A text without any LF has no field at all. *)
Lemma parse_single_line (text : jsstr) (f : Field) :
  no_LF text -> parseNotarizationInfo text !! field_key f = None.
Proof.
  intros H. rewrite parse_lookup, field_re_marker.
  unfold line_re. cbn [app]. by rewrite exec_no_LF.
Qed.

End Totality.

(** ** [parseInt] on numerals *)

Section ParseInt.

Local Abbreviation step := (fun (acc : Z) (c : N) => (10 * acc + (Z.of_N c - 48))%Z).

Lemma digits_acc (d : Decimal.uint) : forall acc : positive,
  fold_left step (js (NilEmpty.string_of_uint d)) (Zpos acc)
  = Zpos (Pos.of_uint_acc d acc).
Proof.
  induction d; intros acc; cbn [NilEmpty.string_of_uint js fold_left Pos.of_uint_acc];
    [reflexivity|..];
    (etransitivity; [|apply IHd]); f_equal; cbn; lia.
Qed.

Lemma digits_uint (d : Decimal.uint) :
  fold_left step (js (NilEmpty.string_of_uint d)) 0%Z = Z.of_N (Pos.of_uint d).
Proof.
  induction d; cbn [NilEmpty.string_of_uint js fold_left Pos.of_uint];
    [reflexivity | exact IHd |..];
    (etransitivity; [|apply digits_acc]); f_equal.
Qed.

Lemma string_of_to_uint (n : N) :
  NilZero.string_of_uint (N.to_uint n) = NilEmpty.string_of_uint (N.to_uint n).
Proof.
  destruct n as [|p]; [reflexivity|]. cbn [N.to_uint].
  pose proof (DecimalPos.Unsigned.to_uint_nonnil p) as Hp.
  destruct (Pos.to_uint p); [congruence|reflexivity..].
Qed.

(** Reading back the numeral of [n] gives [n]. *)
Lemma digits_value_decimal (n : N) : digits_value (decimal_of_N n) = Z.of_N n.
Proof.
  unfold digits_value, decimal_of_N.
  rewrite string_of_to_uint, digits_uint.
  change (Pos.of_uint (N.to_uint n)) with (N.of_uint (N.to_uint n)).
  by rewrite DecimalN.Unsigned.of_to.
Qed.

Lemma uint_digits (d : Decimal.uint) :
  Forall (fun c => is_digit c = true) (js (NilEmpty.string_of_uint d)).
Proof. induction d; cbn [NilEmpty.string_of_uint js]; constructor; auto. Qed.

Lemma decimal_digits (n : N) :
  decimal_of_N n <> [] /\ Forall (fun c => is_digit c = true) (decimal_of_N n).
Proof.
  unfold decimal_of_N. rewrite string_of_to_uint. split; [|apply uint_digits].
  destruct n as [|p]; [discriminate|]. cbn [N.to_uint].
  pose proof (DecimalPos.Unsigned.to_uint_nonnil p) as Hp.
  destruct (Pos.to_uint p); [congruence|discriminate..].
Qed.

Lemma take_digits_app (ds rest : jsstr) :
  Forall (fun c => is_digit c = true) ds -> no_digit_ahead rest ->
  take_digits (ds ++ rest) = ds.
Proof.
  intros Hds Hrest. induction Hds as [|c ds Hc _ IH].
  - destruct rest as [|c rest]; [reflexivity|]. cbn in *. by rewrite Hrest.
  - cbn. rewrite Hc, IH. reflexivity.
Qed.

Lemma digit_plain (c : N) :
  is_digit c = true -> is_trimmable c = false /\ (c =? 45) = false /\ (c =? 43) = false.
Proof.
  unfold is_digit, is_trimmable, is_white_space, is_line_terminator.
  intros H. apply andb_true_iff in H as [H1 H2].
  apply N.leb_le in H1, H2.
  repeat split;
    repeat match goal with
           | |- context [ ?a =? ?b ] =>
               replace (a =? b) with false by (symmetry; apply N.eqb_neq; lia)
           | |- context [ 8192 <=? c ] =>
               replace (8192 <=? c) with false by (symmetry; apply N.leb_gt; lia)
           end; reflexivity.
Qed.

(** A run of digits, then no digit: the run is read, the rest is ignored. *)
Lemma parseInt10_digits (ds rest : jsstr) :
  ds <> [] -> Forall (fun c => is_digit c = true) ds -> no_digit_ahead rest ->
  parseInt10 (ds ++ rest) = double_of_Z (digits_value ds)
  /\ parseInt10 (45 :: ds ++ rest) = double_of_Z (- digits_value ds).
Proof.
  intros Hne Hds Hrest.
  destruct ds as [|c ds]; [congruence|].
  pose proof Hds as Hds'. inversion Hds' as [|? ? Hc _]; subst.
  destruct (digit_plain c Hc) as (Ht & Hm & Hp).
  split.
  - unfold parseInt10. cbn [app trim_start]. rewrite Ht, Hm, Hp.
    change (c :: ds ++ rest) with ((c :: ds) ++ rest).
    rewrite take_digits_app by assumption.
    cbv iota. f_equal; lia.
  - unfold parseInt10. cbn [trim_start].
    change (is_trimmable 45) with false. cbv iota.
    change (45 =? 45) with true. cbv iota.
    rewrite take_digits_app by assumption.
    cbv iota. f_equal; lia.
Qed.

(** Up to [2^53] every integer is a double, and prints as its numeral. *)
Lemma round_to_double_safe (m : Z) :
  (0 < m <= 2 ^ 53)%Z -> round_to_double m = Int m.
Proof.
  intros Hm. unfold round_to_double.
  destruct (Z.log2 m + 1 - 53 <=? 0)%Z eqn:He; [reflexivity|].
  apply Z.leb_gt in He.
  assert (m = 2 ^ 53)%Z as ->; [|reflexivity].
  destruct (Z.lt_ge_cases m (2 ^ 53)) as [Hlt|Hge]; [|lia].
  apply Z.log2_lt_pow2 in Hlt; lia.
Qed.

Lemma double_of_Z_safe (z : Z) :
  (Z.abs z <= 2 ^ 53)%Z -> double_of_Z z = Int z.
Proof.
  intros Hz. destruct z as [|p|p]; [reflexivity| |].
  - apply round_to_double_safe. lia.
  - cbn [double_of_Z]. rewrite round_to_double_safe by lia. reflexivity.
Qed.

Lemma to_string_safe (z : Z) :
  (Z.abs z <= 2 ^ 53)%Z -> to_string (JNum (Int z)) = decimal_of_Z z.
Proof.
  intros Hz. destruct z as [|p|p]; [reflexivity| |];
    cbn [to_string number_to_string]; unfold positive_to_string;
    replace (Z.pos p <=? 2 ^ 53)%Z with true by (symmetry; apply Z.leb_le; lia);
    reflexivity.
Qed.

(** The numeral of an integer is read back as the double nearest to
    that integer, whatever follows it. *)
Lemma parseInt10_decimal (z : Z) (rest : jsstr) :
  no_digit_ahead rest -> parseInt10 (decimal_of_Z z ++ rest) = double_of_Z z.
Proof.
  intros Hrest. destruct z as [|p|p]; unfold decimal_of_Z.
  - destruct (parseInt10_digits (js "0") rest) as [H _];
      [discriminate | repeat constructor | assumption |].
    exact H.
  - destruct (decimal_digits (Npos p)) as [Hne Hds].
    destruct (parseInt10_digits _ rest Hne Hds Hrest) as [H _].
    rewrite H, digits_value_decimal. reflexivity.
  - destruct (decimal_digits (Npos p)) as [Hne Hds].
    destruct (parseInt10_digits _ rest Hne Hds Hrest) as [_ H].
    change ((js "-" ++ decimal_of_N (N.pos p)) ++ rest)
      with (45 :: decimal_of_N (N.pos p) ++ rest).
    rewrite H, digits_value_decimal. reflexivity.
Qed.

(** No digit where the number should start: [NaN]. *)
Lemma parseInt10_NaN (c : N) (v : jsstr) :
  is_trimmable c = false -> is_digit c = false -> c <> 45 -> c <> 43 ->
  parseInt10 (c :: v) = NaN.
Proof.
  intros Ht Hd Hm Hp. unfold parseInt10. cbn [trim_start]. rewrite Ht.
  replace (c =? 45) with false by (symmetry; by apply N.eqb_neq).
  replace (c =? 43) with false by (symmetry; by apply N.eqb_neq).
  cbn [take_digits]. rewrite Hd. reflexivity.
Qed.

End ParseInt.

(** ** The status poller *)

Section Poller.

Lemma after_after {A} (e1 e2 : list Event) (r : list Event * list Reply * Res A) :
  after e1 (after e2 r) = after (e1 ++ e2) r.
Proof. destruct r as [[ev s] res]. cbn. by rewrite app_assoc. Qed.

Lemma after_nil {A} (r : list Event * list Reply * Res A) : after [] r = r.
Proof. by destruct r as [[ev s] res]. Qed.

(** Both pollers answer a failed query by waiting and calling themselves. *)
Lemma Pkg_wait_failures uuid opts (errs : list JsError) (rest : list Reply) :
  Pkg.waitForNotarize uuid opts (map Failed errs ++ rest)
  = after (retries (Pkg.query uuid opts) (length errs))
          (Pkg.waitForNotarize uuid opts rest).
Proof.
  induction errs as [|e errs IH]; [by rewrite after_nil|].
  cbn [map app Pkg.waitForNotarize length retries].
  rewrite IH, after_after. reflexivity.
Qed.




End Poller.


Section InProgress.

Lemma check_status_success (info : gmap string JsVal) (script : list Reply) :
  prop info "status" = JStr (js "success") ->
  check_status info script = ([], script, Ret tt).
Proof. intros H. unfold check_status. rewrite H. reflexivity. Qed.

Lemma check_status_in_progress (info : gmap string JsVal) (script : list Reply) :
  prop info "status" = JStr (js "in progress") ->
  check_status info script
  = ([], script, Throw (Error (unrecognized_text (js "in progress")))).
Proof.
  intros H. unfold check_status, unrecognized_message. rewrite H. reflexivity.
Qed.

(** In [index.js] a call that has seen ["in progress"] cannot return:
    either the inner call fails, or this call then fails its own check. *)
Lemma Pkg_wait_in_progress_never_returns uuid opts t (rest : list Reply) :
  prop (parseNotarizationInfo t) "status" = JStr (js "in progress") ->
  (Pkg.waitForNotarize uuid opts (Done t :: rest)).2 <> Ret tt.
Proof.
  intros H. cbn [Pkg.waitForNotarize]. rewrite H.
  change (is_str (JStr (js "in progress")) (js "in progress")) with true. cbv iota.
  destruct (Pkg.waitForNotarize uuid opts rest) as [[ev s] [[]|e|]]; try discriminate.
  rewrite check_status_in_progress by assumption. discriminate.
Qed.

(** In [part_000] the same script is polled to its end. *)
Lemma Notarize_wait_in_progress_then_success uuid opts t1 t2 t3 (rest : list Reply) :
  prop (parseNotarizationInfo t1) "status" = JStr (js "in progress") ->
  prop (parseNotarizationInfo t2) "status" = JStr (js "in progress") ->
  prop (parseNotarizationInfo t3) "status" = JStr (js "success") ->
  Notarize.waitForNotarize uuid opts (Done t1 :: Done t2 :: Done t3 :: rest)
  = ([Notarize.query uuid opts; Delay 30000;
      Notarize.query uuid opts; Delay 30000;
      Notarize.query uuid opts], rest, Ret tt).
Proof.
  intros H1 H2 H3. cbn [Notarize.waitForNotarize]. rewrite H1, H2, H3.
  change (is_str (JStr (js "in progress")) (js "in progress")) with true.
  change (is_str (JStr (js "success")) (js "in progress")) with false.
  cbv iota. rewrite check_status_success by assumption. reflexivity.
Qed.

End InProgress.

(** C1.  On a script of three answered queries whose statuses are
    ["in progress"], ["in progress"], ["success"], the poller of
    [index.js] sends three queries and waits 30000 ms between them, but
    the outer call does not return: when the innermost call has
    returned, the call that awaited it falls through to its own status
    checks and throws [Unrecognized notarization status: "in progress"].
    The poller of [part_000], which returns the inner call, sends the
    same events and returns. *)
Theorem Pkg_waitForNotarize_in_progress_falls_through :
  forall uuid pkg_opts notarize_opts t1 t2 t3 (rest : list Reply),
    prop (parseNotarizationInfo t1) "status" = JStr (js "in progress") ->
    prop (parseNotarizationInfo t2) "status" = JStr (js "in progress") ->
    prop (parseNotarizationInfo t3) "status" = JStr (js "success") ->
    Pkg.waitForNotarize uuid pkg_opts (Done t1 :: Done t2 :: Done t3 :: rest)
    = ([Pkg.query uuid pkg_opts; Delay 30000;
        Pkg.query uuid pkg_opts; Delay 30000;
        Pkg.query uuid pkg_opts],
       rest,
       Throw (Error (unrecognized_text (js "in progress"))))
    /\
    Notarize.waitForNotarize uuid notarize_opts (Done t1 :: Done t2 :: Done t3 :: rest)
    = ([Notarize.query uuid notarize_opts; Delay 30000;
        Notarize.query uuid notarize_opts; Delay 30000;
        Notarize.query uuid notarize_opts], rest, Ret tt).
Proof.
  intros uuid po no t1 t2 t3 rest H1 H2 H3. split.
  - cbn [Pkg.waitForNotarize]. rewrite H1, H2, H3.
    change (is_str (JStr (js "in progress")) (js "in progress")) with true.
    change (is_str (JStr (js "success")) (js "in progress")) with false.
    cbv iota. rewrite check_status_success by assumption.
    cbn [after app]. rewrite check_status_in_progress by assumption.
    reflexivity.
  - by apply Notarize_wait_in_progress_then_success.
Qed.

Lemma Pkg_waitForNotarize_in_progress_falls_through_witness :
  (prop (parseNotarizationInfo pending_report) "status" = JStr (js "in progress")
   /\ prop (parseNotarizationInfo approved_report) "status" = JStr (js "success"))
  /\ Pkg.waitForNotarize sample_uuid pkg_key_options
       [Done pending_report; Done pending_report; Done approved_report]
     = ([Pkg.query sample_uuid pkg_key_options; Delay 30000;
         Pkg.query sample_uuid pkg_key_options; Delay 30000;
         Pkg.query sample_uuid pkg_key_options],
        [],
        Throw (Error (unrecognized_text (js "in progress")))).
Proof.
  split; [split; vm_compute; reflexivity|].
  apply (Pkg_waitForNotarize_in_progress_falls_through
           sample_uuid pkg_key_options notarize_key_options
           pending_report pending_report approved_report []);
    vm_compute; reflexivity.
Defined.

(** ** What the parser and the poller make of a report

    The properties below are stated on reports.  That is no restriction:
    by [every_text_is_a_report] every text in which an LF occurs is one,
    and by [parse_single_line] a text without LF has no field. *)

Section Reports.

Lemma prop_report (f : Field) first ls last :
  well_formed_report first ls last ->
  prop (parseNotarizationInfo (report first ls last)) (field_key f)
  = default JUndefined (stored f <$> lookup_field f ls).
Proof. intros Hwf. unfold prop. by rewrite parse_report. Qed.

Lemma lookup_field_good (f : Field) (ls : list ReportLine) (v : jsstr) :
  Forall good_line ls -> lookup_field f ls = Some v -> good_value v.
Proof.
  induction 1 as [|l ls Hl _ IH]; [discriminate|].
  destruct l as [n g w|l]; cbn [lookup_field]; [|exact IH].
  destruct (field_eqb f g); [|exact IH].
  intros [= <-]. exact Hl.
Qed.

(** The text of the rejection error, from the lines of the report. *)
Lemma rejected_message_report first ls last :
  well_formed_report first ls last ->
  rejected_message (parseNotarizationInfo (report first ls last))
  = rejected_text (code_text (lookup_field FStatusCode ls))
                  (message_text (lookup_field FStatusMessage ls))
                  (logs_text (lookup_field FLogFileURL ls)).
Proof.
  intros Hwf. unfold rejected_message, rejected_text.
  rewrite (prop_report FStatusCode), (prop_report FStatusMessage),
    (prop_report FLogFileURL) by assumption.
  destruct Hwf as (_ & Hgood & _).
  repeat f_equal.
  - destruct (lookup_field FStatusCode ls) as [v|]; [|reflexivity].
    cbn [fmap option_fmap option_map default stored code_text from_option id].
    unfold js_or. destruct (truthy (JNum (parseInt10 v))); reflexivity.
  - destruct (lookup_field FStatusMessage ls) as [m|] eqn:Hm; [|reflexivity].
    apply lookup_field_good in Hm; [|assumption].
    destruct Hm as [Hne _]. destruct m; [congruence | reflexivity].
  - destruct (lookup_field FLogFileURL ls) as [u|]; [|reflexivity].
    cbn [fmap option_fmap option_map default stored logs_text from_option id].
    destruct (bool_decide (u = js "(null)")); reflexivity.
Qed.

Lemma status_report first ls last :
  well_formed_report first ls last ->
  prop (parseNotarizationInfo (report first ls last)) "status"
  = of_opt (lookup_field FStatus ls).
Proof.
  intros Hwf. rewrite (prop_report FStatus) by assumption.
  destruct (lookup_field FStatus ls); reflexivity.
Qed.

Lemma is_str_false (s lit : jsstr) : s <> lit -> is_str (JStr s) lit = false.
Proof. intros H. cbn. by apply bool_decide_eq_false. Qed.

(** The status check, from the status line of the report. *)
Lemma check_status_report first ls last (st : jsstr) (script : list Reply) :
  well_formed_report first ls last ->
  lookup_field FStatus ls = Some st ->
  st <> js "in progress" ->
  check_status (parseNotarizationInfo (report first ls last)) script
  = ([], script,
     if bool_decide (st = js "invalid") then
       Throw (Error (rejected_text (code_text (lookup_field FStatusCode ls))
                                   (message_text (lookup_field FStatusMessage ls))
                                   (logs_text (lookup_field FLogFileURL ls))))
     else if bool_decide (st = js "success") then Ret tt
     else Throw (Error (unrecognized_text st))).
Proof.
  intros Hwf Hst Hne. unfold check_status, unrecognized_message.
  rewrite status_report, Hst by assumption. cbn [of_opt is_str to_string].
  destruct (bool_decide (st = js "invalid")).
  - by rewrite rejected_message_report.
  - destruct (bool_decide (st = js "success")); reflexivity.
Qed.

End Reports.

(** C8 (as amended).  In both hooks, when the answer to a query is a
    report whose status is ["invalid"], the poller stops after that one
    query and throws the rejection error, whose text carries the status
    code read by [parseInt], as JavaScript prints that Number (the
    words [No Code] when the report has no status code line, or the
    code read is [NaN] or [0]), the status message ([No Message] when
    there is none) and the log URL ([null] for the authority's marker,
    [undefined] when there is none).  A status code line that carries
    the numeral of an integer other than zero, up to [2^53] in absolute
    value, is reported as that numeral.  When the status is none of
    ["in progress"], ["success"], ["invalid"], the poller stops and
    throws the unrecognized-status error carrying the status text
    between double quotes. *)
Theorem waitForNotarize_rejected_and_unrecognized :
  forall uuid pkg_opts notarize_opts first ls last (rest : list Reply) (st : jsstr),
    well_formed_report first ls last ->
    lookup_field FStatus ls = Some st ->
    st <> js "in progress" -> st <> js "success" ->
    let failure :=
      if bool_decide (st = js "invalid") then
        Error (rejected_text (code_text (lookup_field FStatusCode ls))
                             (message_text (lookup_field FStatusMessage ls))
                             (logs_text (lookup_field FLogFileURL ls)))
      else Error (unrecognized_text st) in
    Pkg.waitForNotarize uuid pkg_opts (Done (report first ls last) :: rest)
    = ([Pkg.query uuid pkg_opts], rest, Throw failure)
    /\
    Notarize.waitForNotarize uuid notarize_opts (Done (report first ls last) :: rest)
    = ([Notarize.query uuid notarize_opts], rest, Throw failure)
    /\
    (forall z, lookup_field FStatusCode ls = Some (decimal_of_Z z) ->
               z <> 0%Z -> (Z.abs z <= 2 ^ 53)%Z ->
               code_text (lookup_field FStatusCode ls) = decimal_of_Z z).
Proof.
  intros uuid po no first ls last rest st Hwf Hst Hp Hs failure.
  assert (Hcheck : check_status (parseNotarizationInfo (report first ls last)) rest
                   = ([], rest, Throw failure)).
  { rewrite (check_status_report first ls last st) by assumption.
    unfold failure. destruct (bool_decide (st = js "invalid")); [reflexivity|].
    by rewrite bool_decide_eq_false_2. }
  split; [|split].
  - cbn [Pkg.waitForNotarize].
    rewrite status_report, Hst by assumption. cbn [of_opt].
    rewrite is_str_false by assumption. rewrite Hcheck. reflexivity.
  - cbn [Notarize.waitForNotarize].
    rewrite status_report, Hst by assumption. cbn [of_opt].
    rewrite is_str_false by assumption. rewrite Hcheck. reflexivity.
  - intros z Hz Hnz Hb. rewrite Hz. unfold code_text.
    replace (parseInt10 (decimal_of_Z z)) with (Int z).
    + cbn [truthy]. replace (z =? 0)%Z with false by (symmetry; by apply Z.eqb_neq).
      cbn [negb]. by apply to_string_safe.
    + rewrite <- (app_nil_r (decimal_of_Z z)), parseInt10_decimal by exact I.
      symmetry. by apply double_of_Z_safe.
Qed.

Lemma sample_report_ok (st code msg url : string) :
  good_value (js st) -> good_value (js code) -> good_value (js msg) ->
  good_value (js url) ->
  well_formed_report sample_header (sample_lines st code msg url) [].
Proof.
  intros H1 H2 H3 H4. split; [|split].
  - unfold no_LF, sample_header. repeat constructor; discriminate.
  - unfold sample_lines. repeat apply Forall_cons_2; try apply Forall_nil_2;
      cbn [good_line]; try assumption.
    + split; [constructor|]. intros f; destruct f; reflexivity.
    + split; [discriminate | repeat constructor].
    + split; [unfold no_LF; repeat constructor; discriminate|].
      intros f; destruct f; reflexivity.
    + split; [discriminate | repeat constructor].
  - constructor.
Qed.

Ltac good_literal := split; [discriminate | repeat constructor].

(** Two literals differ. *)
Ltac differ := let H := fresh in intros H; vm_compute in H; discriminate H.

Lemma waitForNotarize_rejected_and_unrecognized_witness :
  (well_formed_report sample_header
     (sample_lines "invalid" "2" "Package Invalid"
                   "https://osxapps.itunes.apple.com/log.json") []
   /\ lookup_field FStatus
        (sample_lines "invalid" "2" "Package Invalid"
                      "https://osxapps.itunes.apple.com/log.json")
      = Some (js "invalid")
   /\ js "invalid" <> js "in progress" /\ js "invalid" <> js "success")
  /\ Pkg.waitForNotarize sample_uuid pkg_key_options [Done rejected_report]
     = ([Pkg.query sample_uuid pkg_key_options], [],
        Throw (Error (rejected_text (js "2") (js "Package Invalid")
                        (js "https://osxapps.itunes.apple.com/log.json"))))
  /\ Notarize.waitForNotarize sample_uuid notarize_key_options [Done rejected_report]
     = ([Notarize.query sample_uuid notarize_key_options], [],
        Throw (Error (rejected_text (js "2") (js "Package Invalid")
                        (js "https://osxapps.itunes.apple.com/log.json")))).
Proof.
  assert (Hwf : well_formed_report sample_header
                  (sample_lines "invalid" "2" "Package Invalid"
                                "https://osxapps.itunes.apple.com/log.json") []).
  { apply sample_report_ok; good_literal. }
  split; [split; [exact Hwf | split; [reflexivity | split; differ]]|].
  pose proof (waitForNotarize_rejected_and_unrecognized
                sample_uuid pkg_key_options notarize_key_options
                sample_header
                (sample_lines "invalid" "2" "Package Invalid"
                              "https://osxapps.itunes.apple.com/log.json")
                [] [] (js "invalid") Hwf eq_refl
                ltac:(differ) ltac:(differ)) as H.
  split; [exact (proj1 H) | exact (proj1 (proj2 H))].
Defined.

(** C8, the claim as stated fails: a report with status ["invalid"] and
    status code [0] is parsed to the code [0], and the error thrown says
    [No Code]. *)
Lemma rejected_status_code_zero_is_not_reported :
  prop (parseNotarizationInfo rejected_code_zero) "status" = JStr (js "invalid")
  /\ prop (parseNotarizationInfo rejected_code_zero) "statusCode" = JNum (Int 0)
  /\ Pkg.waitForNotarize sample_uuid pkg_key_options [Done rejected_code_zero]
     = ([Pkg.query sample_uuid pkg_key_options], [],
        Throw (Error (rejected_text (js "No Code") (js "Package Invalid")
                        (js "https://osxapps.itunes.apple.com/log.json"))))
  /\ Notarize.waitForNotarize sample_uuid notarize_key_options [Done rejected_code_zero]
     = ([Notarize.query sample_uuid notarize_key_options], [],
        Throw (Error (rejected_text (js "No Code") (js "Package Invalid")
                        (js "https://osxapps.itunes.apple.com/log.json")))).
Proof. repeat split; vm_compute; reflexivity. Qed.

(** Beyond [2^53] the error reports the code as JavaScript prints the
    double that was read. *)
Example rejected_status_code_is_printed_as_a_double :
  code_text (Some (js "9007199254740993")) = js "9007199254740992"
  /\ code_text (Some (js "18446744073709551616")) = js "18446744073709552000"
  /\ code_text (Some (js "1000000000000000000000")) = js "1e+21"
  /\ code_text (Some (js "1180591620717411303424")) = js "1.1805916207174113e+21"
  /\ Pkg.waitForNotarize sample_uuid pkg_key_options
       [Done (sample_report "invalid" "9007199254740993" "Package Invalid" "(null)")]
     = ([Pkg.query sample_uuid pkg_key_options], [],
        Throw (Error (rejected_text (js "9007199254740992") (js "Package Invalid")
                        (js "null")))).
Proof. repeat split; vm_compute; reflexivity. Qed.

(** C5 (as amended).  When a report has a status code line, the parsed
    record always has the status-code property: it is whatever
    [Number.parseInt(value, 10)] gives for the value of the line.  When
    the value is a base-10 numeral, also when something that is not a
    digit follows the numeral, that is the Number nearest to the
    integer: the integer itself up to [2^53] in absolute value, a
    rounded one beyond.  It is [NaN], not an absent property, when the
    value starts with a character that is neither white space, a sign
    nor a digit.  Every other field is parsed as if the status code line
    were not there. *)
Theorem parse_status_code_is_parseInt :
  forall first ls last (v : jsstr),
    well_formed_report first ls last ->
    lookup_field FStatusCode ls = Some v ->
    let info := parseNotarizationInfo (report first ls last) in
    info !! "statusCode" = Some (JNum (parseInt10 v))
    /\ (forall z rest, v = decimal_of_Z z ++ rest -> no_digit_ahead rest ->
          info !! "statusCode" = Some (JNum (double_of_Z z))
          /\ ((Z.abs z <= 2 ^ 53)%Z -> info !! "statusCode" = Some (JNum (Int z))))
    /\ (forall c v', v = c :: v' -> is_trimmable c = false -> is_digit c = false ->
          c <> 45 -> c <> 43 ->
          info !! "statusCode" = Some (JNum NaN))
    /\ (forall f, info !! field_key f = stored f <$> lookup_field f ls).
Proof.
  intros first ls last v Hwf Hv info.
  assert (Hcode : info !! "statusCode" = Some (JNum (parseInt10 v))).
  { unfold info. rewrite (parse_report FStatusCode) by assumption.
    rewrite Hv. reflexivity. }
  split; [exact Hcode|]. split; [|split].
  - intros z rest -> Hrest. rewrite Hcode, parseInt10_decimal by assumption.
    split; [reflexivity|]. intros Hz. by rewrite double_of_Z_safe.
  - intros c v' -> Ht Hd Hm Hp. rewrite Hcode, parseInt10_NaN by assumption.
    reflexivity.
  - intros f. by apply parse_report.
Qed.

Lemma parse_status_code_is_parseInt_witness :
  (well_formed_report sample_header
     (sample_lines "invalid" "2" "Package Invalid" "(null)") []
   /\ lookup_field FStatusCode (sample_lines "invalid" "2" "Package Invalid" "(null)")
      = Some (js "2"))
  /\ parseNotarizationInfo (sample_report "invalid" "2" "Package Invalid" "(null)")
       !! "statusCode"
     = Some (JNum (Int 2)).
Proof.
  assert (Hwf : well_formed_report sample_header
                  (sample_lines "invalid" "2" "Package Invalid" "(null)") []).
  { apply sample_report_ok; good_literal. }
  split; [split; [exact Hwf | reflexivity]|].
  exact (proj1 (parse_status_code_is_parseInt
                  sample_header
                  (sample_lines "invalid" "2" "Package Invalid" "(null)") []
                  (js "2") Hwf eq_refl)).
Defined.

(** C5, the claim as stated fails: with [abc] on the status code line the
    record has the property, holding [NaN]; and with [2abc], which is not
    a base-10 integer either, it holds [2]. *)
Lemma status_code_not_a_numeral_is_stored :
  parseNotarizationInfo report_code_abc !! "statusCode" = Some (JNum NaN)
  /\ parseNotarizationInfo report_code_abc !! "statusCode" <> None
  /\ parseNotarizationInfo report_code_2abc !! "statusCode" = Some (JNum (Int 2)).
Proof.
  assert (H : parseNotarizationInfo report_code_abc !! "statusCode"
              = Some (JNum NaN)) by (vm_compute; reflexivity).
  split; [exact H|]. split; [rewrite H; discriminate|].
  vm_compute; reflexivity.
Qed.

(** A numeral beyond [2^53] is stored as the double nearest to it, and
    one of 310 digits as [Infinity]. *)
Example status_code_beyond_the_safe_integers :
  parseNotarizationInfo
    (sample_report "invalid" "9007199254740993" "Package Invalid" "(null)")
    !! "statusCode" = Some (JNum (Int 9007199254740992))
  /\ parseInt10 (js "-9007199254740995") = Int (-9007199254740996)
  /\ parseInt10 (js "1" ++ repeat 48 309) = Infinity false.
Proof. repeat split; vm_compute; reflexivity. Qed.

(** C7 (as amended).  For a report that has a line for each of the six
    fields, the status code line carrying the numeral of an integer [z],
    the parsed record holds: the request identifier, the status and the
    status message as the texts of their lines; the date as the [Date]
    object constructed from the text of its line; the status code as the
    Number nearest to [z], which is [z] itself up to [2^53] in absolute
    value; the log URL as the text of its line, or [null] when that
    text is [(null)]. *)
Theorem parse_report_all_fields :
  forall first ls last (u d st url msg : jsstr) (z : Z),
    well_formed_report first ls last ->
    lookup_field FRequestUUID ls = Some u ->
    lookup_field FDate ls = Some d ->
    lookup_field FStatus ls = Some st ->
    lookup_field FLogFileURL ls = Some url ->
    lookup_field FStatusCode ls = Some (decimal_of_Z z) ->
    lookup_field FStatusMessage ls = Some msg ->
    let info := parseNotarizationInfo (report first ls last) in
    info !! "uuid" = Some (JStr u)
    /\ info !! "date" = Some (JDate d)
    /\ info !! "status" = Some (JStr st)
    /\ info !! "logFileUrl"
       = Some (if bool_decide (url = js "(null)") then JNull else JStr url)
    /\ (info !! "statusCode" = Some (JNum (double_of_Z z))
        /\ ((Z.abs z <= 2 ^ 53)%Z -> info !! "statusCode" = Some (JNum (Int z))))
    /\ info !! "statusMessage" = Some (JStr msg).
Proof.
  intros first ls last u d st url msg z Hwf H1 H2 H3 H4 H5 H6 info.
  unfold info.
  assert (Hcode : parseNotarizationInfo (report first ls last) !! "statusCode"
                  = Some (JNum (double_of_Z z))).
  { rewrite (parse_report FStatusCode), H5 by assumption.
    cbn [fmap option_fmap option_map stored].
    rewrite <- (app_nil_r (decimal_of_Z z)), parseInt10_decimal; [reflexivity|exact I]. }
  split; [|split; [|split; [|split; [|split]]]].
  - rewrite (parse_report FRequestUUID), H1 by assumption. reflexivity.
  - rewrite (parse_report FDate), H2 by assumption. reflexivity.
  - rewrite (parse_report FStatus), H3 by assumption. reflexivity.
  - rewrite (parse_report FLogFileURL), H4 by assumption. reflexivity.
  - split; [exact Hcode|]. intros Hz. by rewrite Hcode, double_of_Z_safe.
  - rewrite (parse_report FStatusMessage), H6 by assumption. reflexivity.
Qed.

Lemma parse_report_all_fields_witness :
  well_formed_report sample_header
    (sample_lines "invalid" "2" "Package Invalid" "(null)") []
  /\ (let info :=
        parseNotarizationInfo (sample_report "invalid" "2" "Package Invalid" "(null)") in
      info !! "uuid" = Some (JStr (js "2de4c6e4-8f6a-4b5c-9f5e-0123456789ab"))
      /\ info !! "date" = Some (JDate (js "2019-07-08 20:11:24 +0000"))
      /\ info !! "status" = Some (JStr (js "invalid"))
      /\ info !! "logFileUrl" = Some JNull
      /\ (info !! "statusCode" = Some (JNum (Int 2))
          /\ ((Z.abs 2 <= 2 ^ 53)%Z -> info !! "statusCode" = Some (JNum (Int 2))))
      /\ info !! "statusMessage" = Some (JStr (js "Package Invalid"))).
Proof.
  assert (Hwf : well_formed_report sample_header
                  (sample_lines "invalid" "2" "Package Invalid" "(null)") []).
  { apply sample_report_ok; good_literal. }
  split; [exact Hwf|].
  exact (parse_report_all_fields
           sample_header (sample_lines "invalid" "2" "Package Invalid" "(null)") []
           (js "2de4c6e4-8f6a-4b5c-9f5e-0123456789ab")
           (js "2019-07-08 20:11:24 +0000") (js "invalid") (js "(null)")
           (js "Package Invalid") 2 Hwf
           eq_refl eq_refl eq_refl eq_refl eq_refl eq_refl).
Defined.

(** C7, the claim as stated fails: the date property is not the text of
    the date line but a [Date] object made from it. *)
Lemma parsed_date_is_not_the_literal :
  parseNotarizationInfo rejected_report !! "date"
  = Some (JDate (js "2019-07-08 20:11:24 +0000"))
  /\ parseNotarizationInfo rejected_report !! "date"
     <> Some (JStr (js "2019-07-08 20:11:24 +0000")).
Proof.
  assert (H : parseNotarizationInfo rejected_report !! "date"
              = Some (JDate (js "2019-07-08 20:11:24 +0000")))
    by (vm_compute; reflexivity).
  split; [exact H|]. rewrite H. discriminate.
Qed.

(** ** Credentials *)

Section Credentials.

(** [index.js] accepts the service-account variables, given the
    certificate name. *)
Lemma Pkg_getAuthInfo_service_account (env : gmap string jsstr) :
  env_truthy (env !! "PSC_NAME"%string) = true ->
  env_truthy (env !! "API_KEY_ID"%string) = true ->
  env_truthy (env !! "API_KEY_ISSUER_ID"%string) = true ->
  env_truthy (env !! "APPLE_ID"%string) = false ->
  env_truthy (env !! "APPLE_ID_PASSWORD"%string) = false ->
  Pkg.getAuthInfo env
  = Ret {| Pkg.appleId := env !! "APPLE_ID"%string;
           Pkg.appleIdPassword := env !! "APPLE_ID_PASSWORD"%string;
           Pkg.appleApiKey := env !! "API_KEY_ID"%string;
           Pkg.appleApiIssuer := env !! "API_KEY_ISSUER_ID"%string;
           Pkg.teamShortName := env !! "TEAM_SHORT_NAME"%string;
           Pkg.productSignCertificateName := env !! "PSC_NAME"%string |}.
Proof.
  intros Hc Hk Hi Ha Hp. unfold Pkg.getAuthInfo.
  rewrite Hc, Hk, Hi, Ha, Hp. reflexivity.
Qed.

(** In [index.js], a successful validation has exactly one variant. *)
Lemma Pkg_getAuthInfo_one_variant (env : gmap string jsstr) (info : Pkg.AuthInfo) :
  Pkg.getAuthInfo env = Ret info ->
  env_truthy (Pkg.productSignCertificateName info) = true /\
  ((env_truthy (Pkg.appleId info) = true /\ env_truthy (Pkg.appleIdPassword info) = true
    /\ env_truthy (Pkg.appleApiKey info) = false
    /\ env_truthy (Pkg.appleApiIssuer info) = false)
   \/
   (env_truthy (Pkg.appleId info) = false /\ env_truthy (Pkg.appleIdPassword info) = false
    /\ env_truthy (Pkg.appleApiKey info) = true
    /\ env_truthy (Pkg.appleApiIssuer info) = true)).
Proof.
  unfold Pkg.getAuthInfo.
  destruct (env_truthy (env !! "PSC_NAME"%string)) eqn:Hc;
  destruct (env_truthy (env !! "APPLE_ID"%string)) eqn:Ha;
  destruct (env_truthy (env !! "APPLE_ID_PASSWORD"%string)) eqn:Hp;
  destruct (env_truthy (env !! "API_KEY_ID"%string)) eqn:Hk;
  destruct (env_truthy (env !! "API_KEY_ISSUER_ID"%string)) eqn:Hi;
  cbn; intros [= <-]; cbn; auto 10.
Qed.

(** In [part_000], a successful validation has the interactive variant. *)
Lemma Notarize_getAuthInfo_interactive_only (env : gmap string jsstr)
    (info : Notarize.AuthInfo) :
  Notarize.getAuthInfo env = Ret info ->
  env_truthy (Notarize.appleId info) = true
  /\ env_truthy (Notarize.appleIdPassword info) = true
  /\ env_truthy (Notarize.appleTeamId info) = true
  /\ env_truthy (Notarize.appleApiKey info) = false
  /\ env_truthy (Notarize.appleApiIssuer info) = false.
Proof.
  unfold Notarize.getAuthInfo.
  destruct (env_truthy (env !! "APPLE_ID"%string)) eqn:Ha;
  destruct (env_truthy (env !! "APPLE_ID_PASSWORD"%string)) eqn:Hp;
  destruct (env_truthy (env !! "APPLE_TEAM_ID"%string)) eqn:Ht;
  destruct (env_truthy (env !! "API_KEY_ID"%string)) eqn:Hk;
  destruct (env_truthy (env !! "API_KEY_ISSUER_ID"%string)) eqn:Hi;
  cbn; intros [= <-]; cbn; auto 10.
Qed.

End Credentials.

(** C3.  [getAuthInfo] of [part_000] rejects every environment that
    provides the two service-account variables and none of the
    interactive-account ones: its third check requires the three
    interactive-account variables whatever else is set.  The error is
    the one about [APPLE_ID], [APPLE_ID_PASSWORD] and [APPLE_TEAM_ID].
    No environment makes it return the service-account variant. *)
Theorem Notarize_getAuthInfo_rejects_service_account :
  forall env : gmap string jsstr,
    env_truthy (env !! "API_KEY_ID"%string) = true ->
    env_truthy (env !! "API_KEY_ISSUER_ID"%string) = true ->
    env_truthy (env !! "APPLE_ID"%string) = false ->
    env_truthy (env !! "APPLE_ID_PASSWORD"%string) = false ->
    env_truthy (env !! "APPLE_TEAM_ID"%string) = false ->
    Notarize.getAuthInfo env
    = Throw (Error (js "One of APPLE_ID, APPLE_ID_PASSWORD, and APPLE_TEAM_ID environment variables is missing for notarization."))
    /\ (forall env' info, Notarize.getAuthInfo env' = Ret info ->
          env_truthy (Notarize.appleApiKey info) = false
          /\ env_truthy (Notarize.appleApiIssuer info) = false).
Proof.
  intros env Hk Hi Ha Hp Ht. split.
  - unfold Notarize.getAuthInfo. rewrite Hk, Hi, Ha, Hp, Ht. reflexivity.
  - intros env' info H.
    apply Notarize_getAuthInfo_interactive_only in H. tauto.
Qed.

Lemma Notarize_getAuthInfo_rejects_service_account_witness :
  (env_truthy (key_env !! "API_KEY_ID"%string) = true
   /\ env_truthy (key_env !! "API_KEY_ISSUER_ID"%string) = true
   /\ env_truthy (key_env !! "APPLE_ID"%string) = false
   /\ env_truthy (key_env !! "APPLE_ID_PASSWORD"%string) = false
   /\ env_truthy (key_env !! "APPLE_TEAM_ID"%string) = false)
  /\ Notarize.getAuthInfo key_env
     = Throw (Error (js "One of APPLE_ID, APPLE_ID_PASSWORD, and APPLE_TEAM_ID environment variables is missing for notarization.")).
Proof.
  split; [repeat split; vm_compute; reflexivity|].
  apply (Notarize_getAuthInfo_rejects_service_account key_env);
    vm_compute; reflexivity.
Defined.

(** The same environment, with the certificate name, is accepted by
    [index.js], which returns the service-account variant. *)
Example Pkg_getAuthInfo_key_env :
  Pkg.getAuthInfo key_env_signed
  = Ret {| Pkg.appleId := None; Pkg.appleIdPassword := None;
           Pkg.appleApiKey := Some (js "KEY123");
           Pkg.appleApiIssuer := Some (js "ISSUER-1");
           Pkg.teamShortName := None;
           Pkg.productSignCertificateName :=
             Some (js "Developer ID Installer: NAME (1234ABCDEFG)") |}.
Proof. vm_compute. reflexivity. Qed.

(** ** Authorization arguments *)

Section Upload.

(** What the upload call of each hook does with the reply it gets. *)
Lemma Pkg_start_done pkgPath appId opts stdout (rest : list Reply) :
  Pkg.startNotarizingPackage pkgPath appId opts (Done stdout :: rest)
  = ([Exec (js "xcrun") (Pkg.upload_args pkgPath appId opts) None], rest,
     match exec uuid_re stdout with
     | Some uuidMatch => Ret (of_opt uuidMatch)
     | None => Throw (Error (upload_failed_message (missing_uuid_message stdout)))
     end).
Proof.
  unfold Pkg.startNotarizingPackage, try_catch, bind, execa, call.
  destruct (exec uuid_re stdout); reflexivity.
Qed.

Lemma Pkg_start_failed pkgPath appId opts e (rest : list Reply) :
  Pkg.startNotarizingPackage pkgPath appId opts (Failed e :: rest)
  = ([Exec (js "xcrun") (Pkg.upload_args pkgPath appId opts) None], rest,
     Throw (Error (upload_failed_message (message e)))).
Proof. reflexivity. Qed.

Lemma Notarize_start_done pkgPath appId opts stdout (rest : list Reply) :
  Notarize.startNotarizingPackage pkgPath appId opts (Done stdout :: rest)
  = ([Exec (js "xcrun") (Notarize.upload_args pkgPath appId opts) None], rest,
     match exec uuid_re stdout with
     | Some uuidMatch => Ret (of_opt uuidMatch)
     | None => Throw (Error (upload_failed_message (missing_uuid_message stdout)))
     end).
Proof.
  unfold Notarize.startNotarizingPackage, try_catch, bind, execa, call.
  destruct (exec uuid_re stdout); reflexivity.
Qed.

Lemma Notarize_start_failed pkgPath appId opts e (rest : list Reply) :
  Notarize.startNotarizingPackage pkgPath appId opts (Failed e :: rest)
  = ([Exec (js "xcrun") (Notarize.upload_args pkgPath appId opts) None], rest,
     Throw (Error (upload_failed_message (message e)))).
Proof. reflexivity. Qed.

(** The upload is the first thing either hook's submission does. *)
Lemma Pkg_start_first_event pkgPath appId opts (script : list Reply) :
  exists ev,
    (Pkg.startNotarizingPackage pkgPath appId opts script).1.1
    = Exec (js "xcrun") (Pkg.upload_args pkgPath appId opts) None :: ev.
Proof.
  destruct script as [|[out|e] rest].
  - eexists; reflexivity.
  - rewrite Pkg_start_done. eexists; reflexivity.
  - rewrite Pkg_start_failed. eexists; reflexivity.
Qed.

Lemma Notarize_start_first_event pkgPath appId opts (script : list Reply) :
  exists ev,
    (Notarize.startNotarizingPackage pkgPath appId opts script).1.1
    = Exec (js "xcrun") (Notarize.upload_args pkgPath appId opts) None :: ev.
Proof.
  destruct script as [|[out|e] rest].
  - eexists; reflexivity.
  - rewrite Notarize_start_done. eexists; reflexivity.
  - rewrite Notarize_start_failed. eexists; reflexivity.
Qed.

End Upload.

(** C6 (as amended).  For every credential record each hook produces
    exactly one of two argument sets, chosen by whether the account
    identifier is set.  Interactive-account mode supplies the username
    and password flags, followed in [part_000] by the provider flag
    [--asc-provider] with the team identifier; [index.js] supplies no
    provider flag.  Service-account mode supplies the API key and
    issuer flags.  In both hooks and both modes the upload is run with
    the fixed arguments, then that set, then the pair [-itc_provider],
    team short name when the team short name is set and not empty, and
    nothing otherwise. *)
Theorem authorizing_args_by_variant :
  forall (po : Pkg.AuthInfo) (no : Notarize.AuthInfo) (pkgPath : jsstr) (appId : JsVal),
    Pkg.getAuthorizingArgs po
    = (if env_truthy (Pkg.appleId po) then
         [JStr (js "--username"); of_opt (Pkg.appleId po);
          JStr (js "--password"); of_opt (Pkg.appleIdPassword po)]
       else
         [JStr (js "--apiKey"); of_opt (Pkg.appleApiKey po);
          JStr (js "--apiIssuer"); of_opt (Pkg.appleApiIssuer po)])
    /\
    Notarize.getAuthorizingArgs no
    = (if env_truthy (Notarize.appleId no) then
         [JStr (js "--username"); of_opt (Notarize.appleId no);
          JStr (js "--password"); of_opt (Notarize.appleIdPassword no);
          JStr (js "--asc-provider"); of_opt (Notarize.appleTeamId no)]
       else
         [JStr (js "--apiKey"); of_opt (Notarize.appleApiKey no);
          JStr (js "--apiIssuer"); of_opt (Notarize.appleApiIssuer no)])
    /\
    (forall script, exists ev,
        (Pkg.startNotarizingPackage pkgPath appId po script).1.1
        = Exec (js "xcrun")
               (upload_prefix pkgPath appId ++ Pkg.getAuthorizingArgs po
                ++ team_flags (Pkg.teamShortName po))
               None :: ev)
    /\
    (forall script, exists ev,
        (Notarize.startNotarizingPackage pkgPath appId no script).1.1
        = Exec (js "xcrun")
               (upload_prefix pkgPath appId ++ Notarize.getAuthorizingArgs no
                ++ team_flags (Notarize.teamShortName no))
               None :: ev).
Proof.
  intros po no pkgPath appId. repeat split.
  - intros script. apply Pkg_start_first_event.
  - intros script. apply Notarize_start_first_event.
Qed.

(** C6, the claim as stated fails: in [index.js] interactive-account mode
    supplies the username and the password and no provider flag. *)
Lemma Pkg_interactive_args_have_no_provider_flag :
  Pkg.getAuthorizingArgs pkg_id_options_no_team
  = [JStr (js "--username"); JStr (js "dev@example.com");
     JStr (js "--password"); JStr (js "pw")]
  /\ Pkg.upload_args (js "/dist/App.pkg") (JStr (js "com.example.app"))
                     pkg_id_options_no_team
     = [JStr (js "altool"); JStr (js "--notarize-app");
        JStr (js "--primary-bundle-id"); JStr (js "com.example.app");
        JStr (js "--file"); JStr (js "/dist/App.pkg");
        JStr (js "--username"); JStr (js "dev@example.com");
        JStr (js "--password"); JStr (js "pw")]
  /\ Notarize.getAuthorizingArgs notarize_id_options
     = [JStr (js "--username"); JStr (js "dev@example.com");
        JStr (js "--password"); JStr (js "pw");
        JStr (js "--asc-provider"); JStr (js "TEAM42")].
Proof. repeat split. Qed.

(** ** The request identifier in the upload tool's output *)

Section RequestUUID.

Lemma line_capture_plain (lits l v : jsstr) :
  line_capture false lits l = Some v -> l = lits ++ v /\ v <> [].
Proof.
  unfold line_capture.
  destruct (strip_prefix lits l) as [w|] eqn:Hs; [|discriminate].
  apply strip_prefix_some in Hs. subst l.
  destruct w as [|c w]; [discriminate|].
  destruct (forallb _ _); [|discriminate].
  intros [= <-]. split; [reflexivity | discriminate].
Qed.

Lemma marker_ok_uuid : marker_ok false uuid_marker.
Proof.
  split; [|discriminate].
  unfold no_LF. repeat constructor; discriminate.
Qed.

Lemma join_lines_app (l1 l2 : list jsstr) :
  l1 <> [] -> l2 <> [] ->
  join_lines (l1 ++ l2) = join_lines l1 ++ LF :: join_lines l2.
Proof.
  intros H1 H2. induction l1 as [|a l1 IH]; [congruence|].
  destruct l1 as [|b l1].
  - destruct l2; [congruence | reflexivity].
  - change (join_lines ((a :: b :: l1) ++ l2))
      with (a ++ LF :: join_lines ((b :: l1) ++ l2)).
    rewrite IH by discriminate.
    change (join_lines (a :: b :: l1)) with (a ++ LF :: join_lines (b :: l1)).
    rewrite <- app_assoc. reflexivity.
Qed.

Lemma in_removelast (l : jsstr) (ls : list jsstr) :
  In l (removelast ls) -> exists m1 m2 z, ls = m1 ++ l :: m2 ++ [z].
Proof.
  intros H. destruct ls as [|x ls]; [contradiction|].
  destruct (exists_last (l := x :: ls)) as (init & z & Heq); [discriminate|].
  rewrite Heq in *. rewrite removelast_last in H.
  apply in_split in H as (m1 & m2 & ->).
  exists m1, m2, z. by rewrite <- app_assoc.
Qed.

(** An interior line has a line before it and a line after it. *)
Lemma in_interior (l : jsstr) (ls : list jsstr) :
  In l (interior ls) ->
  exists before after, before <> [] /\ after <> [] /\ ls = before ++ l :: after.
Proof.
  unfold interior. destruct ls as [|x ls]; [contradiction|]. cbn [tl].
  intros H. apply in_removelast in H as (m1 & m2 & z & ->).
  exists (x :: m1), (m2 ++ [z]). split; [discriminate|]. split; [|reflexivity].
  destruct m2; discriminate.
Qed.

Lemma in_interior_in (l : jsstr) (ls : list jsstr) : In l (interior ls) -> In l ls.
Proof.
  intros H. apply in_interior in H as (b & a & _ & _ & ->).
  apply in_or_app. right. by left.
Qed.

(** No line with the marker: the pattern has no match. *)
Lemma exec_uuid_none (ls : list jsstr) :
  Forall no_LF ls -> no_uuid_among (interior ls) ->
  exec uuid_re (join_lines ls) = None.
Proof.
  intros Hls Hno. rewrite uuid_re_line, exec_lines; [|apply marker_ok_uuid|assumption].
  destruct (first_capture _ _) as [v|] eqn:Hc; [|reflexivity].
  apply first_capture_in in Hc as (l & Hin & Hl).
  apply line_capture_plain in Hl as [-> _].
  exfalso. by apply (Hno _ v Hin).
Qed.

(** A match: the line stands between two LF, and its value is returned. *)
Lemma exec_uuid_some (text : jsstr) (m : option jsstr) :
  exec uuid_re text = Some m ->
  exists pre u post,
    m = Some u /\ u <> [] /\ text = pre ++ LF :: uuid_marker ++ u ++ LF :: post.
Proof.
  rewrite uuid_re_line, exec_text by apply marker_ok_uuid.
  destruct (first_capture _ _) as [v|] eqn:Hc; [|discriminate].
  intros [= <-].
  apply first_capture_in in Hc as (l & Hin & Hl).
  apply line_capture_plain in Hl as [-> Hne].
  apply in_interior in Hin as (before & after & Hb & Ha & Heq).
  exists (join_lines before), v, (join_lines after).
  split; [reflexivity|]. split; [assumption|].
  rewrite <- (join_split text), Heq.
  rewrite join_lines_app by (assumption || discriminate).
  f_equal. f_equal.
  destruct after as [|a after]; [congruence|].
  unfold uuid_marker.
  change (join_lines ((js "RequestUUID = " ++ v) :: a :: after))
    with ((js "RequestUUID = " ++ v) ++ LF :: join_lines (a :: after)).
  symmetry. apply app_assoc.
Qed.

Lemma no_uuid_line_interior (text : jsstr) :
  no_uuid_line text -> no_uuid_among (interior (split_lines text)).
Proof. intros H l v Hin. apply H. by apply in_interior_in. Qed.

Lemma exec_uuid_no_line (text : jsstr) :
  no_uuid_line text -> exec uuid_re text = None.
Proof.
  intros H. rewrite <- (join_split text).
  apply exec_uuid_none; [apply split_lines_no_LF | by apply no_uuid_line_interior].
Qed.

(** What a line gives is a value: not empty, without line terminator. *)
Lemma line_capture_good (indent : bool) (lits l v : jsstr) :
  line_capture indent lits l = Some v -> good_value v.
Proof.
  unfold line_capture.
  destruct (strip_prefix lits _) as [[|c w]|]; [discriminate| |discriminate].
  destruct (forallb _ (c :: w)) eqn:Hall; [|discriminate].
  intros [= <-]. split; [discriminate|].
  apply Forall_forall. intros x Hx. apply list_elem_of_In in Hx.
  rewrite forallb_forall in Hall. specialize (Hall x Hx).
  by destruct (is_line_terminator x).
Qed.



End RequestUUID.

Section UploadOutput.

Lemma no_LF_app (a b : jsstr) : no_LF a -> no_LF b -> no_LF (a ++ b).
Proof. apply Forall_app_2. Qed.

Lemma no_LF_uuid_line (u : jsstr) : no_LF u -> no_LF (uuid_marker ++ u).
Proof. intros H. apply no_LF_app; [apply marker_ok_uuid | assumption]. Qed.

Lemma interior_first (x : jsstr) (others : list jsstr) (l : jsstr) :
  In l (interior (x :: others)) -> In l others.
Proof.
  unfold interior. cbn [tl]. intros H.
  apply in_removelast in H as (m1 & m2 & z & ->).
  apply in_or_app. right. by left.
Qed.

Lemma interior_last (x : jsstr) (others : list jsstr) (l : jsstr) :
  In l (interior (others ++ [x])) -> In l others.
Proof.
  intros H. apply in_interior in H as (before & after & _ & Ha & Heq).
  destruct (exists_last Ha) as (init & z & ->).
  change (before ++ l :: init ++ [z]) with (before ++ (l :: init) ++ [z]) in Heq.
  rewrite app_assoc in Heq. apply app_inj_tail in Heq as [-> _].
  apply in_or_app. right. by left.
Qed.

(** The identifier line as the first line, or as the last line, of the
    output: no match. *)
Lemma exec_uuid_first_line (u : jsstr) (others : list jsstr) :
  no_LF u -> Forall no_LF others -> no_uuid_among others ->
  exec uuid_re (join_lines ((uuid_marker ++ u) :: others)) = None.
Proof.
  intros Hu Ho Hno. apply exec_uuid_none.
  - constructor; [by apply no_LF_uuid_line | assumption].
  - intros l v Hin. apply Hno. by apply interior_first in Hin.
Qed.

Lemma exec_uuid_last_line (u : jsstr) (others : list jsstr) :
  no_LF u -> Forall no_LF others -> no_uuid_among others ->
  exec uuid_re (join_lines (others ++ [uuid_marker ++ u])) = None.
Proof.
  intros Hu Ho Hno. apply exec_uuid_none.
  - apply Forall_app_2; [assumption|].
    constructor; [by apply no_LF_uuid_line | constructor].
  - intros l v Hin. apply Hno. by apply interior_last in Hin.
Qed.

End UploadOutput.




(** C10.  In both hooks the submission returns a request identifier only
    when the output has the line [RequestUUID = ] value with an LF right
    before it and an LF right after it, and then it returns that value.
    When the line is the first line of the output, or its last line, and
    no other line starts with [RequestUUID = ], the submission fails
    with the missing-identifier error (inside the upload-failure
    wrapping), although the line is there. *)
Theorem request_uuid_line_needs_both_newlines :
  forall pkgPath appId po no (u : jsstr) (others : list jsstr) (rest : list Reply),
    no_LF u -> Forall no_LF others -> no_uuid_among others ->
    (forall stdout,
        stdout = join_lines ((uuid_marker ++ u) :: others)
        \/ stdout = join_lines (others ++ [uuid_marker ++ u]) ->
        Pkg.startNotarizingPackage pkgPath appId po (Done stdout :: rest)
        = ([Exec (js "xcrun") (Pkg.upload_args pkgPath appId po) None], rest,
           Throw (Error (upload_failed_message (missing_uuid_message stdout))))
        /\
        Notarize.startNotarizingPackage pkgPath appId no (Done stdout :: rest)
        = ([Exec (js "xcrun") (Notarize.upload_args pkgPath appId no) None], rest,
           Throw (Error (upload_failed_message (missing_uuid_message stdout)))))
    /\
    (forall stdout ev rest' v,
        Pkg.startNotarizingPackage pkgPath appId po (Done stdout :: rest)
        = (ev, rest', Ret v)
        \/ Notarize.startNotarizingPackage pkgPath appId no (Done stdout :: rest)
           = (ev, rest', Ret v) ->
        exists pre w post,
          v = JStr w /\ w <> []
          /\ stdout = pre ++ LF :: uuid_marker ++ w ++ LF :: post).
Proof.
  intros pkgPath appId po no u others rest Hu Ho Hno. split.
  - intros stdout Hs.
    assert (He : exec uuid_re stdout = None).
    { destruct Hs as [-> | ->];
        [by apply exec_uuid_first_line | by apply exec_uuid_last_line]. }
    rewrite Pkg_start_done, Notarize_start_done, He. split; reflexivity.
  - intros stdout ev rest' v H.
    assert (Hm : exists m, exec uuid_re stdout = Some m /\ v = of_opt m).
    { rewrite Pkg_start_done, Notarize_start_done in H.
      destruct (exec uuid_re stdout) as [m|].
      - exists m. split; [reflexivity|]. destruct H as [H|H]; congruence.
      - destruct H as [H|H]; discriminate. }
    destruct Hm as (m & Hm & ->).
    apply exec_uuid_some in Hm as (pre & w & post & -> & Hw & ->).
    exists pre, w, post. auto.
Qed.

Lemma request_uuid_line_needs_both_newlines_witness :
  (no_LF (js "ABC-123") /\ Forall no_LF upload_notes /\ no_uuid_among upload_notes)
  /\ Pkg.startNotarizingPackage sample_pkg sample_app pkg_key_options
       [Done (join_lines (upload_notes ++ [js "RequestUUID = ABC-123"]))]
     = ([Exec (js "xcrun") (Pkg.upload_args sample_pkg sample_app pkg_key_options) None],
        [],
        Throw (Error (upload_failed_message
                        (missing_uuid_message
                           (join_lines (upload_notes ++ [js "RequestUUID = ABC-123"])))))).
Proof.
  assert (H1 : no_LF (js "ABC-123")) by (unfold no_LF; repeat constructor; discriminate).
  assert (H2 : Forall no_LF upload_notes)
    by (unfold no_LF; repeat constructor; discriminate).
  assert (H3 : no_uuid_among upload_notes).
  { intros l v Hin Heq. vm_compute in Hin.
    repeat (destruct Hin as [<-|Hin]; [vm_compute in Heq; discriminate Heq|]).
    exact Hin. }
  split; [auto|].
  exact (proj1 (proj1 (request_uuid_line_needs_both_newlines
                  sample_pkg sample_app pkg_key_options notarize_key_options
                  (js "ABC-123") upload_notes [] H1 H2 H3)
                _ (or_intror eq_refl))).
Defined.

(** With an LF on both sides the identifier is returned. *)
Example request_uuid_between_newlines :
  Pkg.startNotarizingPackage sample_pkg sample_app pkg_key_options
    [Done (join_lines (upload_notes ++ [js "RequestUUID = ABC-123"; []]))]
  = ([Exec (js "xcrun") (Pkg.upload_args sample_pkg sample_app pkg_key_options) None],
     [], Ret (JStr (js "ABC-123"))).
Proof. vm_compute. reflexivity. Qed.

(** ** The orchestrator of [index.js] *)

Section Orchestrator.

Variable path : PathApi.

Lemma bind_emit {B} (e : Event) (f : unit -> IO B) (script : list Reply) :
  bind (emit e) f script = after [e] (f tt script).
Proof. unfold bind, emit, after. reflexivity. Qed.

Lemma bind_prefix {A B} (m : IO A) (f : A -> IO B) (script : list Reply) :
  exists ev, (bind m f script).1.1 = (m script).1.1 ++ ev.
Proof.
  unfold bind. destruct (m script) as [[ev s'] [a|e|]].
  - destruct (f a s') as [[ev' s''] r]. eexists; reflexivity.
  - exists []. cbn. by rewrite app_nil_r.
  - exists []. cbn. by rewrite app_nil_r.
Qed.

Lemma bind_throw {A B} (m : IO A) (f : A -> IO B) (script : list Reply) ev s' e :
  m script = (ev, s', Throw e) -> bind m f script = (ev, s', Throw e).
Proof. intros H. unfold bind. rewrite H. reflexivity. Qed.

(** Called with a string, [signPackage] reads its three parameters off
    the string: all three are [undefined]. *)
Lemma signPackage_string (s : jsstr) (script : list Reply) :
  Pkg.signPackage (JStr s) script
  = match script with
    | [] => ([signing_call], [], Pending)
    | Done _ :: rest => ([signing_call], rest, Ret tt)
    | Failed e :: rest =>
        ([signing_call], rest,
         Throw (Error (js "Failed to sign undefined" ++ [LF; LF] ++ message e)))
    end.
Proof. destruct script as [|[out|e] rest]; reflexivity. Qed.

Lemma signPackage_events (s : jsstr) (script : list Reply) :
  (Pkg.signPackage (JStr s) script).1.1 = [signing_call].
Proof. destruct script as [|[out|e] rest]; reflexivity. Qed.

(** Called with the object its parameter list asks for, it passes the
    three values on. *)
Lemma signPackage_object (cert pkgPath signedPath : jsstr) (rest : list Reply) out :
  Pkg.signPackage
    (JObj [("productSignCertificateName"%string, JStr cert);
           ("pkgPath"%string, JStr pkgPath);
           ("signedPath"%string, JStr signedPath)])
    (Done out :: rest)
  = ([intended_signing_call cert pkgPath signedPath], rest, Ret tt).
Proof. reflexivity. Qed.

Lemma getAuthInfo_certificate (env : gmap string jsstr) (authInfo : Pkg.AuthInfo) :
  Pkg.getAuthInfo env = Ret authInfo ->
  exists c, Pkg.productSignCertificateName authInfo = Some c.
Proof.
  intros H. apply Pkg_getAuthInfo_one_variant in H as [Hc _].
  destruct (Pkg.productSignCertificateName authInfo) as [c|]; [eauto | discriminate].
Qed.

(** Past the guards, the hook runs the signing stages. *)
Lemma main_reaches_signing isPullRequest parameters env authInfo pkgPath :
  reaches_signing path isPullRequest parameters env authInfo pkgPath ->
  Pkg.main path isPullRequest parameters env
  = Pkg.sign_and_notarize path authInfo pkgPath (Pkg.appId parameters).
Proof.
  intros (Hplat & Hauth & Hpr & Hbranch & Hfind & Hne).
  unfold Pkg.main. rewrite Hplat, Hauth, Hfind.
  change (is_str (JStr (js "darwin")) (js "darwin")) with true. cbn [negb].
  unfold skipped_as_pull_request in Hpr. unfold skipped_as_side_branch in Hbranch.
  cbv zeta. rewrite Hpr, Hbranch.
  destruct pkgPath; [congruence | reflexivity].
Qed.

End Orchestrator.

(** C2.  In every run of the signed-package hook that gets past its
    guards, the signing tool is not invoked with the certificate name,
    the artifact path and the destination path: [signPackage] takes one
    object parameter and is called with three positional arguments, so
    the tool is run as [productsign --sign undefined undefined
    undefined].  The run first logs that it signs the artifact, then
    makes that call; if the tool fails, the run fails with [Failed to
    sign undefined]. *)
Theorem Pkg_main_signs_with_undefined_arguments :
  forall path isPullRequest parameters env authInfo pkgPath (script : list Reply),
    reaches_signing path isPullRequest parameters env authInfo pkgPath ->
    (exists ev,
        (Pkg.main path isPullRequest parameters env script).1.1
        = Log (js "Signing " ++ pkgPath ++ js "...") :: signing_call :: ev)
    /\
    (forall e rest, script = Failed e :: rest ->
        Pkg.main path isPullRequest parameters env script
        = ([Log (js "Signing " ++ pkgPath ++ js "..."); signing_call], rest,
           Throw (Error (js "Failed to sign undefined" ++ [LF; LF] ++ message e)))).
Proof.
  intros path isPR parameters env authInfo pkgPath script Hreach.
  rewrite (main_reaches_signing path isPR parameters env authInfo pkgPath Hreach).
  destruct Hreach as (_ & Hauth & _).
  destruct (getAuthInfo_certificate env authInfo Hauth) as [c Hc].
  unfold Pkg.sign_and_notarize. rewrite Hc. cbn [of_opt].
  unfold console_log. rewrite bind_emit. cbv beta.
  split.
  - match goal with
    | |- context [bind (Pkg.signPackage (JStr c)) ?k script] =>
        destruct (bind_prefix (Pkg.signPackage (JStr c)) k script) as [ev Hev]
    end.
    rewrite signPackage_events in Hev.
    match goal with
    | |- context [after _ ?k] => destruct k as [[ev' s'] r']
    end.
    cbn in Hev. subst ev'. eexists; reflexivity.
  - intros e rest ->.
    rewrite (bind_throw _ _ _ [signing_call] rest
               (Error (js "Failed to sign undefined" ++ [LF; LF] ++ message e)));
      reflexivity.
Qed.

Lemma sample_run_reaches_signing :
  reaches_signing posix false sample_parameters key_env_signed sample_auth sample_pkg.
Proof.
  split; [reflexivity|]. split; [vm_compute; reflexivity|].
  split; [reflexivity|]. split; [vm_compute; reflexivity|].
  split; [vm_compute; reflexivity | discriminate].
Qed.

Lemma Pkg_main_signs_with_undefined_arguments_witness :
  reaches_signing posix false sample_parameters key_env_signed sample_auth sample_pkg
  /\ Pkg.main posix false sample_parameters key_env_signed
       [Failed (Error (js "productsign: error: Could not find appropriate signing identity"))]
     = ([Log (js "Signing /dist/App.pkg..."); signing_call], [],
        Throw (Error (js "Failed to sign undefined" ++ [LF; LF]
                      ++ js "productsign: error: Could not find appropriate signing identity"))).
Proof.
  split; [exact sample_run_reaches_signing|].
  exact (proj2 (Pkg_main_signs_with_undefined_arguments
                  posix false sample_parameters key_env_signed sample_auth sample_pkg
                  [Failed (Error (js "productsign: error: Could not find appropriate signing identity"))]
                  sample_run_reaches_signing)
               _ _ eq_refl).
Defined.

(** The whole run when every tool and both renames are scripted to
    succeed: the tool is still called without the certificate name and
    the two paths, and the renames then move whatever is at the
    [-signed.pkg] path over the artifact. *)
Example sample_run_events :
  (Pkg.main posix false sample_parameters key_env_signed
     [Done []; Done []; Done [];
      Done (join_lines (upload_notes ++ [js "RequestUUID = ABC-123"; []]));
      Done approved_report; Done []]).1.1
  = [Log (js "Signing /dist/App.pkg...");
     signing_call;
     Rename (js "/dist/App.pkg") (js "/dist/App-unsigned.pkg");
     Rename (js "/dist/App-signed.pkg") (js "/dist/App.pkg");
     Log (js "Notarizing /dist/App.pkg...");
     Exec (js "xcrun")
          (Pkg.upload_args sample_pkg sample_app (Pkg.rest_options sample_auth)) None;
     Delay 10000;
     Pkg.query (JStr (js "ABC-123")) (Pkg.rest_options sample_auth);
     Exec (js "xcrun")
          [JStr (js "stapler"); JStr (js "staple"); JStr (js "-v"); JStr (js "App.pkg")]
          (Some (js "/dist"));
     Log (js "Notarized /dist/App.pkg successfully.")].
Proof. vm_compute. reflexivity. Qed.

(** * Further properties of the two hooks *)

(** ** [isEnvTrue] *)

Section EnvFlags.

Lemma trim_start_blank (ws x : jsstr) :
  forallb is_trimmable ws = true -> trim_start (ws ++ x) = trim_start x.
Proof.
  induction ws as [|c ws IH]; intros H; [reflexivity|].
  cbn in H. apply andb_true_iff in H as [Hc Hws].
  cbn [app trim_start]. rewrite Hc. by apply IH.
Qed.

Lemma trim_start_app (v ws : jsstr) :
  forallb is_trimmable ws = true ->
  trim_start (v ++ ws)
  = match trim_start v with
    | [] => []
    | t => t ++ ws
    end.
Proof.
  intros Hws. induction v as [|c v IH].
  - cbn [app trim_start]. rewrite <- (app_nil_r ws), trim_start_blank by assumption.
    reflexivity.
  - cbn [app trim_start]. destruct (is_trimmable c); [exact IH | reflexivity].
Qed.

Lemma forallb_rev (f : N -> bool) (l : jsstr) :
  forallb f l = true -> forallb f (rev l) = true.
Proof.
  intros H. apply forallb_forall. intros x Hx.
  rewrite forallb_forall in H. apply H. by apply in_rev.
Qed.

Lemma trim_end_blank (x ws : jsstr) :
  forallb is_trimmable ws = true -> trim_end (x ++ ws) = trim_end x.
Proof.
  intros H. unfold trim_end. rewrite rev_app_distr, trim_start_blank; [reflexivity|].
  by apply forallb_rev.
Qed.

Lemma trim_surrounded (ws1 v ws2 : jsstr) :
  forallb is_trimmable ws1 = true -> forallb is_trimmable ws2 = true ->
  trim (ws1 ++ v ++ ws2) = trim v.
Proof.
  intros H1 H2. unfold trim.
  rewrite trim_start_blank, trim_start_app by assumption.
  destruct (trim_start v) as [|c t] eqn:Hv; [reflexivity|].
  by apply trim_end_blank.
Qed.

End EnvFlags.

(** X1.  [isEnvTrue] looks at its argument with the white space around
    it removed: white space (blanks, tabs, line breaks) before and after
    a value does not change the answer, and a value made of white space
    only counts as true, like the empty string.  An unset variable is
    false. *)
Theorem isEnvTrue_ignores_surrounding_white_space :
  forall ws1 v ws2 : jsstr,
    forallb is_trimmable ws1 = true -> forallb is_trimmable ws2 = true ->
    isEnvTrue (Some (ws1 ++ v ++ ws2)) = isEnvTrue (Some v)
    /\ isEnvTrue (Some (ws1 ++ ws2)) = true
    /\ isEnvTrue None = false.
Proof.
  intros ws1 v ws2 H1 H2. split; [|split].
  - unfold isEnvTrue. by rewrite trim_surrounded.
  - unfold isEnvTrue.
    rewrite <- (app_nil_l ws2), (trim_surrounded ws1 [] ws2) by assumption.
    reflexivity.
  - reflexivity.
Qed.

Lemma isEnvTrue_ignores_surrounding_white_space_witness :
  (forallb is_trimmable [32; 9] = true /\ forallb is_trimmable [13; 10] = true)
  /\ isEnvTrue (Some ([32; 9] ++ js "true" ++ [13; 10])) = isEnvTrue (Some (js "true"))
  /\ isEnvTrue (Some ([32; 9] ++ [13; 10])) = true.
Proof.
  split; [split; reflexivity|].
  pose proof (isEnvTrue_ignores_surrounding_white_space
                [32; 9] (js "true") [13; 10] eq_refl eq_refl) as (Ha & Hb & _).
  split; [exact Ha | exact Hb].
Defined.

(** ** [getAuthInfo] *)

(** X2.  [getAuthInfo] of [index.js] returns exactly when the certificate
    name is set and one of the two pairs (account and password, or API
    key and issuer) is set in full while the other pair is not set at
    all; an empty value counts as not set.  What it returns is then the
    six variables as they stand in the environment, the team short name
    included whatever it is.  In every other environment it throws. *)
Theorem Pkg_getAuthInfo_accepts_exactly :
  forall (env : gmap string jsstr) (info : Pkg.AuthInfo),
    (Pkg.getAuthInfo env = Ret info
     <-> Pkg_complete (Pkg_credentials env) = true /\ info = Pkg_credentials env)
    /\ (Pkg_complete (Pkg_credentials env) = false
        <-> exists e, Pkg.getAuthInfo env = Throw e).
Proof.
  intros env info. unfold Pkg.getAuthInfo, Pkg_complete, Pkg_credentials.
  cbn [Pkg.appleId Pkg.appleIdPassword Pkg.appleApiKey Pkg.appleApiIssuer
       Pkg.teamShortName Pkg.productSignCertificateName].
  destruct (env_truthy (env !! "PSC_NAME"%string));
  destruct (env_truthy (env !! "APPLE_ID"%string));
  destruct (env_truthy (env !! "APPLE_ID_PASSWORD"%string));
  destruct (env_truthy (env !! "API_KEY_ID"%string));
  destruct (env_truthy (env !! "API_KEY_ISSUER_ID"%string));
  cbn; (split; [split|split]);
    try (intros [e He]; discriminate He);
    try (intros [H _]; discriminate H);
    try (intros H; discriminate H);
    try (intros _; eexists; reflexivity);
    try (intros [_ ->]; reflexivity);
    try (intros [= <-]; split; reflexivity).
Qed.

(** X3.  [getAuthInfo] of [part_000] returns exactly when the account,
    the password and the team identifier are all set and neither the API
    key nor the issuer is; it then returns the variables as they stand.
    Its last check can never fire: in no environment does it throw the
    error about [API_KEY_ID] and [API_KEY_ISSUER_ID]. *)
Theorem Notarize_getAuthInfo_accepts_exactly :
  forall (env : gmap string jsstr) (info : Notarize.AuthInfo),
    (Notarize.getAuthInfo env = Ret info
     <-> Notarize_complete (Notarize_credentials env) = true
         /\ info = Notarize_credentials env)
    /\ Notarize.getAuthInfo env <> Throw key_pair_error.
Proof.
  intros env info.
  unfold Notarize.getAuthInfo, Notarize_complete, Notarize_credentials.
  cbn [Notarize.appleId Notarize.appleIdPassword Notarize.appleTeamId
       Notarize.appleApiKey Notarize.appleApiIssuer Notarize.teamShortName].
  destruct (env_truthy (env !! "APPLE_ID"%string));
  destruct (env_truthy (env !! "APPLE_ID_PASSWORD"%string));
  destruct (env_truthy (env !! "APPLE_TEAM_ID"%string));
  destruct (env_truthy (env !! "API_KEY_ID"%string));
  destruct (env_truthy (env !! "API_KEY_ISSUER_ID"%string));
  cbn; (split; [split|]);
    try (intros [H _]; discriminate H);
    try (intros H; discriminate H);
    try (intros [_ ->]; reflexivity);
    try (intros [= <-]; split; reflexivity);
    try (intros H; vm_compute in H; discriminate H).
Qed.

(** ** [parseNotarizationInfo] *)

Section ParserMore.

(** The result depends on the text through the six matches only. *)
Lemma parse_ext (t1 t2 : jsstr) :
  (forall f, exec (field_re (field_name f)) t1 = exec (field_re (field_name f)) t2) ->
  parseNotarizationInfo t1 = parseNotarizationInfo t2.
Proof.
  intros H. unfold parseNotarizationInfo, matchToProperty.
  pose proof (H FRequestUUID) as H1. pose proof (H FDate) as H2.
  pose proof (H FStatus) as H3. pose proof (H FLogFileURL) as H4.
  pose proof (H FStatusCode) as H5. pose proof (H FStatusMessage) as H6.
  cbn [field_name] in H1, H2, H3, H4, H5, H6.
  rewrite H1, H2, H3, H4, H5, H6. reflexivity.
Qed.

Lemma exec_field_lines (f : Field) (first : jsstr) (mid : list jsstr) (last : jsstr) :
  no_LF first -> Forall no_LF mid -> no_LF last ->
  exec (field_re (field_name f)) (join_lines (first :: mid ++ [last]))
  = Some <$> first_capture (line_capture true (marker f)) mid.
Proof.
  intros H1 H2 H3.
  rewrite field_re_marker, exec_lines; [|apply marker_ok_field|].
  - unfold interior. cbn [tl]. by rewrite removelast_last.
  - constructor; [assumption|]. apply Forall_app_2; [assumption|].
    by repeat constructor.
Qed.

(** No property under any other key. *)
Lemma parse_lookup_other (text : jsstr) (k : string) :
  (forall f, field_key f <> k) -> parseNotarizationInfo text !! k = None.
Proof.
  intros Hk. unfold parseNotarizationInfo.
  pose proof (Hk FRequestUUID) as H1. pose proof (Hk FDate) as H2.
  pose proof (Hk FStatus) as H3. pose proof (Hk FLogFileURL) as H4.
  pose proof (Hk FStatusCode) as H5. pose proof (Hk FStatusMessage) as H6.
  cbn [field_key] in H1, H2, H3, H4, H5, H6.
  destruct (is_str _ _); [rewrite lookup_insert_ne by assumption|];
    rewrite !lookup_matchToProperty_ne by assumption; apply lookup_empty.
Qed.

Lemma capture_good (f : Field) (text v : jsstr) :
  capture_of (exec (field_re (field_name f)) text) = Some v -> good_value v.
Proof.
  rewrite field_re_marker, exec_text by apply marker_ok_field.
  destruct (first_capture _ _) as [w|] eqn:Hc; [|discriminate].
  cbn. intros [= <-].
  apply first_capture_in in Hc as (l & _ & Hl).
  by apply line_capture_field in Hl as (n & _ & Hg).
Qed.

Lemma strip_prefix_snoc (c : N) (lits : jsstr) : forall s,
  Forall (fun x => x <> c) lits ->
  strip_prefix lits (s ++ [c])
  = match strip_prefix lits s with
    | Some s' => Some (s' ++ [c])
    | None => None
    end.
Proof.
  induction lits as [|x lits IH]; intros s Hl; [reflexivity|].
  inversion Hl as [|? ? Hx Hl']; subst.
  destruct s as [|y s]; cbn [app strip_prefix].
  - replace (c =? x) with false; [reflexivity|].
    symmetry. apply N.eqb_neq. congruence.
  - destruct (y =? x); [by apply IH | reflexivity].
Qed.

Lemma drop_spaces_snoc_CR (s : jsstr) : drop_spaces (s ++ [13]) = drop_spaces s ++ [13].
Proof.
  induction s as [|x s IH]; [reflexivity|].
  cbn [app drop_spaces]. destruct (x =? SPACE); [exact IH | reflexivity].
Qed.

Lemma forallb_snoc_CR (v : jsstr) :
  forallb (fun c => negb (is_line_terminator c)) (v ++ [13]) = false.
Proof.
  induction v as [|c v IH]; [reflexivity|].
  cbn [app forallb]. rewrite IH. apply andb_false_r.
Qed.

(** A line that ends with CR carries no value. *)
Lemma line_capture_CR (f : Field) (l : jsstr) :
  line_capture true (marker f) (l ++ [13]) = None.
Proof.
  unfold line_capture. rewrite drop_spaces_snoc_CR, strip_prefix_snoc.
  - destruct (strip_prefix (marker f) (drop_spaces l)) as [v|]; [|reflexivity].
    destruct (v ++ [13]) as [|c w] eqn:Hv; [reflexivity|].
    rewrite <- Hv, forallb_snoc_CR. reflexivity.
  - destruct f; repeat constructor; discriminate.
Qed.

Lemma lookup_field_app (f : Field) (ls1 ls2 : list ReportLine) :
  lookup_field f (ls1 ++ ls2)
  = match lookup_field f ls1 with
    | Some v => Some v
    | None => lookup_field f ls2
    end.
Proof.
  induction ls1 as [|[n g v|l] ls1 IH]; [reflexivity| |exact IH].
  cbn [app lookup_field]. destruct (field_eqb f g); [reflexivity | exact IH].
Qed.

Lemma field_eqb_refl (f : Field) : field_eqb f f = true.
Proof. by destruct f. Qed.

End ParserMore.

(** X4.  [parseNotarizationInfo] reads the lines of the text that have a
    line before them and a line after them, and nothing else: whatever
    stands on the first line, or on a last line that no LF ends, is
    ignored, so that a field printed there is absent from the result.
    Each property is the value of the first of these lines that has
    the shape of its field. *)
Theorem parse_reads_interior_lines_only :
  forall (first : jsstr) (mid : list jsstr) (last : jsstr),
    no_LF first -> Forall no_LF mid -> no_LF last ->
    parseNotarizationInfo (join_lines (first :: mid ++ [last]))
    = parseNotarizationInfo (join_lines ([] :: mid ++ [[]]))
    /\ (forall f,
          parseNotarizationInfo (join_lines (first :: mid ++ [last])) !! field_key f
          = stored f <$> first_capture (line_capture true (marker f)) mid)
    /\ (forall f, parseNotarizationInfo (join_lines [first; last]) !! field_key f = None).
Proof.
  intros first mid last H1 H2 H3. split; [|split].
  - apply parse_ext. intros f.
    rewrite !exec_field_lines by (assumption || constructor). reflexivity.
  - intros f. rewrite parse_lookup, exec_field_lines by assumption.
    destruct (first_capture _ _); reflexivity.
  - intros f. rewrite parse_lookup.
    change (join_lines [first; last]) with (join_lines (first :: [] ++ [last])).
    rewrite exec_field_lines by (assumption || constructor).
    reflexivity.
Qed.

Lemma parse_reads_interior_lines_only_witness :
  (no_LF (js "Status: success") /\ Forall no_LF [js "   RequestUUID: abc"]
   /\ no_LF (js "Status Message: Package Approved"))
  /\ parseNotarizationInfo
       (join_lines (js "Status: success" :: [js "   RequestUUID: abc"]
                    ++ [js "Status Message: Package Approved"]))
     = parseNotarizationInfo (join_lines ([] :: [js "   RequestUUID: abc"] ++ [[]])).
Proof.
  assert (Ha : no_LF (js "Status: success"))
    by (unfold no_LF; repeat constructor; discriminate).
  assert (Hb : Forall no_LF [js "   RequestUUID: abc"])
    by (unfold no_LF; repeat constructor; discriminate).
  assert (Hc : no_LF (js "Status Message: Package Approved"))
    by (unfold no_LF; repeat constructor; discriminate).
  split; [auto|].
  exact (proj1 (parse_reads_interior_lines_only _ _ _ Ha Hb Hc)).
Defined.

(** X5.  Whatever the text, every property of the parsed record is one
    of the six, and its value is made from a text that is not empty and
    holds no line terminator: a string for the request identifier, the
    status and the status message, a Date for the date, a number for the
    status code, and for the log URL a string other than [(null)], or
    [null]. *)
Theorem parse_properties_are_well_formed :
  forall (text : jsstr) (k : string) (x : JsVal),
    parseNotarizationInfo text !! k = Some x ->
    exists f v, k = field_key f /\ good_value v /\ x = stored f v
                /\ (f = FLogFileURL -> x <> JStr (js "(null)")).
Proof.
  intros text k x Hx.
  assert (Hf : forall f, k = field_key f ->
             exists v, good_value v /\ x = stored f v).
  { intros f ->. rewrite parse_lookup in Hx.
    destruct (capture_of _) as [v|] eqn:Hc; [|discriminate].
    injection Hx as <-. exists v. split; [by eapply capture_good | reflexivity]. }
  destruct (decide (k = field_key FLogFileURL)) as [Hk|Hk].
  - destruct (Hf _ Hk) as (v & Hg & ->). exists FLogFileURL, v.
    split; [assumption|]. split; [assumption|]. split; [reflexivity|].
    intros _. cbn [stored].
    destruct (bool_decide (v = js "(null)")) eqn:Hb; [intros H; discriminate H|].
    apply bool_decide_eq_false in Hb. congruence.
  - assert (Hsome : exists f, k = field_key f).
    { destruct (decide (k = field_key FRequestUUID)); [eauto|].
      destruct (decide (k = field_key FDate)); [eauto|].
      destruct (decide (k = field_key FStatus)); [eauto|].
      destruct (decide (k = field_key FStatusCode)); [eauto|].
      destruct (decide (k = field_key FStatusMessage)); [eauto|].
      exfalso. rewrite parse_lookup_other in Hx; [discriminate|].
      intros f. destruct f; congruence. }
    destruct Hsome as [f ->]. destruct (Hf f eq_refl) as (v & Hg & ->).
    exists f, v. split; [reflexivity|]. split; [assumption|].
    split; [reflexivity|]. congruence.
Qed.

Lemma parse_properties_are_well_formed_witness :
  parseNotarizationInfo approved_report !! "status"%string = Some (JStr (js "success"))
  /\ exists f v, "status"%string = field_key f /\ good_value v
                 /\ JStr (js "success") = stored f v
                 /\ (f = FLogFileURL -> JStr (js "success") <> JStr (js "(null)")).
Proof.
  assert (H : parseNotarizationInfo approved_report !! "status"%string
              = Some (JStr (js "success"))) by (vm_compute; reflexivity).
  split; [exact H|].
  exact (parse_properties_are_well_formed approved_report "status" _ H).
Defined.

Section CarriageReturns.

Lemma first_capture_CR (f : Field) (mid : list jsstr) :
  first_capture (line_capture true (marker f)) (map (fun l => l ++ [13]) mid) = None.
Proof.
  apply first_capture_none, Forall_map, Forall_forall.
  intros l _. apply line_capture_CR.
Qed.

Lemma no_LF_CR (mid : list jsstr) :
  Forall no_LF mid -> Forall no_LF (map (fun l => l ++ [13]) mid).
Proof.
  intros H. apply Forall_map. eapply Forall_impl; [exact H|].
  intros l Hl. apply Forall_app_2; [exact Hl|]. by repeat constructor.
Qed.

Lemma parse_CR (first : jsstr) (mid : list jsstr) (last : jsstr) :
  no_LF first -> Forall no_LF mid -> no_LF last ->
  parseNotarizationInfo (join_lines (first :: map (fun l => l ++ [13]) mid ++ [last]))
  = ∅.
Proof.
  intros H1 H2 H3.
  transitivity (parseNotarizationInfo (join_lines ([] :: [] ++ [[]])));
    [|vm_compute; reflexivity].
  apply parse_ext. intros f.
  rewrite !exec_field_lines by (try apply no_LF_CR; assumption || constructor).
  by rewrite first_capture_CR.
Qed.

End CarriageReturns.

(** X6.  A report whose lines end with CR LF is not understood: the
    value of a field has to run up to the LF, and it cannot hold a CR.
    When every line between the first and the last ends with CR, the
    parsed record is empty, whatever the lines say, and both pollers
    answer such a report by throwing [Unrecognized notarization status:
    "undefined"], after one query and without waiting. *)
Theorem report_with_CRLF_lines_is_not_understood :
  forall (first : jsstr) (mid : list jsstr) (last : jsstr),
    no_LF first -> Forall no_LF mid -> no_LF last ->
    let text := join_lines (first :: map (fun l => l ++ [13]) mid ++ [last]) in
    parseNotarizationInfo text = ∅
    /\ (forall uuid opts rest,
          Pkg.waitForNotarize uuid opts (Done text :: rest)
          = ([Pkg.query uuid opts], rest,
             Throw (Error (unrecognized_text (js "undefined")))))
    /\ (forall uuid opts rest,
          Notarize.waitForNotarize uuid opts (Done text :: rest)
          = ([Notarize.query uuid opts], rest,
             Throw (Error (unrecognized_text (js "undefined"))))).
Proof.
  intros first mid last H1 H2 H3 text.
  assert (H : parseNotarizationInfo text = ∅) by (by apply parse_CR).
  split; [exact H|].
  split; intros uuid opts rest;
    cbn [Pkg.waitForNotarize Notarize.waitForNotarize]; rewrite H; reflexivity.
Qed.

Lemma report_with_CRLF_lines_is_not_understood_witness :
  (no_LF (js "No errors getting notarization info." ++ [13])
   /\ Forall no_LF [js "   RequestUUID: abc"; js "        Status: success"]
   /\ no_LF [])
  /\ parseNotarizationInfo
       (join_lines ((js "No errors getting notarization info." ++ [13])
                    :: map (fun l => l ++ [13])
                         [js "   RequestUUID: abc"; js "        Status: success"]
                    ++ [[]]))
     = ∅.
Proof.
  assert (Ha : no_LF (js "No errors getting notarization info." ++ [13]))
    by (unfold no_LF; repeat constructor; discriminate).
  assert (Hb : Forall no_LF [js "   RequestUUID: abc"; js "        Status: success"])
    by (unfold no_LF; repeat constructor; discriminate).
  assert (Hc : no_LF []) by constructor.
  split; [auto|].
  exact (proj1 (report_with_CRLF_lines_is_not_understood _ _ _ Ha Hb Hc)).
Defined.

(** X7.  When a report has several lines for one field, the first one
    is the one that is read: the lines after it do not change the
    property, whatever they are.  A field that no line carries is
    absent from the record. *)
Theorem parse_reads_the_first_line_of_a_field :
  forall first (ls1 ls2 : list ReportLine) last (n : nat) (f : Field) (v : jsstr),
    well_formed_report first (ls1 ++ FieldLine n f v :: ls2) last ->
    lookup_field f ls1 = None ->
    parseNotarizationInfo (report first (ls1 ++ FieldLine n f v :: ls2) last)
      !! field_key f = Some (stored f v)
    /\ parseNotarizationInfo (report first ls1 last) !! field_key f = None.
Proof.
  intros first ls1 ls2 last n f v Hwf Hnone.
  assert (Hwf1 : well_formed_report first ls1 last).
  { destruct Hwf as (Ha & Hb & Hc). split; [assumption|]. split; [|assumption].
    by apply Forall_app in Hb as [Hb _]. }
  split.
  - rewrite parse_report, lookup_field_app, Hnone by assumption.
    cbn [lookup_field]. by rewrite field_eqb_refl.
  - by rewrite parse_report, Hnone.
Qed.

Lemma parse_reads_the_first_line_of_a_field_witness :
  (well_formed_report sample_header
     ([Other []] ++ FieldLine 8 FStatus (js "in progress")
                 :: [FieldLine 8 FStatus (js "success")]) []
   /\ lookup_field FStatus [Other []] = None)
  /\ parseNotarizationInfo
       (report sample_header
          ([Other []] ++ FieldLine 8 FStatus (js "in progress")
                      :: [FieldLine 8 FStatus (js "success")]) [])
       !! field_key FStatus
     = Some (stored FStatus (js "in progress")).
Proof.
  assert (Hwf : well_formed_report sample_header
                  ([Other []] ++ FieldLine 8 FStatus (js "in progress")
                              :: [FieldLine 8 FStatus (js "success")]) []).
  { split; [unfold no_LF, sample_header; repeat constructor; discriminate|].
    split; [|constructor].
    repeat constructor; try discriminate.
    intros f. destruct f; reflexivity. }
  split; [split; [exact Hwf | reflexivity]|].
  exact (proj1 (parse_reads_the_first_line_of_a_field
                  _ _ _ _ _ _ _ Hwf eq_refl)).
Defined.

(** ** [startNotarizingPackage] *)

Section UploadMore.

Lemma strip_prefix_self (lits v : jsstr) : strip_prefix lits (lits ++ v) = Some v.
Proof.
  induction lits as [|c lits IH]; [reflexivity|].
  cbn [app strip_prefix]. by rewrite N.eqb_refl.
Qed.

Lemma line_capture_uuid (u : jsstr) :
  good_value u -> line_capture false uuid_marker (uuid_marker ++ u) = Some u.
Proof.
  intros Hu. unfold line_capture. rewrite strip_prefix_self.
  by apply good_value_capture.
Qed.

Lemma no_uuid_capture (ls : list jsstr) :
  no_uuid_among ls -> first_capture (line_capture false uuid_marker) ls = None.
Proof.
  intros Hno. destruct (first_capture _ _) as [v|] eqn:Hc; [|reflexivity].
  apply first_capture_in in Hc as (l & Hin & Hl).
  apply line_capture_plain in Hl as [-> _].
  exfalso. by apply (Hno _ v Hin).
Qed.

Lemma exec_upload_output first before u after last :
  no_LF first -> Forall no_LF before -> good_value u -> Forall no_LF after ->
  no_LF last -> no_uuid_among before ->
  exec uuid_re (upload_output first before u after last) = Some (Some u).
Proof.
  intros H1 H2 Hu H3 H4 Hno. unfold upload_output.
  rewrite uuid_re_line, exec_lines; [|apply marker_ok_uuid|].
  - unfold interior. cbn [tl].
    replace (before ++ (uuid_marker ++ u) :: after ++ [last])
      with ((before ++ (uuid_marker ++ u) :: after) ++ [last])
      by (by rewrite <- app_assoc).
    rewrite removelast_last, first_capture_app, no_uuid_capture by assumption.
    cbn [first_capture]. by rewrite line_capture_uuid.
  - constructor; [assumption|]. apply Forall_app_2; [assumption|].
    constructor; [by apply no_LF_uuid_line, good_value_no_LF|].
    apply Forall_app_2; [assumption|]. by repeat constructor.
Qed.

(** What a match of the identifier pattern says about the text. *)
Lemma exec_uuid_good (text : jsstr) (m : option jsstr) :
  exec uuid_re text = Some m ->
  exists pre u post,
    m = Some u /\ good_value u /\ text = pre ++ LF :: uuid_marker ++ u ++ LF :: post.
Proof.
  intros H. destruct (exec_uuid_some _ _ H) as (pre & u & post & -> & _ & Heq).
  exists pre, u, post. split; [reflexivity|]. split; [|assumption].
  rewrite uuid_re_line, exec_text in H by apply marker_ok_uuid.
  destruct (first_capture _ _) as [v|] eqn:Hc; [|discriminate].
  injection H as ->.
  apply first_capture_in in Hc as (l & _ & Hl).
  by eapply line_capture_good.
Qed.

End UploadMore.

(** X8.  When the upload tool exits successfully and its output has a
    line [RequestUUID = u], with a line before it and a line after it,
    [startNotarizingPackage] returns [u], in both hooks: [u] is the whole
    rest of that line, and of several such lines the first one is read.
    The upload is the only call made. *)
Theorem startNotarizingPackage_returns_the_identifier :
  forall pkgPath appId first before u after last (rest : list Reply),
    no_LF first -> Forall no_LF before -> good_value u -> Forall no_LF after ->
    no_LF last -> no_uuid_among before ->
    (forall opts,
        Pkg.startNotarizingPackage pkgPath appId opts
          (Done (upload_output first before u after last) :: rest)
        = ([Exec (js "xcrun") (Pkg.upload_args pkgPath appId opts) None], rest,
           Ret (JStr u)))
    /\ (forall opts,
          Notarize.startNotarizingPackage pkgPath appId opts
            (Done (upload_output first before u after last) :: rest)
          = ([Exec (js "xcrun") (Notarize.upload_args pkgPath appId opts) None], rest,
             Ret (JStr u))).
Proof.
  intros pkgPath appId first before u after last rest H1 H2 Hu H3 H4 Hno.
  split; intros opts.
  - rewrite Pkg_start_done, exec_upload_output by assumption. reflexivity.
  - rewrite Notarize_start_done, exec_upload_output by assumption. reflexivity.
Qed.

Lemma startNotarizingPackage_returns_the_identifier_witness :
  Pkg.startNotarizingPackage sample_pkg sample_app pkg_key_options
    [Done (upload_output (js "No errors uploading '/dist/App.pkg'.") []
             (js "2de4c6e4-8f6a") [js "RequestUUID = other"] [])]
  = ([Exec (js "xcrun") (Pkg.upload_args sample_pkg sample_app pkg_key_options) None],
     [], Ret (JStr (js "2de4c6e4-8f6a"))).
Proof.
  refine (proj1 (startNotarizingPackage_returns_the_identifier
                   sample_pkg sample_app (js "No errors uploading '/dist/App.pkg'.") []
                   (js "2de4c6e4-8f6a") [js "RequestUUID = other"] [] []
                   _ _ _ _ _ _) pkg_key_options).
  - unfold no_LF. repeat constructor; discriminate.
  - constructor.
  - split; [discriminate|]. repeat constructor.
  - unfold no_LF. repeat constructor; discriminate.
  - constructor.
  - intros l v [].
Defined.

(** X9.  Whatever the upload tool answers, [startNotarizingPackage]
    makes one call, the upload, and takes one reply.  It returns only a
    string that is not empty and holds no line terminator, read after
    [RequestUUID = ] on a line of the output that has a line before it
    and a line after it; every error it throws is the upload failure. *)
Theorem startNotarizingPackage_outcomes :
  forall pkgPath appId (script : list Reply),
    (forall opts,
        let r := Pkg.startNotarizingPackage pkgPath appId opts script in
        r.1.1 = [Exec (js "xcrun") (Pkg.upload_args pkgPath appId opts) None]
        /\ r.1.2 = tl script
        /\ match r.2 with
           | Ret x => exists pre u post,
               x = JStr u /\ good_value u
               /\ script = Done (pre ++ LF :: uuid_marker ++ u ++ LF :: post) :: tl script
           | Throw e => exists inner, e = Error (upload_failed_message inner)
           | Pending => script = []
           end)
    /\ (forall opts,
          let r := Notarize.startNotarizingPackage pkgPath appId opts script in
          r.1.1 = [Exec (js "xcrun") (Notarize.upload_args pkgPath appId opts) None]
          /\ r.1.2 = tl script
          /\ match r.2 with
             | Ret x => exists pre u post,
                 x = JStr u /\ good_value u
                 /\ script = Done (pre ++ LF :: uuid_marker ++ u ++ LF :: post) :: tl script
             | Throw e => exists inner, e = Error (upload_failed_message inner)
             | Pending => script = []
             end).
Proof.
  intros pkgPath appId script.
  split; intros opts r; subst r; destruct script as [|[out|e] rest].
  - repeat split.
  - rewrite Pkg_start_done. destruct (exec uuid_re out) as [m|] eqn:Hm.
    + apply exec_uuid_good in Hm as (pre & u & post & -> & Hu & ->).
      repeat split; try apply Hu. exists pre, u, post. by repeat split; try apply Hu.
    + repeat split. eexists; reflexivity.
  - rewrite Pkg_start_failed. repeat split. eexists; reflexivity.
  - repeat split.
  - rewrite Notarize_start_done. destruct (exec uuid_re out) as [m|] eqn:Hm.
    + apply exec_uuid_good in Hm as (pre & u & post & -> & Hu & ->).
      repeat split; try apply Hu. exists pre, u, post. by repeat split; try apply Hu.
    + repeat split. eexists; reflexivity.
  - rewrite Notarize_start_failed. repeat split. eexists; reflexivity.
Qed.

(** ** [waitForNotarize] *)

Section PollerMore.

Lemma is_str_true (x : JsVal) (lit : jsstr) : is_str x lit = true -> x = JStr lit.
Proof.
  destruct x; cbn; try discriminate.
  intros H. apply bool_decide_eq_true in H. by subst.
Qed.

Lemma success_not_in_progress (t : jsstr) :
  says_success t = true ->
  is_str (prop (parseNotarizationInfo t) "status") (js "in progress") = false.
Proof. intros H. apply is_str_true in H. rewrite H. reflexivity. Qed.

(** The status check emits nothing, takes no reply and always ends. *)
Lemma check_status_shape (info : gmap string JsVal) (script : list Reply) :
  exists res, check_status info script = ([], script, res) /\ res <> Pending
              /\ (res = Ret tt <-> is_str (prop info "status") (js "success") = true).
Proof.
  unfold check_status.
  destruct (is_str (prop info "status") (js "invalid")) eqn:Hinv.
  - eexists. split; [reflexivity|]. split; [discriminate|].
    split; [discriminate|]. intros H.
    apply is_str_true in Hinv. rewrite Hinv in H. discriminate H.
  - destruct (is_str (prop info "status") (js "success")) eqn:Hs; cbn [negb].
    + eexists. split; [reflexivity|]. split; [discriminate|]. by split.
    + eexists. split; [reflexivity|]. split; [discriminate|].
      split; discriminate.
Qed.

Lemma after_eq {A} (e : list Event) (r : list Event * list Reply * Res A) :
  after e r = (e ++ r.1.1, r.1.2, r.2).
Proof. by destruct r as [[ev s] res]. Qed.

Lemma Notarize_wait_polling uuid opts (rs rest : list Reply) :
  forallb keeps_polling rs = true ->
  Notarize.waitForNotarize uuid opts (rs ++ rest)
  = after (retries (Notarize.query uuid opts) (length rs))
          (Notarize.waitForNotarize uuid opts rest).
Proof.
  induction rs as [|[t|e] rs IH]; intros H; [by rewrite after_nil| |];
    cbn [forallb keeps_polling] in H; apply andb_true_iff in H as [Hr Hrs];
    cbn [app Notarize.waitForNotarize length retries].
  - cbn [says_in_progress] in Hr. rewrite Hr, IH, after_after by assumption.
    reflexivity.
  - rewrite IH, after_after by assumption. reflexivity.
Qed.

Lemma Notarize_wait_success uuid opts (t : jsstr) (rest : list Reply) :
  says_success t = true ->
  Notarize.waitForNotarize uuid opts (Done t :: rest)
  = ([Notarize.query uuid opts], rest, Ret tt).
Proof.
  intros H. cbn [Notarize.waitForNotarize].
  rewrite success_not_in_progress by assumption.
  rewrite check_status_success; [reflexivity|]. by apply is_str_true.
Qed.

Lemma Pkg_wait_success uuid opts (t : jsstr) (rest : list Reply) :
  says_success t = true ->
  Pkg.waitForNotarize uuid opts (Done t :: rest)
  = ([Pkg.query uuid opts], rest, Ret tt).
Proof.
  intros H. cbn [Pkg.waitForNotarize].
  rewrite success_not_in_progress by assumption.
  rewrite check_status_success; [reflexivity|]. by apply is_str_true.
Qed.

Lemma Pkg_wait_polling uuid opts (rs rest : list Reply) :
  forallb keeps_polling rs = true ->
  Pkg.waitForNotarize uuid opts (rs ++ rest)
  = let r := Pkg.waitForNotarize uuid opts rest in
    (retries (Pkg.query uuid opts) (length rs) ++ r.1.1, r.1.2,
     fallen_through (existsb says_in_progress rs) r.2).
Proof.
  induction rs as [|[t|e] rs IH]; intros H.
  - cbn. by destruct (Pkg.waitForNotarize uuid opts rest) as [[ev s] [[]|e|]].
  - cbn [forallb keeps_polling] in H. apply andb_true_iff in H as [Hr Hrs].
    cbn [says_in_progress] in Hr.
    cbn [app Pkg.waitForNotarize length retries existsb says_in_progress].
    rewrite Hr, IH by assumption. cbv zeta.
    destruct (Pkg.waitForNotarize uuid opts rest) as [[ev s] [[]|e|]];
      cbn [fst snd fallen_through orb]; try reflexivity.
    destruct (existsb says_in_progress rs); cbn [fallen_through]; [reflexivity|].
    rewrite check_status_in_progress by (by apply is_str_true).
    cbn [after]. by rewrite app_nil_r.
  - cbn [forallb keeps_polling] in H. apply andb_true_iff in H as [_ Hrs].
    cbn [app Pkg.waitForNotarize length retries existsb says_in_progress orb].
    rewrite IH by assumption. cbv zeta. reflexivity.
Qed.

End PollerMore.

(** ** The stages, one by one *)

Section Stages.

Variable path : PathApi.

Lemma bind_ret_eq {A B} (m : IO A) (f : A -> IO B) (script : list Reply) ev s' a :
  m script = (ev, s', Ret a) -> bind m f script = after ev (f a s').
Proof. intros H. unfold bind, after. rewrite H. reflexivity. Qed.

Lemma bind_pending {A B} (m : IO A) (f : A -> IO B) (script : list Reply) ev s' :
  m script = (ev, s', Pending) -> bind m f script = (ev, s', Pending).
Proof. intros H. unfold bind. rewrite H. reflexivity. Qed.

Lemma bind_inv_ret {A B} (m : IO A) (f : A -> IO B) (script : list Reply) ev rest b :
  bind m f script = (ev, rest, Ret b) ->
  exists ev1 s1 a ev2,
    m script = (ev1, s1, Ret a) /\ f a s1 = (ev2, rest, Ret b) /\ ev = ev1 ++ ev2.
Proof.
  unfold bind. destruct (m script) as [[ev1 s1] [a|e|]]; [|discriminate..].
  destruct (f a s1) as [[ev2 s2] r] eqn:Hf. intros [= <- <- ->].
  exists ev1, s1, a, ev2. auto.
Qed.

Lemma call_inv_ret (e : Event) (script : list Reply) ev rest out :
  call e script = (ev, rest, Ret out) -> script = Done out :: rest /\ ev = [e].
Proof.
  destruct script as [|[o|err] s]; cbn; [discriminate| |discriminate].
  intros [= <- <- <-]. auto.
Qed.

Lemma renameSync_done (a b : jsstr) out (rest : list Reply) :
  renameSync a b (Done out :: rest) = ([Rename a b], rest, Ret tt).
Proof. reflexivity. Qed.

Lemma renameSync_failed (a b : jsstr) e (rest : list Reply) :
  renameSync a b (Failed e :: rest) = ([Rename a b], rest, Throw e).
Proof. reflexivity. Qed.

Lemma renameSync_inv_ret (a b : jsstr) (script : list Reply) ev rest u :
  renameSync a b script = (ev, rest, Ret u) ->
  exists out, script = Done out :: rest /\ ev = [Rename a b].
Proof.
  destruct script as [|[o|err] s]; cbn; [discriminate| |discriminate].
  intros [= <- <-]. eauto.
Qed.

Lemma stapleApp_done (pkgPath : jsstr) out (rest : list Reply) :
  stapleApp path pkgPath (Done out :: rest) = ([staple_call path pkgPath], rest, Ret tt).
Proof. reflexivity. Qed.

Lemma stapleApp_failed (pkgPath : jsstr) e (rest : list Reply) :
  stapleApp path pkgPath (Failed e :: rest)
  = ([staple_call path pkgPath], rest, Throw (Error (staple_failed_message e))).
Proof. reflexivity. Qed.

Lemma stapleApp_inv_ret (pkgPath : jsstr) (script : list Reply) ev rest u :
  stapleApp path pkgPath script = (ev, rest, Ret u) ->
  exists out, script = Done out :: rest /\ ev = [staple_call path pkgPath].
Proof.
  destruct script as [|[o|err] s]; cbn; [discriminate| |discriminate].
  intros [= <- <-]. eauto.
Qed.

Lemma signPackage_inv_ret (c : jsstr) (script : list Reply) ev rest u :
  Pkg.signPackage (JStr c) script = (ev, rest, Ret u) ->
  exists out, script = Done out :: rest /\ ev = [signing_call].
Proof.
  rewrite signPackage_string. destruct script as [|[o|err] s]; [discriminate| |discriminate].
  intros [= <- <-]. eauto.
Qed.

Lemma Pkg_start_inv_ret pkgPath appId opts (script : list Reply) ev rest x :
  Pkg.startNotarizingPackage pkgPath appId opts script = (ev, rest, Ret x) ->
  exists out u,
    script = Done out :: rest /\ exec uuid_re out = Some (Some u) /\ x = JStr u
    /\ ev = [Pkg_upload_call pkgPath appId opts].
Proof.
  destruct script as [|[out|e] s]; [discriminate| |discriminate].
  rewrite Pkg_start_done. destruct (exec uuid_re out) as [m|] eqn:Hm; [|discriminate].
  intros [= <- <- <-].
  destruct (exec_uuid_good _ _ Hm) as (pre & u & post & -> & _ & _).
  exists out, u. auto.
Qed.

Lemma Notarize_start_inv_ret pkgPath appId opts (script : list Reply) ev rest x :
  Notarize.startNotarizingPackage pkgPath appId opts script = (ev, rest, Ret x) ->
  exists out u,
    script = Done out :: rest /\ exec uuid_re out = Some (Some u) /\ x = JStr u
    /\ ev = [Notarize_upload_call pkgPath appId opts].
Proof.
  destruct script as [|[out|e] s]; [discriminate| |discriminate].
  rewrite Notarize_start_done. destruct (exec uuid_re out) as [m|] eqn:Hm; [|discriminate].
  intros [= <- <- <-].
  destruct (exec_uuid_good _ _ Hm) as (pre & u & post & -> & _ & _).
  exists out, u. auto.
Qed.

(** When a poller returns: the replies it took, and its events. *)
Lemma Pkg_wait_inv_ret uuid opts : forall (script : list Reply) ev rest,
  Pkg.waitForNotarize uuid opts script = (ev, rest, Ret tt) ->
  exists errs t,
    script = map Failed errs ++ Done t :: rest /\ says_success t = true
    /\ ev = retries (Pkg.query uuid opts) (length errs) ++ [Pkg.query uuid opts].
Proof.
  assert (Hshape : forall script rest,
             (exists ev, Pkg.waitForNotarize uuid opts script = (ev, rest, Ret tt)) ->
             exists errs t,
               script = map Failed errs ++ Done t :: rest /\ says_success t = true).
  { induction script as [|[t|e] script IH]; intros rest [ev H].
    - discriminate H.
    - destruct (is_str (prop (parseNotarizationInfo t) "status") (js "in progress"))
        eqn:Hp.
      + exfalso. apply is_str_true in Hp.
        apply (Pkg_wait_in_progress_never_returns uuid opts t script Hp).
        by rewrite H.
      + cbn [Pkg.waitForNotarize] in H. rewrite Hp in H.
        destruct (check_status_shape (parseNotarizationInfo t) script)
          as (res & Hc & _ & Hres).
        rewrite Hc in H. cbn in H. injection H as _ <- ->.
        exists [], t. split; [reflexivity|]. by apply Hres.
    - cbn [Pkg.waitForNotarize] in H. rewrite after_eq in H.
      injection H as _ H2 H3.
      destruct (IH rest) as (errs & t & -> & Ht).
      { exists (Pkg.waitForNotarize uuid opts script).1.1.
        destruct (Pkg.waitForNotarize uuid opts script) as [[ev' s'] r].
        cbn in H2, H3. by subst. }
      exists (e :: errs), t. by split. }
  intros script ev rest H.
  destruct (Hshape script rest) as (errs & t & -> & Ht); [by eexists|].
  exists errs, t. split; [reflexivity|]. split; [assumption|].
  rewrite Pkg_wait_failures, Pkg_wait_success in H by assumption.
  cbn [after] in H. by injection H as <-.
Qed.

Lemma Notarize_wait_inv_ret uuid opts : forall (script : list Reply) ev rest,
  Notarize.waitForNotarize uuid opts script = (ev, rest, Ret tt) ->
  exists rs t,
    script = rs ++ Done t :: rest /\ forallb keeps_polling rs = true
    /\ says_success t = true
    /\ ev = retries (Notarize.query uuid opts) (length rs) ++ [Notarize.query uuid opts].
Proof.
  assert (Hshape : forall script rest,
             (exists ev, Notarize.waitForNotarize uuid opts script = (ev, rest, Ret tt)) ->
             exists rs t,
               script = rs ++ Done t :: rest
               /\ forallb keeps_polling rs = true /\ says_success t = true).
  { induction script as [|r script IH]; intros rest [ev H]; [discriminate H|].
    destruct (keeps_polling r) eqn:Hr.
    - assert (Hin : Notarize.waitForNotarize uuid opts (r :: script)
                    = after [Notarize.query uuid opts; Delay 30000]
                            (Notarize.waitForNotarize uuid opts script)).
      { destruct r as [t|e]; cbn [Notarize.waitForNotarize]; [|reflexivity].
        cbn [keeps_polling says_in_progress] in Hr. by rewrite Hr. }
      rewrite Hin, after_eq in H. injection H as _ H2 H3.
      destruct (IH rest) as (rs & t & -> & Hrs & Ht).
      { exists (Notarize.waitForNotarize uuid opts script).1.1.
        destruct (Notarize.waitForNotarize uuid opts script) as [[ev' s'] r'].
        cbn in H2, H3. by subst. }
      exists (r :: rs), t. split; [reflexivity|]. split; [|assumption].
      cbn [forallb]. by rewrite Hr, Hrs.
    - destruct r as [t|e]; [|discriminate Hr].
      cbn [keeps_polling says_in_progress] in Hr.
      cbn [Notarize.waitForNotarize] in H. rewrite Hr in H.
      destruct (check_status_shape (parseNotarizationInfo t) script)
        as (res & Hc & _ & Hres).
      rewrite Hc in H. cbn in H. injection H as _ <- ->.
      exists [], t. split; [reflexivity|]. split; [reflexivity|]. by apply Hres. }
  intros script ev rest H.
  destruct (Hshape script rest) as (rs & t & -> & Hrs & Ht); [by eexists|].
  exists rs, t. split; [reflexivity|]. split; [assumption|]. split; [assumption|].
  rewrite Notarize_wait_polling, Notarize_wait_success in H by assumption.
  cbn [after] in H. by injection H as <-.
Qed.

End Stages.

(** X10.  The poller of [part_000] treats a report that says
    ["in progress"] as it treats a failed query: after any number of
    such replies, in any order, it has sent one query for each, waited
    30000 ms after each, and goes on as a fresh call would.  So it
    returns as soon as a report says ["success"], however many rounds
    came before, having taken exactly the replies up to that one. *)
Theorem Notarize_waitForNotarize_polls_until_settled :
  forall uuid opts (rs : list Reply),
    forallb keeps_polling rs = true ->
    (forall rest,
        Notarize.waitForNotarize uuid opts (rs ++ rest)
        = after (retries (Notarize.query uuid opts) (length rs))
                (Notarize.waitForNotarize uuid opts rest))
    /\ (forall t rest, says_success t = true ->
          Notarize.waitForNotarize uuid opts (rs ++ Done t :: rest)
          = (retries (Notarize.query uuid opts) (length rs)
             ++ [Notarize.query uuid opts], rest, Ret tt))
    /\ Notarize.waitForNotarize uuid opts rs
       = (retries (Notarize.query uuid opts) (length rs)
          ++ [Notarize.query uuid opts], [], Pending).
Proof.
  intros uuid opts rs Hrs. split; [|split].
  - intros rest. by apply Notarize_wait_polling.
  - intros t rest Ht.
    rewrite Notarize_wait_polling, Notarize_wait_success by assumption.
    reflexivity.
  - rewrite <- (app_nil_r rs) at 1. rewrite Notarize_wait_polling by assumption.
    reflexivity.
Qed.

Lemma Notarize_waitForNotarize_polls_until_settled_witness :
  Notarize.waitForNotarize sample_uuid notarize_id_options
    ([Done pending_report; Failed (Error (js "timeout")); Done pending_report]
     ++ Done approved_report :: [])
  = (retries (Notarize.query sample_uuid notarize_id_options) 3
     ++ [Notarize.query sample_uuid notarize_id_options], [], Ret tt).
Proof.
  refine (proj1 (proj2 (Notarize_waitForNotarize_polls_until_settled
                          sample_uuid notarize_id_options
                          [Done pending_report; Failed (Error (js "timeout"));
                           Done pending_report] _)) approved_report [] _);
    vm_compute; reflexivity.
Defined.

(** X11.  The poller of [index.js] sends the same queries and takes the
    same replies, but it never returns once a report has said
    ["in progress"]: after any number of failed queries and
    ["in progress"] reports, if the calls it awaited return, it throws
    [Unrecognized notarization status: "in progress"] when one of the
    replies was such a report, and returns when all were failures;
    an error of the awaited calls is passed on. *)
Theorem Pkg_waitForNotarize_falls_through_after_any_rounds :
  forall uuid opts (rs rest : list Reply),
    forallb keeps_polling rs = true ->
    let r := Pkg.waitForNotarize uuid opts rest in
    Pkg.waitForNotarize uuid opts (rs ++ rest)
    = (retries (Pkg.query uuid opts) (length rs) ++ r.1.1, r.1.2,
       fallen_through (existsb says_in_progress rs) r.2).
Proof. intros uuid opts rs rest Hrs. by apply Pkg_wait_polling. Qed.

Lemma Pkg_waitForNotarize_falls_through_after_any_rounds_witness :
  Pkg.waitForNotarize sample_uuid pkg_key_options
    ([Failed (Error (js "timeout")); Done pending_report] ++ [Done approved_report])
  = (retries (Pkg.query sample_uuid pkg_key_options) 2
     ++ [Pkg.query sample_uuid pkg_key_options], [],
     Throw (Error (unrecognized_text (js "in progress")))).
Proof.
  refine (eq_trans
            (Pkg_waitForNotarize_falls_through_after_any_rounds
               sample_uuid pkg_key_options
               [Failed (Error (js "timeout")); Done pending_report]
               [Done approved_report] _) _);
    vm_compute; reflexivity.
Defined.

(** X12.  The poller of [index.js] returns in exactly one situation:
    every query before the last one failed, and the reply to the last
    one is a report that says ["success"].  The replies after that one
    are left for the caller. *)
Theorem Pkg_waitForNotarize_returns_exactly :
  forall uuid opts (script rest : list Reply),
    (exists ev, Pkg.waitForNotarize uuid opts script = (ev, rest, Ret tt))
    <-> exists errs t,
          script = map Failed errs ++ Done t :: rest /\ says_success t = true.
Proof.
  intros uuid opts script rest. split.
  - intros [ev H].
    apply Pkg_wait_inv_ret in H as (errs & t & Hs & Ht & _). eauto.
  - intros (errs & t & -> & Ht).
    rewrite Pkg_wait_failures, Pkg_wait_success by assumption.
    eexists; reflexivity.
Qed.

(** X13.  The poller of [part_000] returns in exactly one situation:
    every reply before the last one was a failed query or a report that
    says ["in progress"], and the last one is a report that says
    ["success"]. *)
Theorem Notarize_waitForNotarize_returns_exactly :
  forall uuid opts (script rest : list Reply),
    (exists ev, Notarize.waitForNotarize uuid opts script = (ev, rest, Ret tt))
    <-> exists rs t,
          script = rs ++ Done t :: rest
          /\ forallb keeps_polling rs = true /\ says_success t = true.
Proof.
  intros uuid opts script rest. split.
  - intros [ev H].
    apply Notarize_wait_inv_ret in H as (rs & t & Hs & Hrs & Ht & _). eauto.
  - intros (rs & t & -> & Hrs & Ht).
    rewrite Notarize_wait_polling, Notarize_wait_success by assumption.
    eexists; reflexivity.
Qed.

(** X14.  The shape of every run of the two pollers: the events are
    queries with a wait of 30000 ms between two of them, all for the
    same request and with the same credentials, and nothing else;
    each query takes one reply; the call is left waiting exactly when
    the replies run out, and otherwise it ends with its last query. *)
Theorem waitForNotarize_trace_shape :
  forall uuid (script : list Reply),
    (forall opts,
        let r := Pkg.waitForNotarize uuid opts script in
        exists n,
          r.1.1 = retries (Pkg.query uuid opts) n ++ [Pkg.query uuid opts]
          /\ r.1.2 = drop (S n) script
          /\ (r.2 = Pending <-> (length script <= n)%nat)
          /\ (n <= length script)%nat)
    /\ (forall opts,
          let r := Notarize.waitForNotarize uuid opts script in
          exists n,
            r.1.1 = retries (Notarize.query uuid opts) n ++ [Notarize.query uuid opts]
            /\ r.1.2 = drop (S n) script
            /\ (r.2 = Pending <-> (length script <= n)%nat)
            /\ (n <= length script)%nat).
Proof.
  intros uuid script. split; intros opts r; subst r.
  - induction script as [|[t|e] script IH].
    + exists 0%nat. cbn. repeat split; auto.
    + cbn [Pkg.waitForNotarize].
      destruct (check_status_shape (parseNotarizationInfo t) script)
        as (res & Hc & Hne & _).
      destruct (is_str _ _).
      * destruct IH as (n & H1 & H2 & H3 & H4).
        destruct (Pkg.waitForNotarize uuid opts script) as [[ev s] [[]|e|]];
          cbn [fst snd] in *.
        -- destruct (check_status_shape (parseNotarizationInfo t) s)
             as (res' & Hc' & Hne' & _).
           rewrite Hc'. exists (S n). cbn [after fst snd retries app length drop].
           rewrite app_nil_r, H1. split; [reflexivity|]. split; [assumption|].
           split; [|lia]. split; [intros ->; congruence|].
           intros Hl. exfalso. assert (Hp : (length script <= n)%nat) by lia.
           apply H3 in Hp. discriminate Hp.
        -- exists (S n). cbn [retries app length drop]. rewrite H1.
           split; [reflexivity|]. split; [assumption|]. split; [|lia].
           split; [discriminate|]. intros Hl. apply H3. lia.
        -- exists (S n). cbn [retries app length drop]. rewrite H1.
           split; [reflexivity|]. split; [assumption|]. split; [|lia].
           split; [intros _|reflexivity].
           assert (Hp : (length script <= n)%nat) by (by apply H3). lia.
      * rewrite Hc. exists 0%nat. cbn [after fst snd retries app length drop].
        split; [reflexivity|]. split; [reflexivity|]. split; [|lia].
        split; [intros ->; congruence | lia].
    + cbn [Pkg.waitForNotarize]. rewrite after_eq.
      destruct IH as (n & H1 & H2 & H3 & H4). exists (S n).
      cbn [fst snd retries app length drop]. rewrite H1.
      split; [reflexivity|]. split; [assumption|]. split; [|lia].
      rewrite H3. lia.
  - assert (Hstep : forall script,
               (exists n,
                   (Notarize.waitForNotarize uuid opts script).1.1
                   = retries (Notarize.query uuid opts) n ++ [Notarize.query uuid opts]
                   /\ (Notarize.waitForNotarize uuid opts script).1.2 = drop (S n) script
                   /\ ((Notarize.waitForNotarize uuid opts script).2 = Pending
                       <-> (length script <= n)%nat)
                   /\ (n <= length script)%nat) ->
               forall r0,
                 exists n,
                   (after [Notarize.query uuid opts; Delay 30000]
                      (Notarize.waitForNotarize uuid opts script)).1.1
                   = retries (Notarize.query uuid opts) n ++ [Notarize.query uuid opts]
                   /\ (after [Notarize.query uuid opts; Delay 30000]
                         (Notarize.waitForNotarize uuid opts script)).1.2
                      = drop (S n) (r0 :: script)
                   /\ ((after [Notarize.query uuid opts; Delay 30000]
                          (Notarize.waitForNotarize uuid opts script)).2 = Pending
                       <-> (length (r0 :: script) <= n)%nat)
                   /\ (n <= length (r0 :: script))%nat).
    { intros s (n & H1 & H2 & H3 & H4) r0. rewrite after_eq. exists (S n).
      cbn [fst snd retries app length drop]. rewrite H1.
      split; [reflexivity|]. split; [assumption|]. split; [|lia].
      rewrite H3. lia. }
    induction script as [|[t|e] script IH].
    + exists 0%nat. cbn. repeat split; auto.
    + cbn [Notarize.waitForNotarize].
      destruct (is_str _ _); [by apply Hstep|].
      destruct (check_status_shape (parseNotarizationInfo t) script)
        as (res & Hc & Hne & _).
      rewrite Hc. exists 0%nat. cbn [after fst snd retries app length drop].
      split; [reflexivity|]. split; [reflexivity|]. split; [|lia].
      split; [intros ->; congruence | lia].
    + cbn [Notarize.waitForNotarize]. by apply Hstep.
Qed.

(** ** [module.exports] of [index.js] *)

Section PkgHook.

Variable path : PathApi.
Variable isPullRequest : bool.

(** The guards, in the order of the code. *)
Lemma Pkg_main_guards parameters env :
  Pkg.main path isPullRequest parameters env
  = if negb (is_str (Pkg.electronPlatformName parameters) (js "darwin")) then ret tt
    else
      match Pkg.getAuthInfo env with
      | Throw error => console_log (js "Skipping notarization: " ++ message error)
      | Pending => ret tt
      | Ret authInfo =>
          if skipped_as_pull_request isPullRequest env then
            console_log (js "Skipping notarizing, since app was not signed.")
          else if skipped_as_side_branch env then ret tt
          else
            match List.find (fun filePath =>
                               bool_decide (extname path filePath = js ".pkg"))
                            (Pkg.artifactPaths parameters) with
            | Some [] | None =>
                console_log (js "Skipping notarizing, since no pkg artifact was found")
            | Some pkgPath =>
                Pkg.sign_and_notarize path authInfo pkgPath (Pkg.appId parameters)
            end
      end.
Proof.
  unfold Pkg.main, skipped_as_pull_request, skipped_as_side_branch.
  destruct (negb _); [reflexivity|].
  destruct (Pkg.getAuthInfo env); try reflexivity.
  cbv zeta. destruct (_ && _); [reflexivity|]. destruct (_ && _); [reflexivity|].
  destruct (List.find _ _) as [[|c p]|]; reflexivity.
Qed.

(** Either every guard lets the run through, or the run ends at once,
    with at most a line on the console. *)
Lemma Pkg_main_cases parameters env :
  (exists authInfo pkgPath,
      reaches_signing path isPullRequest parameters env authInfo pkgPath)
  \/ ((forall authInfo pkgPath,
          ~ reaches_signing path isPullRequest parameters env authInfo pkgPath)
      /\ exists ev, at_most_a_log ev
                    /\ forall script,
                         Pkg.main path isPullRequest parameters env script
                         = (ev, script, Ret tt)).
Proof.
  rewrite Pkg_main_guards.
  destruct (is_str (Pkg.electronPlatformName parameters) (js "darwin")) eqn:Hplat;
    cbn [negb].
  2:{ right. split.
      - intros a p (H & _). rewrite H in Hplat. discriminate Hplat.
      - exists []. split; [by left | reflexivity]. }
  apply is_str_true in Hplat.
  destruct (Pkg.getAuthInfo env) as [a|e|] eqn:Hauth.
  2:{ right. split.
      - intros a p (_ & H & _). congruence.
      - eexists. split; [right; eexists; reflexivity | reflexivity]. }
  2:{ right. split.
      - intros a p (_ & H & _). congruence.
      - exists []. split; [by left | reflexivity]. }
  destruct (skipped_as_pull_request isPullRequest env) eqn:Hpr.
  { right. split.
    - intros a' p (_ & _ & H & _). congruence.
    - eexists. split; [right; eexists; reflexivity | reflexivity]. }
  destruct (skipped_as_side_branch env) eqn:Hbr.
  { right. split.
    - intros a' p (_ & _ & _ & H & _). congruence.
    - exists []. split; [by left | reflexivity]. }
  destruct (List.find _ _) as [[|c p]|] eqn:Hfind.
  - right. split.
    + intros a' p (_ & _ & _ & _ & H & Hne). congruence.
    + eexists. split; [right; eexists; reflexivity | reflexivity].
  - left. exists a, (c :: p). repeat split; try assumption. discriminate.
  - right. split.
    + intros a' p (_ & _ & _ & _ & H & Hne). congruence.
    + eexists. split; [right; eexists; reflexivity | reflexivity].
Qed.

(** The first two events of the stages. *)
Lemma sign_and_notarize_begins authInfo c pkgPath appId (script : list Reply) :
  Pkg.productSignCertificateName authInfo = Some c ->
  exists ev,
    (Pkg.sign_and_notarize path authInfo pkgPath appId script).1.1
    = Log (js "Signing " ++ pkgPath ++ js "...") :: signing_call :: ev.
Proof.
  intros Hc. unfold Pkg.sign_and_notarize. rewrite Hc. cbn [of_opt].
  unfold console_log. rewrite bind_emit. cbv beta.
  match goal with
  | |- context [bind (Pkg.signPackage (JStr c)) ?k script] =>
      destruct (bind_prefix (Pkg.signPackage (JStr c)) k script) as [ev Hev]
  end.
  rewrite signPackage_events in Hev.
  match goal with
  | |- context [after _ ?k] => destruct k as [[ev' s'] r']
  end.
  cbn in Hev. subst ev'. eexists; reflexivity.
Qed.

(** A run in which the signing tool, the two renames and the upload
    succeed, up to the first status query. *)
Lemma sign_and_notarize_to_polling authInfo c pkgPath appId s1 s2 s3 out u
    (script : list Reply) :
  Pkg.productSignCertificateName authInfo = Some c ->
  exec uuid_re out = Some (Some u) ->
  Pkg.sign_and_notarize path authInfo pkgPath appId
    (Done s1 :: Done s2 :: Done s3 :: Done out :: script)
  = after (Pkg_events_to_upload path pkgPath appId (Pkg.rest_options authInfo)
           ++ [Delay 10000])
          (bind (Pkg.waitForNotarize (JStr u) (Pkg.rest_options authInfo))
                (fun _ =>
                   bind (stapleApp path pkgPath)
                        (fun _ => console_log (js "Notarized " ++ pkgPath
                                               ++ js " successfully.")))
                script).
Proof.
  intros Hc Hu. unfold Pkg.sign_and_notarize. rewrite Hc. cbn [of_opt]. cbv zeta.
  unfold console_log, delay. rewrite bind_emit.
  erewrite bind_ret_eq by (rewrite signPackage_string; reflexivity).
  erewrite bind_ret_eq by apply renameSync_done.
  erewrite bind_ret_eq by apply renameSync_done.
  rewrite bind_emit.
  erewrite bind_ret_eq by (rewrite Pkg_start_done, Hu; reflexivity).
  cbn [of_opt]. rewrite bind_emit, !after_after. reflexivity.
Qed.

(** The last stages, from a poller that returns. *)
Lemma Pkg_polling_to_end uuid opts pkgPath errs t s4 (rest : list Reply) :
  says_success t = true ->
  bind (Pkg.waitForNotarize uuid opts)
       (fun _ =>
          bind (stapleApp path pkgPath)
               (fun _ => console_log (js "Notarized " ++ pkgPath ++ js " successfully.")))
       (map Failed errs ++ Done t :: Done s4 :: rest)
  = (retries (Pkg.query uuid opts) (length errs)
     ++ Pkg.query uuid opts :: events_of_stapling path pkgPath, rest, Ret tt).
Proof.
  intros Ht.
  erewrite bind_ret_eq
    by (rewrite Pkg_wait_failures, Pkg_wait_success by assumption; reflexivity).
  erewrite bind_ret_eq by apply stapleApp_done.
  unfold console_log, emit, events_of_stapling. cbn [after app].
  rewrite <- app_assoc. reflexivity.
Qed.

(** The stages return only after a run of that shape. *)
Lemma sign_and_notarize_inv_ret authInfo c pkgPath appId (script : list Reply) ev rest :
  Pkg.productSignCertificateName authInfo = Some c ->
  Pkg.sign_and_notarize path authInfo pkgPath appId script = (ev, rest, Ret tt) ->
  exists s1 s2 s3 out u errs t s4,
    script = Done s1 :: Done s2 :: Done s3 :: Done out
             :: map Failed errs ++ Done t :: Done s4 :: rest
    /\ exec uuid_re out = Some (Some u)
    /\ says_success t = true.
Proof.
  intros Hc H. unfold Pkg.sign_and_notarize in H. rewrite Hc in H.
  cbn [of_opt] in H. cbv zeta in H. unfold console_log, delay in H.
  apply bind_inv_ret in H as (e1 & x1 & [] & e1' & Hm & H & ->).
  injection Hm as <- <-.
  apply bind_inv_ret in H as (e2 & x2 & [] & e2' & Hm & H & ->).
  apply signPackage_inv_ret in Hm as (s1 & -> & ->).
  apply bind_inv_ret in H as (e3 & x3 & [] & e3' & Hm & H & ->).
  apply renameSync_inv_ret in Hm as (s2 & -> & ->).
  apply bind_inv_ret in H as (e4 & x4 & [] & e4' & Hm & H & ->).
  apply renameSync_inv_ret in Hm as (s3 & -> & ->).
  apply bind_inv_ret in H as (e5 & x5 & [] & e5' & Hm & H & ->).
  injection Hm as <- <-.
  apply bind_inv_ret in H as (e6 & x6 & uuid & e6' & Hm & H & ->).
  apply Pkg_start_inv_ret in Hm as (out & u & -> & Hu & -> & ->).
  apply bind_inv_ret in H as (e7 & x7 & [] & e7' & Hm & H & ->).
  injection Hm as <- <-.
  apply bind_inv_ret in H as (e8 & x8 & [] & e8' & Hm & H & ->).
  apply Pkg_wait_inv_ret in Hm as (errs & t & -> & Ht & ->).
  apply bind_inv_ret in H as (e9 & x9 & [] & e9' & Hm & H & ->).
  apply stapleApp_inv_ret in Hm as (s4 & -> & ->).
  injection H as <- <-.
  exists s1, s2, s3, out, u, errs, t, s4. auto.
Qed.

End PkgHook.

Lemma bind_stops (m : IO unit) (f : unit -> IO unit) (script : list Reply) :
  (m script).2 <> Ret tt -> bind m f script = m script.
Proof.
  unfold bind. destruct (m script) as [[ev s] [[]|e|]]; cbn; [congruence|reflexivity..].
Qed.

Lemma fallen_through_true (res : Res unit) : fallen_through true res <> Ret tt.
Proof. by destruct res as [[]|e|]. Qed.

(** X15.  The hook of [index.js] reaches outside the process, by running
    a tool or renaming a file, exactly when every guard lets the run
    through: the platform is macOS, the credentials are complete, the
    build is not skipped as a pull request or as a side branch, and an
    artifact ends in [.pkg].  In every other run it returns normally,
    having taken no reply and written at most one line on the console. *)
Theorem Pkg_main_acts_only_past_the_guards :
  forall path isPullRequest parameters env (script : list Reply),
    let r := Pkg.main path isPullRequest parameters env script in
    ((exists authInfo pkgPath,
         reaches_signing path isPullRequest parameters env authInfo pkgPath)
     <-> existsb is_external r.1.1 = true)
    /\ (existsb is_external r.1.1 = false ->
        at_most_a_log r.1.1 /\ r.1.2 = script /\ r.2 = Ret tt).
Proof.
  intros path isPR parameters env script r. subst r.
  destruct (Pkg_main_cases path isPR parameters env)
    as [(a & p & Hreach) | (Hno & ev & Hev & Hmain)].
  - rewrite (main_reaches_signing path isPR parameters env a p Hreach).
    destruct Hreach as (H0 & Hauth & Hrest).
    destruct (getAuthInfo_certificate env a Hauth) as [c Hc].
    destruct (sign_and_notarize_begins path a c p (Pkg.appId parameters) script Hc)
      as [ev Hev].
    rewrite Hev. cbn [existsb is_external signing_call orb].
    split; [|discriminate].
    split; [by intros _|]. intros _. exists a, p. unfold reaches_signing. tauto.
  - rewrite Hmain. cbn [fst snd].
    assert (Hext : existsb is_external ev = false)
      by (destruct Hev as [-> | [l ->]]; reflexivity).
    rewrite Hext. split; [|by intros _].
    split; [|discriminate]. intros (a & p & H). exfalso. by apply (Hno a p).
Qed.

(** X16.  Past the guards, the hook of [index.js] returns normally in
    exactly one kind of run: the signing tool, the two renames and the
    upload succeed, the upload's output has a request identifier, every
    status query before the last one fails, the last one is answered by
    a report that says ["success"], and the stapling tool succeeds.  Its
    events are then, in this order: the signing and the two renames,
    the upload, a wait of 10000 ms, the queries for the identifier the
    upload gave, with 30000 ms between them, the stapling, and the
    final line on the console. *)
Theorem Pkg_main_completes_exactly :
  forall path isPullRequest parameters env authInfo pkgPath
         (script : list Reply) ev rest,
    reaches_signing path isPullRequest parameters env authInfo pkgPath ->
    Pkg.main path isPullRequest parameters env script = (ev, rest, Ret tt)
    <-> exists s1 s2 s3 out u errs t s4,
          script = Done s1 :: Done s2 :: Done s3 :: Done out
                   :: map Failed errs ++ Done t :: Done s4 :: rest
          /\ exec uuid_re out = Some (Some u)
          /\ says_success t = true
          /\ ev = Pkg_events_to_upload path pkgPath (Pkg.appId parameters)
                    (Pkg.rest_options authInfo)
                  ++ Delay 10000
                  :: retries (Pkg.query (JStr u) (Pkg.rest_options authInfo))
                       (length errs)
                  ++ Pkg.query (JStr u) (Pkg.rest_options authInfo)
                  :: events_of_stapling path pkgPath.
Proof.
  intros path isPR parameters env a p script ev rest Hreach.
  rewrite (main_reaches_signing path isPR parameters env a p Hreach).
  destruct Hreach as (_ & Hauth & _).
  destruct (getAuthInfo_certificate env a Hauth) as [c Hc].
  split.
  - intros H.
    destruct (sign_and_notarize_inv_ret path a c p _ script ev rest Hc H)
      as (s1 & s2 & s3 & out & u & errs & t & s4 & -> & Hu & Ht).
    exists s1, s2, s3, out, u, errs, t, s4.
    split; [reflexivity|]. split; [assumption|]. split; [assumption|].
    rewrite (sign_and_notarize_to_polling path a c p _ s1 s2 s3 out u _ Hc Hu) in H.
    rewrite Pkg_polling_to_end in H by assumption.
    rewrite after_eq in H. apply (f_equal (fun r => r.1.1)) in H.
    cbn [fst snd] in H. rewrite <- H, <- app_assoc. reflexivity.
  - intros (s1 & s2 & s3 & out & u & errs & t & s4 & -> & Hu & Ht & ->).
    rewrite (sign_and_notarize_to_polling path a c p _ s1 s2 s3 out u _ Hc Hu).
    rewrite Pkg_polling_to_end by assumption.
    unfold after. by rewrite <- app_assoc.
Qed.

Lemma Pkg_main_completes_exactly_witness :
  Pkg.main posix false sample_parameters key_env_signed
    [Done []; Done []; Done [];
     Done (join_lines (upload_notes ++ [js "RequestUUID = ABC-123"; []]));
     Failed (Error (js "timeout")); Done approved_report; Done []]
  = (Pkg_events_to_upload posix sample_pkg sample_app (Pkg.rest_options sample_auth)
     ++ Delay 10000
     :: retries (Pkg.query (JStr (js "ABC-123")) (Pkg.rest_options sample_auth)) 1
     ++ Pkg.query (JStr (js "ABC-123")) (Pkg.rest_options sample_auth)
     :: events_of_stapling posix sample_pkg,
     [], Ret tt).
Proof.
  apply (Pkg_main_completes_exactly posix false sample_parameters key_env_signed
           sample_auth sample_pkg _ _ [] sample_run_reaches_signing).
  exists [], [], [],
    (join_lines (upload_notes ++ [js "RequestUUID = ABC-123"; []])),
    (js "ABC-123"), [Error (js "timeout")], approved_report, [].
  repeat split; vm_compute; reflexivity.
Defined.

(** X17.  Past the guards, the hook of [index.js] stops at the first
    stage that fails, and runs none of the later ones.  The error of a
    failed rename is passed on as it is: after the first rename has
    failed nothing else is touched, and after the second one has failed
    the artifact is left under its [-unsigned.pkg] name.  A failed
    upload and a failed stapling are reported with the messages of
    their stages, and the line that reports success is not written. *)
Theorem Pkg_main_stops_at_the_first_failure :
  forall path isPullRequest parameters env authInfo pkgPath s1 s2 s3 e
         (rest : list Reply),
    reaches_signing path isPullRequest parameters env authInfo pkgPath ->
    let main := Pkg.main path isPullRequest parameters env in
    let opts := Pkg.rest_options authInfo in
    let events := Pkg_events_to_upload path pkgPath (Pkg.appId parameters) opts in
    main (Done s1 :: Failed e :: rest) = (take 3 events, rest, Throw e)
    /\ main (Done s1 :: Done s2 :: Failed e :: rest) = (take 4 events, rest, Throw e)
    /\ main (Done s1 :: Done s2 :: Done s3 :: Failed e :: rest)
       = (events, rest, Throw (Error (upload_failed_message (message e))))
    /\ (forall out u errs t,
          exec uuid_re out = Some (Some u) -> says_success t = true ->
          main (Done s1 :: Done s2 :: Done s3 :: Done out
                :: map Failed errs ++ Done t :: Failed e :: rest)
          = (events ++ Delay 10000
             :: retries (Pkg.query (JStr u) opts) (length errs)
             ++ [Pkg.query (JStr u) opts; staple_call path pkgPath],
             rest, Throw (Error (staple_failed_message e)))).
Proof.
  intros path isPR parameters env a p s1 s2 s3 e rest Hreach main opts events.
  subst main opts events.
  rewrite (main_reaches_signing path isPR parameters env a p Hreach).
  destruct Hreach as (_ & Hauth & _).
  destruct (getAuthInfo_certificate env a Hauth) as [c Hc].
  split; [|split; [|split]].
  - unfold Pkg.sign_and_notarize. rewrite Hc. cbn [of_opt]. cbv zeta.
    unfold console_log. rewrite bind_emit.
    erewrite bind_ret_eq by (rewrite signPackage_string; reflexivity).
    erewrite bind_throw by apply renameSync_failed. reflexivity.
  - unfold Pkg.sign_and_notarize. rewrite Hc. cbn [of_opt]. cbv zeta.
    unfold console_log. rewrite bind_emit.
    erewrite bind_ret_eq by (rewrite signPackage_string; reflexivity).
    erewrite bind_ret_eq by apply renameSync_done.
    erewrite bind_throw by apply renameSync_failed. reflexivity.
  - unfold Pkg.sign_and_notarize. rewrite Hc. cbn [of_opt]. cbv zeta.
    unfold console_log. rewrite bind_emit.
    erewrite bind_ret_eq by (rewrite signPackage_string; reflexivity).
    erewrite bind_ret_eq by apply renameSync_done.
    erewrite bind_ret_eq by apply renameSync_done.
    rewrite bind_emit.
    erewrite bind_throw by apply Pkg_start_failed. reflexivity.
  - intros out u errs t Hu Ht.
    rewrite (sign_and_notarize_to_polling path a c p _ s1 s2 s3 out u _ Hc Hu).
    erewrite bind_ret_eq
      by (rewrite Pkg_wait_failures, Pkg_wait_success by assumption; reflexivity).
    erewrite bind_throw by apply stapleApp_failed.
    unfold after. by rewrite <- !app_assoc.
Qed.

Lemma Pkg_main_stops_at_the_first_failure_witness :
  Pkg.main posix false sample_parameters key_env_signed
    [Done []; Done []; Failed (Error (js "ENOENT: no such file or directory"))]
  = ([Log (js "Signing /dist/App.pkg..."); signing_call;
      Rename (js "/dist/App.pkg") (js "/dist/App-unsigned.pkg");
      Rename (js "/dist/App-signed.pkg") (js "/dist/App.pkg")], [],
     Throw (Error (js "ENOENT: no such file or directory"))).
Proof.
  exact (proj1 (proj2 (Pkg_main_stops_at_the_first_failure
                         posix false sample_parameters key_env_signed sample_auth
                         sample_pkg [] [] []
                         (Error (js "ENOENT: no such file or directory")) []
                         sample_run_reaches_signing))).
Defined.

(** X18.  Past the guards, the hook of [index.js] never succeeds once a
    status report has said ["in progress"]: when the signing, the
    renames and the upload have succeeded and the poller is answered by
    failures and such reports, at least one of them a report, the run
    ends as the poller ends, which does not return.  The stapling tool
    is not run and the line that reports success is not written,
    whatever the replies that follow. *)
Theorem Pkg_main_fails_once_a_report_says_in_progress :
  forall path isPullRequest parameters env authInfo pkgPath s1 s2 s3 out u
         (rs rest : list Reply),
    reaches_signing path isPullRequest parameters env authInfo pkgPath ->
    exec uuid_re out = Some (Some u) ->
    forallb keeps_polling rs = true ->
    existsb says_in_progress rs = true ->
    let opts := Pkg.rest_options authInfo in
    let r := Pkg.waitForNotarize (JStr u) opts rest in
    Pkg.main path isPullRequest parameters env
      (Done s1 :: Done s2 :: Done s3 :: Done out :: rs ++ rest)
    = (Pkg_events_to_upload path pkgPath (Pkg.appId parameters) opts
       ++ Delay 10000 :: retries (Pkg.query (JStr u) opts) (length rs) ++ r.1.1,
       r.1.2, fallen_through true r.2)
    /\ fallen_through true r.2 <> Ret tt.
Proof.
  intros path isPR parameters env a p s1 s2 s3 out u rs rest Hreach Hu Hrs Hin opts r.
  subst opts r. split; [|apply fallen_through_true].
  rewrite (main_reaches_signing path isPR parameters env a p Hreach).
  destruct Hreach as (_ & Hauth & _).
  destruct (getAuthInfo_certificate env a Hauth) as [c Hc].
  rewrite (sign_and_notarize_to_polling path a c p _ s1 s2 s3 out u _ Hc Hu).
  rewrite bind_stops; rewrite Pkg_wait_polling, Hin by assumption; cbv zeta.
  - unfold after. by rewrite <- app_assoc.
  - apply fallen_through_true.
Qed.

Lemma Pkg_main_fails_once_a_report_says_in_progress_witness :
  Pkg.main posix false sample_parameters key_env_signed
    (Done [] :: Done [] :: Done []
     :: Done (join_lines (upload_notes ++ [js "RequestUUID = ABC-123"; []]))
     :: [Done pending_report] ++ [Done approved_report; Done []])
  = (Pkg_events_to_upload posix sample_pkg sample_app (Pkg.rest_options sample_auth)
     ++ Delay 10000
     :: retries (Pkg.query (JStr (js "ABC-123")) (Pkg.rest_options sample_auth)) 1
     ++ [Pkg.query (JStr (js "ABC-123")) (Pkg.rest_options sample_auth)],
     [Done []], Throw (Error (unrecognized_text (js "in progress")))).
Proof.
  refine (eq_trans
            (proj1 (Pkg_main_fails_once_a_report_says_in_progress
                      posix false sample_parameters key_env_signed sample_auth
                      sample_pkg [] [] []
                      (join_lines (upload_notes ++ [js "RequestUUID = ABC-123"; []]))
                      (js "ABC-123") [Done pending_report]
                      [Done approved_report; Done []]
                      sample_run_reaches_signing _ _ _)) _);
    vm_compute; reflexivity.
Defined.

(** ** [module.exports] of [part_000] *)

Section NotarizeHook.

Variable path : PathApi.
Variable isPullRequest : bool.

Lemma Notarize_main_guards parameters env :
  Notarize.main path isPullRequest parameters env
  = match Notarize.getAuthInfo env with
    | Throw error => console_log (js "Skipping notarization: " ++ message error)
    | Pending => ret tt
    | Ret authInfo =>
        if skipped_as_pull_request isPullRequest env then
          console_log (js "Skipping notarizing, since app was not signed.")
        else if skipped_as_side_branch env then ret tt
        else
          match List.find (fun filePath =>
                             bool_decide (extname path filePath = js ".pkg"))
                          (Notarize.artifactPaths parameters) with
          | Some [] | None =>
              console_log (js "Skipping notarizing, since no pkg artifact was found")
          | Some pkgPath =>
              Notarize.notarize path authInfo pkgPath (Notarize.appId parameters)
          end
    end.
Proof.
  unfold Notarize.main, skipped_as_pull_request, skipped_as_side_branch.
  destruct (Notarize.getAuthInfo env); try reflexivity.
  cbv zeta. destruct (_ && _); [reflexivity|]. destruct (_ && _); [reflexivity|].
  destruct (List.find _ _) as [[|c p]|]; reflexivity.
Qed.

Lemma Notarize_main_reaches parameters env authInfo pkgPath :
  reaches_notarizing path isPullRequest parameters env authInfo pkgPath ->
  Notarize.main path isPullRequest parameters env
  = Notarize.notarize path authInfo pkgPath (Notarize.appId parameters).
Proof.
  intros (Hauth & Hpr & Hbr & Hfind & Hne).
  rewrite Notarize_main_guards, Hauth, Hpr, Hbr, Hfind.
  destruct pkgPath; [congruence | reflexivity].
Qed.

Lemma Notarize_main_cases parameters env :
  (exists authInfo pkgPath,
      reaches_notarizing path isPullRequest parameters env authInfo pkgPath)
  \/ ((forall authInfo pkgPath,
          ~ reaches_notarizing path isPullRequest parameters env authInfo pkgPath)
      /\ exists ev, at_most_a_log ev
                    /\ forall script,
                         Notarize.main path isPullRequest parameters env script
                         = (ev, script, Ret tt)).
Proof.
  rewrite Notarize_main_guards.
  destruct (Notarize.getAuthInfo env) as [a|e|] eqn:Hauth.
  2:{ right. split.
      - intros a p (H & _). congruence.
      - eexists. split; [right; eexists; reflexivity | reflexivity]. }
  2:{ right. split.
      - intros a p (H & _). congruence.
      - exists []. split; [by left | reflexivity]. }
  destruct (skipped_as_pull_request isPullRequest env) eqn:Hpr.
  { right. split.
    - intros a' p (_ & H & _). congruence.
    - eexists. split; [right; eexists; reflexivity | reflexivity]. }
  destruct (skipped_as_side_branch env) eqn:Hbr.
  { right. split.
    - intros a' p (_ & _ & H & _). congruence.
    - exists []. split; [by left | reflexivity]. }
  destruct (List.find _ _) as [[|c p]|] eqn:Hfind.
  - right. split.
    + intros a' p (_ & _ & _ & H & Hne). congruence.
    + eexists. split; [right; eexists; reflexivity | reflexivity].
  - left. exists a, (c :: p). repeat split; try assumption. discriminate.
  - right. split.
    + intros a' p (_ & _ & _ & H & Hne). congruence.
    + eexists. split; [right; eexists; reflexivity | reflexivity].
Qed.

Lemma Notarize_start_events pkgPath appId opts (script : list Reply) :
  (Notarize.startNotarizingPackage pkgPath appId opts script).1.1
  = [Notarize_upload_call pkgPath appId opts].
Proof.
  destruct script as [|[out|e] rest]; [reflexivity| |reflexivity].
  rewrite Notarize_start_done. reflexivity.
Qed.

Lemma notarize_begins authInfo pkgPath appId (script : list Reply) :
  exists ev,
    (Notarize.notarize path authInfo pkgPath appId script).1.1
    = Log (js "Notarizing " ++ pkgPath ++ js "...")
      :: Notarize_upload_call pkgPath appId authInfo :: ev.
Proof.
  unfold Notarize.notarize, console_log. rewrite bind_emit. cbv beta.
  match goal with
  | |- context [bind (Notarize.startNotarizingPackage ?a ?b ?c) ?k script] =>
      destruct (bind_prefix (Notarize.startNotarizingPackage a b c) k script)
        as [ev Hev]
  end.
  rewrite Notarize_start_events in Hev.
  match goal with
  | |- context [after _ ?k] => destruct k as [[ev' s'] r']
  end.
  cbn in Hev. subst ev'. eexists; reflexivity.
Qed.

Lemma notarize_to_polling authInfo pkgPath appId out u (script : list Reply) :
  exec uuid_re out = Some (Some u) ->
  Notarize.notarize path authInfo pkgPath appId (Done out :: script)
  = after (Notarize_events_to_upload pkgPath appId authInfo ++ [Delay 10000])
          (bind (Notarize.waitForNotarize (JStr u) authInfo)
                (fun _ =>
                   bind (stapleApp path pkgPath)
                        (fun _ => console_log (js "Notarized " ++ pkgPath
                                               ++ js " successfully.")))
                script).
Proof.
  intros Hu. unfold Notarize.notarize, console_log, delay. rewrite bind_emit.
  erewrite bind_ret_eq by (rewrite Notarize_start_done, Hu; reflexivity).
  cbn [of_opt]. rewrite bind_emit, !after_after. reflexivity.
Qed.

Lemma Notarize_polling_to_end uuid opts pkgPath rs t s4 (rest : list Reply) :
  forallb keeps_polling rs = true ->
  says_success t = true ->
  bind (Notarize.waitForNotarize uuid opts)
       (fun _ =>
          bind (stapleApp path pkgPath)
               (fun _ => console_log (js "Notarized " ++ pkgPath ++ js " successfully.")))
       (rs ++ Done t :: Done s4 :: rest)
  = (retries (Notarize.query uuid opts) (length rs)
     ++ Notarize.query uuid opts :: events_of_stapling path pkgPath, rest, Ret tt).
Proof.
  intros Hrs Ht.
  erewrite bind_ret_eq
    by (rewrite Notarize_wait_polling, Notarize_wait_success by assumption;
        reflexivity).
  erewrite bind_ret_eq by apply stapleApp_done.
  unfold console_log, emit, events_of_stapling. cbn [after app].
  rewrite <- app_assoc. reflexivity.
Qed.

Lemma notarize_inv_ret authInfo pkgPath appId (script : list Reply) ev rest :
  Notarize.notarize path authInfo pkgPath appId script = (ev, rest, Ret tt) ->
  exists out u rs t s4,
    script = Done out :: rs ++ Done t :: Done s4 :: rest
    /\ exec uuid_re out = Some (Some u)
    /\ forallb keeps_polling rs = true
    /\ says_success t = true.
Proof.
  intros H. unfold Notarize.notarize, console_log, delay in H.
  apply bind_inv_ret in H as (e1 & x1 & [] & e1' & Hm & H & ->).
  injection Hm as <- <-.
  apply bind_inv_ret in H as (e2 & x2 & uuid & e2' & Hm & H & ->).
  apply Notarize_start_inv_ret in Hm as (out & u & -> & Hu & -> & ->).
  apply bind_inv_ret in H as (e3 & x3 & [] & e3' & Hm & H & ->).
  injection Hm as <- <-.
  apply bind_inv_ret in H as (e4 & x4 & [] & e4' & Hm & H & ->).
  apply Notarize_wait_inv_ret in Hm as (rs & t & -> & Hrs & Ht & ->).
  apply bind_inv_ret in H as (e5 & x5 & [] & e5' & Hm & H & ->).
  apply stapleApp_inv_ret in Hm as (s4 & -> & ->).
  injection H as <- <-.
  exists out, u, rs, t, s4. auto.
Qed.

End NotarizeHook.

(** X19.  The hook of [part_000] runs a tool exactly when every guard
    lets the run through: the credentials are complete, the build is
    not skipped as a pull request or as a side branch, and an artifact
    ends in [.pkg]; the platform is not looked at.  In every other run
    it returns normally, having taken no reply and written at most one
    line on the console. *)
Theorem Notarize_main_acts_only_past_the_guards :
  forall path isPullRequest parameters env (script : list Reply),
    let r := Notarize.main path isPullRequest parameters env script in
    ((exists authInfo pkgPath,
         reaches_notarizing path isPullRequest parameters env authInfo pkgPath)
     <-> existsb is_external r.1.1 = true)
    /\ (existsb is_external r.1.1 = false ->
        at_most_a_log r.1.1 /\ r.1.2 = script /\ r.2 = Ret tt).
Proof.
  intros path isPR parameters env script r. subst r.
  destruct (Notarize_main_cases path isPR parameters env)
    as [(a & p & Hreach) | (Hno & ev & Hev & Hmain)].
  - rewrite (Notarize_main_reaches path isPR parameters env a p Hreach).
    destruct (notarize_begins path a p (Notarize.appId parameters) script)
      as [ev Hev].
    rewrite Hev. cbn [existsb is_external Notarize_upload_call orb].
    split; [|discriminate].
    split; [by intros _|]. intros _. by exists a, p.
  - rewrite Hmain. cbn [fst snd].
    assert (Hext : existsb is_external ev = false)
      by (destruct Hev as [-> | [l ->]]; reflexivity).
    rewrite Hext. split; [|by intros _].
    split; [|discriminate]. intros (a & p & H). exfalso. by apply (Hno a p).
Qed.

(** X20.  Past the guards, the hook of [part_000] returns normally in
    exactly one kind of run: the upload succeeds and its output has a
    request identifier, every status query before the last one fails or
    is answered by a report that says ["in progress"], the last one is
    answered by a report that says ["success"], and the stapling tool
    succeeds.  Its events are then the upload, a wait of 10000 ms, the
    queries for the identifier the upload gave, with 30000 ms between
    them, the stapling, and the final line on the console: no file is
    renamed and no signing tool is run. *)
Theorem Notarize_main_completes_exactly :
  forall path isPullRequest parameters env authInfo pkgPath
         (script : list Reply) ev rest,
    reaches_notarizing path isPullRequest parameters env authInfo pkgPath ->
    Notarize.main path isPullRequest parameters env script = (ev, rest, Ret tt)
    <-> exists out u rs t s4,
          script = Done out :: rs ++ Done t :: Done s4 :: rest
          /\ exec uuid_re out = Some (Some u)
          /\ forallb keeps_polling rs = true
          /\ says_success t = true
          /\ ev = Notarize_events_to_upload pkgPath (Notarize.appId parameters) authInfo
                  ++ Delay 10000
                  :: retries (Notarize.query (JStr u) authInfo) (length rs)
                  ++ Notarize.query (JStr u) authInfo
                  :: events_of_stapling path pkgPath.
Proof.
  intros path isPR parameters env a p script ev rest Hreach.
  rewrite (Notarize_main_reaches path isPR parameters env a p Hreach).
  split.
  - intros H.
    destruct (notarize_inv_ret path a p _ script ev rest H)
      as (out & u & rs & t & s4 & -> & Hu & Hrs & Ht).
    exists out, u, rs, t, s4.
    split; [reflexivity|]. split; [assumption|]. split; [assumption|].
    split; [assumption|].
    rewrite (notarize_to_polling path a p _ out u _ Hu) in H.
    rewrite Notarize_polling_to_end in H by assumption.
    rewrite after_eq in H. apply (f_equal (fun r => r.1.1)) in H.
    cbn [fst snd] in H. rewrite <- H, <- app_assoc. reflexivity.
  - intros (out & u & rs & t & s4 & -> & Hu & Hrs & Ht & ->).
    rewrite (notarize_to_polling path a p _ out u _ Hu).
    rewrite Notarize_polling_to_end by assumption.
    unfold after. by rewrite <- app_assoc.
Qed.

Lemma sample_run_reaches_notarizing :
  reaches_notarizing posix false sample_notarize_parameters id_env
    notarize_id_options sample_pkg.
Proof.
  split; [vm_compute; reflexivity|]. split; [reflexivity|].
  split; [vm_compute; reflexivity|].
  split; [vm_compute; reflexivity | discriminate].
Qed.

Lemma Notarize_main_completes_exactly_witness :
  Notarize.main posix false sample_notarize_parameters id_env
    (Done (join_lines (upload_notes ++ [js "RequestUUID = ABC-123"; []]))
     :: [Done pending_report; Failed (Error (js "timeout"))]
     ++ [Done approved_report; Done []])
  = (Notarize_events_to_upload sample_pkg sample_app notarize_id_options
     ++ Delay 10000
     :: retries (Notarize.query (JStr (js "ABC-123")) notarize_id_options) 2
     ++ Notarize.query (JStr (js "ABC-123")) notarize_id_options
     :: events_of_stapling posix sample_pkg,
     [], Ret tt).
Proof.
  apply (Notarize_main_completes_exactly posix false sample_notarize_parameters id_env
           notarize_id_options sample_pkg _ _ [] sample_run_reaches_notarizing).
  exists (join_lines (upload_notes ++ [js "RequestUUID = ABC-123"; []])),
    (js "ABC-123"), [Done pending_report; Failed (Error (js "timeout"))],
    approved_report, [].
  repeat split; vm_compute; reflexivity.
Defined.

(** X21.  Past the guards, the hook of [part_000] stops at the first
    stage that fails.  A failed upload is reported as the upload
    failure, and nothing is queried.  An error of the poller, such as
    the rejection, ends the run with the poller's events and error: the
    stapling tool is not run.  A failed stapling is reported with its
    code, and the line that reports success is not written. *)
Theorem Notarize_main_stops_at_the_first_failure :
  forall path isPullRequest parameters env authInfo pkgPath e (rest : list Reply),
    reaches_notarizing path isPullRequest parameters env authInfo pkgPath ->
    let main := Notarize.main path isPullRequest parameters env in
    let events :=
      Notarize_events_to_upload pkgPath (Notarize.appId parameters) authInfo in
    main (Failed e :: rest)
    = (events, rest, Throw (Error (upload_failed_message (message e))))
    /\ (forall out u script,
          exec uuid_re out = Some (Some u) ->
          let r := Notarize.waitForNotarize (JStr u) authInfo script in
          r.2 <> Ret tt ->
          main (Done out :: script) = (events ++ Delay 10000 :: r.1.1, r.1.2, r.2))
    /\ (forall out u rs t,
          exec uuid_re out = Some (Some u) ->
          forallb keeps_polling rs = true -> says_success t = true ->
          main (Done out :: rs ++ Done t :: Failed e :: rest)
          = (events ++ Delay 10000
             :: retries (Notarize.query (JStr u) authInfo) (length rs)
             ++ [Notarize.query (JStr u) authInfo; staple_call path pkgPath],
             rest, Throw (Error (staple_failed_message e)))).
Proof.
  intros path isPR parameters env a p e rest Hreach main events.
  subst main events.
  rewrite (Notarize_main_reaches path isPR parameters env a p Hreach).
  split; [|split].
  - unfold Notarize.notarize, console_log. rewrite bind_emit.
    erewrite bind_throw by apply Notarize_start_failed. reflexivity.
  - intros out u script Hu r Hr. subst r.
    rewrite (notarize_to_polling path a p _ out u _ Hu).
    rewrite bind_stops by assumption. rewrite after_eq.
    by rewrite <- app_assoc.
  - intros out u rs t Hu Hrs Ht.
    rewrite (notarize_to_polling path a p _ out u _ Hu).
    erewrite bind_ret_eq
      by (rewrite Notarize_wait_polling, Notarize_wait_success by assumption;
          reflexivity).
    erewrite bind_throw by apply stapleApp_failed.
    unfold after. by rewrite <- !app_assoc.
Qed.

Lemma Notarize_main_stops_at_the_first_failure_witness :
  Notarize.main posix false sample_notarize_parameters id_env
    [Failed (Error (js "xcrun: error: unable to find utility"))]
  = (Notarize_events_to_upload sample_pkg sample_app notarize_id_options, [],
     Throw (Error (upload_failed_message (js "xcrun: error: unable to find utility")))).
Proof.
  exact (proj1 (Notarize_main_stops_at_the_first_failure
                  posix false sample_notarize_parameters id_env notarize_id_options
                  sample_pkg (Error (js "xcrun: error: unable to find utility")) []
                  sample_run_reaches_notarizing)).
Defined.

(** X22.  With the service-account variables alone, the hook of
    [part_000] notarizes nothing and reports no failure: for every
    build, whatever its artifacts, it writes one line on the console,
    which says that notarization is skipped because one of [APPLE_ID],
    [APPLE_ID_PASSWORD] and [APPLE_TEAM_ID] is missing, and returns
    normally without running a tool. *)
Theorem Notarize_main_with_a_service_account_skips :
  forall path isPullRequest parameters (env : gmap string jsstr)
         (script : list Reply),
    env_truthy (env !! "API_KEY_ID"%string) = true ->
    env_truthy (env !! "API_KEY_ISSUER_ID"%string) = true ->
    env_truthy (env !! "APPLE_ID"%string) = false ->
    env_truthy (env !! "APPLE_ID_PASSWORD"%string) = false ->
    env_truthy (env !! "APPLE_TEAM_ID"%string) = false ->
    Notarize.main path isPullRequest parameters env script
    = ([Log (js "Skipping notarization: One of APPLE_ID, APPLE_ID_PASSWORD, and APPLE_TEAM_ID environment variables is missing for notarization.")],
       script, Ret tt).
Proof.
  intros path isPR parameters env script Hk Hi Ha Hp Ht.
  rewrite Notarize_main_guards.
  unfold Notarize.getAuthInfo. rewrite Hk, Hi, Ha, Hp, Ht. reflexivity.
Qed.

Lemma Notarize_main_with_a_service_account_skips_witness :
  Notarize.main posix false sample_notarize_parameters key_env []
  = ([Log (js "Skipping notarization: One of APPLE_ID, APPLE_ID_PASSWORD, and APPLE_TEAM_ID environment variables is missing for notarization.")],
     [], Ret tt).
Proof.
  apply (Notarize_main_with_a_service_account_skips
           posix false sample_notarize_parameters key_env []);
    vm_compute; reflexivity.
Defined.
